(** * The bcachefs journal (libbcachefs/journal.c): reservation state machine,
      entry open and close, durability waiters and per-device bucket ring.

    The development follows journal.c function by function.  The journal of
    the C code is a structure mutated in place; here every function is a
    computation in a small state-and-failure monad over a [journal] record.
    Headers that journal.c includes but that are not among the sources at
    hand (journal.h, journal_types.h, fifo.h, closure.h, vstructs.h, ...)
    contribute constants and helpers; the constants are gathered in the class
    [journal_consts], the functions of other compilation units in the class
    [journal_externs], and the small inline helpers are written out from the
    specification, each marked as such. *)

From Stdlib Require Import ZArith List Bool Lia.
Import ListNotations.
Local Open Scope Z_scope.

(** ** Error numbers (errno-base.h, errno.h) *)

Definition EIO : Z := 5.
Definition EAGAIN : Z := 11.
Definition ENOMEM : Z := 12.
Definition ENOSPC : Z := 28.
Definition EROFS : Z := 30.
Definition ERESTARTSYS : Z := 512.

(** ** Fixed-width integers

    C objects of w bits are integers reduced modulo [2^w]; the signed types
    are re-centred around zero. *)

Definition wrap (w x : Z) : Z := x mod 2 ^ w.
Definition swrap (w x : Z) : Z := (x + 2 ^ (w - 1)) mod 2 ^ w - 2 ^ (w - 1).

Definition u32 (x : Z) : Z := wrap 32 x.
Definition u64 (x : Z) : Z := wrap 64 x.
Definition s32 (x : Z) : Z := swrap 32 x.
Definition s64 (x : Z) : Z := swrap 64 x.

(** [test_bit(nr, addr)] on a bitmap kept as one integer. *)
Definition test_bit (nr bitmap : Z) : bool := Z.testbit bitmap nr.

(** ** Constants of the missing headers

    journal_types.h, bcachefs_format.h and bkey.h are not among the sources;
    what journal.c takes from them is a handful of constants.  The two
    sentinels are values of the [cur_entry_offset] bitfield, and the
    specification orders them: a reservation is allowed only below CLOSED
    and ERROR refuses every reservation. *)

Class journal_consts := {
  OFFSET_BITS : Z;                 (* width of the cur_entry_offset bitfield *)
  COUNT_BITS : Z;                  (* width of each per-buffer count bitfield *)
  JOURNAL_ENTRY_CLOSED_VAL : Z;
  JOURNAL_ENTRY_ERROR_VAL : Z;
  JOURNAL_ENTRY_SIZE_MAX : Z;
  BTREE_ID_NR : Z;
  JSET_KEYS_U64s : Z;
  BKEY_EXTENT_U64s_MAX : Z;
  sizeof_jset : Z;                 (* sizeof(struct jset), in bytes *)
  sizeof_has_inode : Z;            (* sizeof(buf->has_inode), in bytes *)
  OFFSET_BITS_range : 0 < OFFSET_BITS <= 32;
  COUNT_BITS_range : 0 < COUNT_BITS;
  CLOSED_VAL_range : 0 <= JOURNAL_ENTRY_CLOSED_VAL < 2 ^ OFFSET_BITS;
  ERROR_VAL_range : 0 <= JOURNAL_ENTRY_ERROR_VAL < 2 ^ OFFSET_BITS;
  CLOSED_lt_ERROR : JOURNAL_ENTRY_CLOSED_VAL < JOURNAL_ENTRY_ERROR_VAL;
  BTREE_ID_NR_range : 0 <= BTREE_ID_NR < 2 ^ 16;
  JSET_KEYS_U64s_range : 0 <= JSET_KEYS_U64s < 2 ^ 16;
  BKEY_EXTENT_U64s_MAX_range : 0 <= BKEY_EXTENT_U64s_MAX < 2 ^ 16;
  sizeof_jset_range : 0 <= sizeof_jset < 2 ^ 16
}.

(** ** Data *)

(** [union journal_res_state], seen through its bitfields.  [idx] and
    [prev_buf_unwritten] are one bit wide and are kept as booleans
    ([false] is 0, [true] is 1); the other fields are integers of their
    bitfield's width. *)
Record journal_res_state := {
  cur_entry_offset : Z;
  idx : bool;
  prev_buf_unwritten : bool;
  buf0_count : Z;
  buf1_count : Z
}.

(** The fields of [struct jset] that journal.c touches. *)
Record jset := {
  jset_seq : Z;
  jset_last_seq : Z;
  jset_u64s : Z
}.

(** [struct journal_buf]; [wait] lists the closures parked on the buffer. *)
Record journal_buf := {
  data : jset;
  has_inode : Z;
  size : Z;
  disk_sectors : Z;
  wait : list nat
}.

(** [struct journal_entry_pin_list]. *)
Record journal_entry_pin_list := {
  pin_count : Z;
  pin_list : list nat;
  pin_flushed : list nat;
  pin_devs_nr : Z
}.

(** The pin fifo: a ring of [fifo_size] slots of which [fifo_data] are in
    use, oldest first. *)
Record pin_fifo := {
  fifo_size : Z;
  fifo_data : list journal_entry_pin_list
}.

(** A closure handed in by a caller: its identity and whether it already
    sits on some wait list. *)
Record closure := {
  cl_id : nat;
  cl_waiting : bool
}.

Inductive time_stat := delay_time | blocked_time | flush_seq_time.

(** What a journal function does to the rest of the kernel, in order. *)
Inductive event :=
| journal_wake
| closure_wake_up (waiters : list nat)
| bch2_time_stats_update (which : time_stat) (start : Z)
| mod_delayed_work (delay_ms : Z)
| cancel_delayed_work
| bch2_bucket_seq_cleanup
| trace_journal_entry_full
| trace_journal_full.

(** [struct journal], with the fields of the enclosing [struct bch_fs] that
    journal.c reaches through [container_of] ([bucket_journal_seq],
    [block_bits], [block_size]).

    [reservations] is the reservation word as this CPU last saw it.
    [racing] lists the values other CPUs store into the word while this CPU
    is between reading it and its compare-and-exchange; one is consumed by
    every compare-and-exchange that finds the word changed.  [log] collects
    the [event]s, newest first. *)
Record journal := {
  reservations : journal_res_state;
  racing : list journal_res_state;
  lock : bool;
  need_write : bool;               (* JOURNAL_NEED_WRITE in j->flags *)
  cur_entry_u64s : Z;
  prev_buf_sectors : Z;
  cur_buf_sectors : Z;
  buf_size_want : Z;
  buf0 : journal_buf;              (* j->buf[0] *)
  buf1 : journal_buf;              (* j->buf[1] *)
  j_seq : Z;                       (* j->seq *)
  pin : pin_fifo;
  res_get_blocked_start : Z;
  need_write_time : Z;
  write_delay_ms : Z;
  bucket_journal_seq : Z;
  block_bits : Z;
  block_size : Z;
  async_wait : list nat;
  log : list event
}.

(** [struct journal_res], the ticket of a reservation. *)
Record journal_res := {
  res_ref : bool;
  res_idx : bool;
  res_u64s : Z;
  res_offset : Z;
  res_seq : Z
}.

(** Field updates. *)

Definition set_cur_entry_offset (x : Z) (s : journal_res_state) : journal_res_state :=
  Build_journal_res_state x (idx s) (prev_buf_unwritten s) (buf0_count s) (buf1_count s).
Definition set_idx (x : bool) (s : journal_res_state) : journal_res_state :=
  Build_journal_res_state (cur_entry_offset s) x (prev_buf_unwritten s) (buf0_count s) (buf1_count s).
Definition set_prev_buf_unwritten (x : bool) (s : journal_res_state) : journal_res_state :=
  Build_journal_res_state (cur_entry_offset s) (idx s) x (buf0_count s) (buf1_count s).
Definition set_buf0_count (x : Z) (s : journal_res_state) : journal_res_state :=
  Build_journal_res_state (cur_entry_offset s) (idx s) (prev_buf_unwritten s) x (buf1_count s).
Definition set_buf1_count (x : Z) (s : journal_res_state) : journal_res_state :=
  Build_journal_res_state (cur_entry_offset s) (idx s) (prev_buf_unwritten s) (buf0_count s) x.
Definition set_jset_seq (x : Z) (d : jset) : jset :=
  Build_jset x (jset_last_seq d) (jset_u64s d).
Definition set_jset_last_seq (x : Z) (d : jset) : jset :=
  Build_jset (jset_seq d) x (jset_u64s d).
Definition set_jset_u64s (x : Z) (d : jset) : jset :=
  Build_jset (jset_seq d) (jset_last_seq d) x.
Definition set_data (x : jset) (b : journal_buf) : journal_buf :=
  Build_journal_buf x (has_inode b) (size b) (disk_sectors b) (wait b).
Definition set_has_inode (x : Z) (b : journal_buf) : journal_buf :=
  Build_journal_buf (data b) x (size b) (disk_sectors b) (wait b).
Definition set_size (x : Z) (b : journal_buf) : journal_buf :=
  Build_journal_buf (data b) (has_inode b) x (disk_sectors b) (wait b).
Definition set_disk_sectors (x : Z) (b : journal_buf) : journal_buf :=
  Build_journal_buf (data b) (has_inode b) (size b) x (wait b).
Definition set_wait (x : list nat) (b : journal_buf) : journal_buf :=
  Build_journal_buf (data b) (has_inode b) (size b) (disk_sectors b) x.
Definition set_reservations (x : journal_res_state) (j : journal) : journal :=
  Build_journal x (racing j) (lock j) (need_write j) (cur_entry_u64s j) (prev_buf_sectors j) (cur_buf_sectors j) (buf_size_want j) (buf0 j) (buf1 j) (j_seq j) (pin j) (res_get_blocked_start j) (need_write_time j) (write_delay_ms j) (bucket_journal_seq j) (block_bits j) (block_size j) (async_wait j) (log j).
Definition set_racing (x : list journal_res_state) (j : journal) : journal :=
  Build_journal (reservations j) x (lock j) (need_write j) (cur_entry_u64s j) (prev_buf_sectors j) (cur_buf_sectors j) (buf_size_want j) (buf0 j) (buf1 j) (j_seq j) (pin j) (res_get_blocked_start j) (need_write_time j) (write_delay_ms j) (bucket_journal_seq j) (block_bits j) (block_size j) (async_wait j) (log j).
Definition set_lock (x : bool) (j : journal) : journal :=
  Build_journal (reservations j) (racing j) x (need_write j) (cur_entry_u64s j) (prev_buf_sectors j) (cur_buf_sectors j) (buf_size_want j) (buf0 j) (buf1 j) (j_seq j) (pin j) (res_get_blocked_start j) (need_write_time j) (write_delay_ms j) (bucket_journal_seq j) (block_bits j) (block_size j) (async_wait j) (log j).
Definition set_need_write (x : bool) (j : journal) : journal :=
  Build_journal (reservations j) (racing j) (lock j) x (cur_entry_u64s j) (prev_buf_sectors j) (cur_buf_sectors j) (buf_size_want j) (buf0 j) (buf1 j) (j_seq j) (pin j) (res_get_blocked_start j) (need_write_time j) (write_delay_ms j) (bucket_journal_seq j) (block_bits j) (block_size j) (async_wait j) (log j).
Definition set_cur_entry_u64s (x : Z) (j : journal) : journal :=
  Build_journal (reservations j) (racing j) (lock j) (need_write j) x (prev_buf_sectors j) (cur_buf_sectors j) (buf_size_want j) (buf0 j) (buf1 j) (j_seq j) (pin j) (res_get_blocked_start j) (need_write_time j) (write_delay_ms j) (bucket_journal_seq j) (block_bits j) (block_size j) (async_wait j) (log j).
Definition set_prev_buf_sectors (x : Z) (j : journal) : journal :=
  Build_journal (reservations j) (racing j) (lock j) (need_write j) (cur_entry_u64s j) x (cur_buf_sectors j) (buf_size_want j) (buf0 j) (buf1 j) (j_seq j) (pin j) (res_get_blocked_start j) (need_write_time j) (write_delay_ms j) (bucket_journal_seq j) (block_bits j) (block_size j) (async_wait j) (log j).
Definition set_cur_buf_sectors (x : Z) (j : journal) : journal :=
  Build_journal (reservations j) (racing j) (lock j) (need_write j) (cur_entry_u64s j) (prev_buf_sectors j) x (buf_size_want j) (buf0 j) (buf1 j) (j_seq j) (pin j) (res_get_blocked_start j) (need_write_time j) (write_delay_ms j) (bucket_journal_seq j) (block_bits j) (block_size j) (async_wait j) (log j).
Definition set_buf_size_want (x : Z) (j : journal) : journal :=
  Build_journal (reservations j) (racing j) (lock j) (need_write j) (cur_entry_u64s j) (prev_buf_sectors j) (cur_buf_sectors j) x (buf0 j) (buf1 j) (j_seq j) (pin j) (res_get_blocked_start j) (need_write_time j) (write_delay_ms j) (bucket_journal_seq j) (block_bits j) (block_size j) (async_wait j) (log j).
Definition set_buf0 (x : journal_buf) (j : journal) : journal :=
  Build_journal (reservations j) (racing j) (lock j) (need_write j) (cur_entry_u64s j) (prev_buf_sectors j) (cur_buf_sectors j) (buf_size_want j) x (buf1 j) (j_seq j) (pin j) (res_get_blocked_start j) (need_write_time j) (write_delay_ms j) (bucket_journal_seq j) (block_bits j) (block_size j) (async_wait j) (log j).
Definition set_buf1 (x : journal_buf) (j : journal) : journal :=
  Build_journal (reservations j) (racing j) (lock j) (need_write j) (cur_entry_u64s j) (prev_buf_sectors j) (cur_buf_sectors j) (buf_size_want j) (buf0 j) x (j_seq j) (pin j) (res_get_blocked_start j) (need_write_time j) (write_delay_ms j) (bucket_journal_seq j) (block_bits j) (block_size j) (async_wait j) (log j).
Definition set_j_seq (x : Z) (j : journal) : journal :=
  Build_journal (reservations j) (racing j) (lock j) (need_write j) (cur_entry_u64s j) (prev_buf_sectors j) (cur_buf_sectors j) (buf_size_want j) (buf0 j) (buf1 j) x (pin j) (res_get_blocked_start j) (need_write_time j) (write_delay_ms j) (bucket_journal_seq j) (block_bits j) (block_size j) (async_wait j) (log j).
Definition set_pin (x : pin_fifo) (j : journal) : journal :=
  Build_journal (reservations j) (racing j) (lock j) (need_write j) (cur_entry_u64s j) (prev_buf_sectors j) (cur_buf_sectors j) (buf_size_want j) (buf0 j) (buf1 j) (j_seq j) x (res_get_blocked_start j) (need_write_time j) (write_delay_ms j) (bucket_journal_seq j) (block_bits j) (block_size j) (async_wait j) (log j).
Definition set_res_get_blocked_start (x : Z) (j : journal) : journal :=
  Build_journal (reservations j) (racing j) (lock j) (need_write j) (cur_entry_u64s j) (prev_buf_sectors j) (cur_buf_sectors j) (buf_size_want j) (buf0 j) (buf1 j) (j_seq j) (pin j) x (need_write_time j) (write_delay_ms j) (bucket_journal_seq j) (block_bits j) (block_size j) (async_wait j) (log j).
Definition set_need_write_time (x : Z) (j : journal) : journal :=
  Build_journal (reservations j) (racing j) (lock j) (need_write j) (cur_entry_u64s j) (prev_buf_sectors j) (cur_buf_sectors j) (buf_size_want j) (buf0 j) (buf1 j) (j_seq j) (pin j) (res_get_blocked_start j) x (write_delay_ms j) (bucket_journal_seq j) (block_bits j) (block_size j) (async_wait j) (log j).
Definition set_write_delay_ms (x : Z) (j : journal) : journal :=
  Build_journal (reservations j) (racing j) (lock j) (need_write j) (cur_entry_u64s j) (prev_buf_sectors j) (cur_buf_sectors j) (buf_size_want j) (buf0 j) (buf1 j) (j_seq j) (pin j) (res_get_blocked_start j) (need_write_time j) x (bucket_journal_seq j) (block_bits j) (block_size j) (async_wait j) (log j).
Definition set_bucket_journal_seq (x : Z) (j : journal) : journal :=
  Build_journal (reservations j) (racing j) (lock j) (need_write j) (cur_entry_u64s j) (prev_buf_sectors j) (cur_buf_sectors j) (buf_size_want j) (buf0 j) (buf1 j) (j_seq j) (pin j) (res_get_blocked_start j) (need_write_time j) (write_delay_ms j) x (block_bits j) (block_size j) (async_wait j) (log j).
Definition set_block_bits (x : Z) (j : journal) : journal :=
  Build_journal (reservations j) (racing j) (lock j) (need_write j) (cur_entry_u64s j) (prev_buf_sectors j) (cur_buf_sectors j) (buf_size_want j) (buf0 j) (buf1 j) (j_seq j) (pin j) (res_get_blocked_start j) (need_write_time j) (write_delay_ms j) (bucket_journal_seq j) x (block_size j) (async_wait j) (log j).
Definition set_block_size (x : Z) (j : journal) : journal :=
  Build_journal (reservations j) (racing j) (lock j) (need_write j) (cur_entry_u64s j) (prev_buf_sectors j) (cur_buf_sectors j) (buf_size_want j) (buf0 j) (buf1 j) (j_seq j) (pin j) (res_get_blocked_start j) (need_write_time j) (write_delay_ms j) (bucket_journal_seq j) (block_bits j) x (async_wait j) (log j).
Definition set_async_wait (x : list nat) (j : journal) : journal :=
  Build_journal (reservations j) (racing j) (lock j) (need_write j) (cur_entry_u64s j) (prev_buf_sectors j) (cur_buf_sectors j) (buf_size_want j) (buf0 j) (buf1 j) (j_seq j) (pin j) (res_get_blocked_start j) (need_write_time j) (write_delay_ms j) (bucket_journal_seq j) (block_bits j) (block_size j) x (log j).
Definition set_log (x : list event) (j : journal) : journal :=
  Build_journal (reservations j) (racing j) (lock j) (need_write j) (cur_entry_u64s j) (prev_buf_sectors j) (cur_buf_sectors j) (buf_size_want j) (buf0 j) (buf1 j) (j_seq j) (pin j) (res_get_blocked_start j) (need_write_time j) (write_delay_ms j) (bucket_journal_seq j) (block_bits j) (block_size j) (async_wait j) x.

(** ** Functions of other compilation units

    journal_io.c, journal_reclaim.c and the kernel library are outside the
    sources at hand; journal.c only calls into them.  They are parameters of
    the development: every theorem below holds whatever they compute. *)

Class journal_externs := {
  bch2_journal_entry_sectors : journal -> Z;      (* returns an int *)
  bch2_journal_reclaim_fast : journal -> journal;
  bch2_journal_reclaim_work : journal -> journal;
  bch2_journal_write : journal -> journal;
  journal_last_seq : journal -> Z;
  journal_seq_pin : journal -> Z -> nat;
  vstruct_blocks_plus : jset -> Z -> Z -> Z;
  local_clock : journal -> Z;
  hash_64 : Z -> Z -> Z;
  bch2_journal_entry_sectors_int :
    forall j, - 2 ^ 31 <= bch2_journal_entry_sectors j < 2 ^ 31
}.

(** ** The monad

    A journal function either returns a value in a new journal state, hits
    a [BUG()], writes through a null pointer, goes to sleep on a wait queue
    and is never woken, or (for [__journal_res_get], which jumps back to a
    label) exhausts the number of passes granted to it. *)

Inductive outcome (A : Type) :=
| Done (a : A) (j : journal)
| Bug
| Fault
| Parked (j : journal)
| Fuel.

Arguments Done {A} a j.
Arguments Bug {A}.
Arguments Fault {A}.
Arguments Parked {A} j.
Arguments Fuel {A}.

Definition M (A : Type) : Type := journal -> outcome A.

Definition ret {A} (a : A) : M A := fun j => Done a j.

Definition bind {A B} (c : M A) (k : A -> M B) : M B :=
  fun j =>
    match c j with
    | Done a j' => k a j'
    | Bug => Bug
    | Fault => Fault
    | Parked j' => Parked j'
    | Fuel => Fuel
    end.

Declare Scope journal_scope.
Delimit Scope journal_scope with journal.
Notation "x <- c ;; k" := (bind c (fun x => k))
  (at level 100, c at next level, right associativity) : journal_scope.
Notation "c ;; k" := (bind c (fun _ => k))
  (at level 100, right associativity) : journal_scope.
Local Open Scope journal_scope.

Definition get : M journal := fun j => Done j j.
Definition modify (f : journal -> journal) : M unit := fun j => Done tt (f j).
Definition bug {A} : M A := fun _ => Bug.
Definition fault {A} : M A := fun _ => Fault.
Definition BUG_ON (b : bool) : M unit := if b then bug else ret tt.
Definition when (b : bool) (c : M unit) : M unit := if b then c else ret tt.
Definition emit (e : event) : M unit := modify (fun j => set_log (e :: log j) j).

Definition spin_lock : M unit := modify (set_lock true).
Definition spin_unlock : M unit := modify (set_lock false).

(** ** Compare-and-exchange loops

    Every update of the reservation word has the shape
    [do { old.v = new.v = v; ...; } while ((v = cmpxchg(&word, old.v, new.v)) != old.v)].
    One pass over the loop body either leaves the function, proposes a new
    word, or hits a [BUG_ON]. *)

Inductive cas_step (R : Type) :=
| Leave (r : R)
| Store (new : journal_res_state)
| Crash.

Arguments Leave {R} r.
Arguments Store {R} new.
Arguments Crash {R}.

(** How the loop ends: it left with [r] having last read [v]; or the
    exchange went through, replacing [old] by [new]; or it crashed. *)
Inductive cas_result (R : Type) :=
| Returned (r : R) (v : journal_res_state) (rest : list journal_res_state)
| Swapped (old new : journal_res_state) (rest : list journal_res_state)
| Crashed.

Arguments Returned {R} r v rest.
Arguments Swapped {R} old new rest.
Arguments Crashed {R}.

Definition res_state_eqb (a b : journal_res_state) : bool :=
  (cur_entry_offset a =? cur_entry_offset b) &&
  Bool.eqb (idx a) (idx b) &&
  Bool.eqb (prev_buf_unwritten a) (prev_buf_unwritten b) &&
  (buf0_count a =? buf0_count b) &&
  (buf1_count a =? buf1_count b).

(** [v] is the word as read; the head of [racing], if any, is what the word
    holds by the time of the exchange.  The exchange succeeds when the word
    still equals [v]; otherwise the loop goes round with the value found. *)
Fixpoint cmpxchg_loop {R} (body : journal_res_state -> cas_step R)
    (racing : list journal_res_state) (v : journal_res_state) : cas_result R :=
  match body v with
  | Leave r => Returned r v racing
  | Crash => Crashed
  | Store new =>
      match racing with
      | [] => Swapped v new []
      | cur :: rest =>
          if res_state_eqb cur v then Swapped v new rest
          else cmpxchg_loop body rest cur
      end
  end.

Definition commit (v : journal_res_state) (rest : list journal_res_state) : M unit :=
  modify (fun j => set_racing rest (set_reservations v j)).

Section Journal.

Context {K : journal_consts} {X : journal_externs}.

(** ** Helpers of journal.h *)

(** Modelled from the spec: [journal_state_count] of journal.h is missing;
    the count of outstanding reservations on buffer [i]. *)
Definition journal_state_count (s : journal_res_state) (i : bool) : Z :=
  if i then buf1_count s else buf0_count s.

(** Modelled from the spec: [journal_state_inc] of journal.h is missing;
    one more reservation on the current buffer. *)
Definition journal_state_inc (s : journal_res_state) : journal_res_state :=
  if idx s then set_buf1_count (wrap COUNT_BITS (buf1_count s + 1)) s
  else set_buf0_count (wrap COUNT_BITS (buf0_count s + 1)) s.

(** [j->buf[i]], read and updated in place. *)
Definition buf_at (i : bool) (j : journal) : journal_buf :=
  if i then buf1 j else buf0 j.

Definition upd_buf (i : bool) (f : journal_buf -> journal_buf) (j : journal) : journal :=
  if i then set_buf1 (f (buf1 j)) j else set_buf0 (f (buf0 j)) j.

(** Modelled from the spec: [journal_cur_buf] and [journal_prev_buf] of
    journal.h are missing; [idx] selects the current buffer and the other
    one is the previous buffer. *)
Definition journal_cur_buf (j : journal) : journal_buf := buf_at (idx (reservations j)) j.
Definition journal_prev_buf (j : journal) : journal_buf := buf_at (negb (idx (reservations j))) j.

(** Modelled from the spec: [journal_cur_seq] of journal.h is missing;
    the sequence number of the newest entry, which is [j->seq]. *)
Definition journal_cur_seq (j : journal) : Z := j_seq j.

(** Modelled from the spec: [bch2_journal_error] of journal.h is missing;
    [-EIO] once the reservation word carries the ERROR sentinel, else 0. *)
Definition bch2_journal_error (j : journal) : Z :=
  if cur_entry_offset (reservations j) =? JOURNAL_ENTRY_ERROR_VAL then - EIO else 0.

(** Modelled from the spec: fifo.h is missing; the free slots of the pin
    fifo. *)
Definition fifo_free (f : pin_fifo) : Z := fifo_size f - Z.of_nat (length (fifo_data f)).

(** Modelled from the spec: fifo.h is missing; [fifo_push_ref] hands out
    the next slot at the back of the fifo, or no slot (a null pointer,
    here [false]) when the fifo is full.  [p] is what the caller writes
    into the slot it was given. *)
Definition fifo_push_ref (p : journal_entry_pin_list) : M bool :=
  j <- get ;;
  if fifo_free (pin j) <=? 0 then ret false
  else
    modify (set_pin {| fifo_size := fifo_size (pin j);
                       fifo_data := fifo_data (pin j) ++ [p] |}) ;;
    ret true.

(** Modelled from the spec: closure.h is missing; waking a wait list
    notifies every closure on it once and empties it. *)
Definition closure_wake_up_buf (i : bool) : M unit :=
  j <- get ;;
  emit (closure_wake_up (wait (buf_at i j))) ;;
  modify (upd_buf i (set_wait [])).

(** Modelled from the spec: closure.h is missing; a closure already parked
    somewhere is refused, otherwise it is queued on the buffer. *)
Definition closure_wait_buf (i : bool) (cl : closure) : M bool :=
  if cl_waiting cl then ret false
  else modify (upd_buf i (fun b => set_wait (cl_id cl :: wait b) b)) ;; ret true.

(** The same on [j->async_wait]. *)
Definition closure_wait_async (cl : closure) : M bool :=
  if cl_waiting cl then ret false
  else modify (fun j => set_async_wait (cl_id cl :: async_wait j) j) ;; ret true.

(** Modelled from the spec: [atomic_dec_bug] is missing; the count of
    slot [n] of the pin fifo drops by one, and a count that goes below
    zero is a programmer bug. *)
Definition atomic_dec_bug (n : nat) : M unit :=
  j <- get ;;
  match nth_error (fifo_data (pin j)) n with
  | None => bug
  | Some p =>
      let c := swrap 32 (pin_count p - 1) in
      modify (set_pin {| fifo_size := fifo_size (pin j);
                         fifo_data := firstn n (fifo_data (pin j)) ++
                           {| pin_count := c; pin_list := pin_list p;
                              pin_flushed := pin_flushed p; pin_devs_nr := pin_devs_nr p |}
                           :: skipn (S n) (fifo_data (pin j)) |}) ;;
      BUG_ON (c <? 0)
  end.

(** ** journal.c *)

Definition journal_entry_is_open (j : journal) : bool :=
  cur_entry_offset (reservations j) <? JOURNAL_ENTRY_CLOSED_VAL.

Definition bch2_journal_buf_put_slowpath (need_write_just_set : bool) : M unit :=
  j <- get ;;
  let w := journal_prev_buf j in
  atomic_dec_bug (journal_seq_pin j (jset_seq (data w))) ;;
  j <- get ;;
  when (negb need_write_just_set && need_write j)
    (emit (bch2_time_stats_update delay_time (need_write_time j))) ;;
  modify bch2_journal_write.

(** The function does not test the pointer [fifo_push_ref] returns: on a
    full fifo its four stores go through a null pointer. *)
Definition journal_pin_new_entry (count : Z) : M unit :=
  modify (fun j => set_j_seq (u64 (j_seq j + 1)) j) ;;
  p <- fifo_push_ref {| pin_count := count; pin_list := []; pin_flushed := [];
                        pin_devs_nr := 0 |} ;;
  if p then ret tt else fault.

Definition bch2_journal_buf_init : M unit :=
  j <- get ;;
  modify (upd_buf (idx (reservations j)) (fun buf =>
    set_data {| jset_seq := journal_cur_seq j; jset_last_seq := 0; jset_u64s := 0 |}
      (set_has_inode 0 buf))).

Definition journal_entry_u64s_reserve : Z :=
  BTREE_ID_NR * (JSET_KEYS_U64s + BKEY_EXTENT_U64s_MAX).

(** Modelled from the spec: [bch2_journal_buf_put] of journal.h is missing;
    it drops one reservation of buffer [i], and the drop that empties a
    closed buffer dispatches its write. *)
Definition bch2_journal_buf_put (i : bool) (need_write_just_set : bool) : M unit :=
  modify (fun j =>
    let s := reservations j in
    set_reservations
      (if i then set_buf1_count (wrap COUNT_BITS (buf1_count s - 1)) s
       else set_buf0_count (wrap COUNT_BITS (buf0_count s - 1)) s) j) ;;
  j <- get ;;
  let s := reservations j in
  when (negb (Bool.eqb (idx s) i) && (journal_state_count s i =? 0))
    (bch2_journal_buf_put_slowpath need_write_just_set).

Inductive buf_switch_ret :=
| JOURNAL_ENTRY_ERROR
| JOURNAL_ENTRY_INUSE
| JOURNAL_ENTRY_CLOSED
| JOURNAL_UNLOCKED.

(** The body of the loop of [journal_buf_switch]. *)
Definition journal_buf_switch_body (old : journal_res_state) : cas_step buf_switch_ret :=
  if cur_entry_offset old =? JOURNAL_ENTRY_CLOSED_VAL then Leave JOURNAL_ENTRY_CLOSED
  else if cur_entry_offset old =? JOURNAL_ENTRY_ERROR_VAL then Leave JOURNAL_ENTRY_ERROR
  else if prev_buf_unwritten old then Leave JOURNAL_ENTRY_INUSE
  else
    let new := journal_state_inc old in
    let new := set_cur_entry_offset (wrap OFFSET_BITS JOURNAL_ENTRY_CLOSED_VAL) new in
    let new := set_idx (negb (idx new)) new in
    let new := set_prev_buf_unwritten true new in
    if negb (journal_state_count new (idx new) =? 0) then Crash
    else Store new.

Definition journal_buf_switch (need_write_just_set : bool) : M buf_switch_ret :=
  j <- get ;;
  match cmpxchg_loop journal_buf_switch_body (racing j) (reservations j) with
  | Crashed => bug
  | Returned r v rest => commit v rest ;; ret r
  | Swapped old new rest =>
      commit new rest ;;
      modify (set_need_write false) ;;
      modify (upd_buf (idx old) (fun buf =>
        set_data (set_jset_u64s (u32 (cur_entry_offset old)) (data buf)) buf)) ;;
      j <- get ;;
      modify (set_prev_buf_sectors
        (u32 (vstruct_blocks_plus (data (buf_at (idx old) j)) (block_bits j)
                journal_entry_u64s_reserve * block_size j))) ;;
      j <- get ;;
      BUG_ON (cur_buf_sectors j <? prev_buf_sectors j) ;;
      modify bch2_journal_reclaim_fast ;;
      j <- get ;;
      modify (upd_buf (idx old) (fun buf =>
        set_data (set_jset_last_seq (journal_last_seq j) (data buf)) buf)) ;;
      journal_pin_new_entry 1 ;;
      bch2_journal_buf_init ;;
      emit cancel_delayed_work ;;
      spin_unlock ;;
      j <- get ;;
      when (2 ^ 14 <? bucket_journal_seq j)
        (modify (set_bucket_journal_seq 0) ;; emit bch2_bucket_seq_cleanup) ;;
      modify (fun j => set_bucket_journal_seq (bucket_journal_seq j + 1) j) ;;
      bch2_journal_buf_put (idx old) need_write_just_set ;;
      ret JOURNAL_UNLOCKED
  end.

(** The body of the loop of [bch2_journal_halt]. *)
Definition bch2_journal_halt_body (old : journal_res_state) : cas_step unit :=
  if cur_entry_offset old =? JOURNAL_ENTRY_ERROR_VAL then Leave tt
  else Store (set_cur_entry_offset (wrap OFFSET_BITS JOURNAL_ENTRY_ERROR_VAL) old).

Definition bch2_journal_halt : M unit :=
  j <- get ;;
  match cmpxchg_loop bch2_journal_halt_body (racing j) (reservations j) with
  | Crashed => bug
  | Returned _ v rest => commit v rest
  | Swapped old new rest =>
      commit new rest ;;
      emit journal_wake ;;
      j <- get ;;
      closure_wake_up_buf (idx (reservations j)) ;;
      j <- get ;;
      closure_wake_up_buf (negb (idx (reservations j)))
  end.

(** The number of u64s [journal_entry_open] offers for the entry, from the
    sector count [sectors] granted by the devices and the size of the
    buffer in bytes (the arithmetic between the two [BUG_ON]s of the
    function). *)
Definition entry_open_sectors (sectors buf_size : Z) : Z :=
  s32 (Z.min (u32 sectors) (Z.shiftr buf_size 9)).

Definition entry_open_u64s (sectors buf_size : Z) : Z :=
  let sectors := entry_open_sectors sectors buf_size in
  let u64s := s64 (u64 (s32 (Z.shiftl sectors 9)) / 8) in
  let u64s := s64 (u64s - sizeof_jset / 8) in
  let u64s := s64 (u64s - journal_entry_u64s_reserve) in
  Z.max 0 u64s.

(** The body of the loop of [journal_entry_open]; [u64s] is the number of
    u64s already in the buffer. *)
Definition journal_entry_open_body (u64s : Z) (old : journal_res_state) : cas_step Z :=
  if cur_entry_offset old =? JOURNAL_ENTRY_ERROR_VAL then Leave (- EIO)
  else Store (set_cur_entry_offset (wrap OFFSET_BITS u64s) old).

Definition journal_entry_open : M Z :=
  j <- get ;;
  let b := idx (reservations j) in
  BUG_ON (journal_entry_is_open j) ;;
  if fifo_free (pin j) =? 0 then ret 0
  else
    let sectors := bch2_journal_entry_sectors j in
    if sectors <=? 0 then ret sectors
    else
      modify (upd_buf b (set_disk_sectors (u32 sectors))) ;;
      j <- get ;;
      let buf := buf_at b j in
      modify (set_cur_buf_sectors (u32 (entry_open_sectors sectors (size buf)))) ;;
      let u64s := entry_open_u64s sectors (size buf) in
      BUG_ON (JOURNAL_ENTRY_CLOSED_VAL <=? u64s) ;;
      if u64s <=? jset_u64s (data buf) then ret 0
      else
        modify (set_cur_entry_u64s (u32 u64s)) ;;
        j <- get ;;
        match cmpxchg_loop (journal_entry_open_body (jset_u64s (data buf)))
                (racing j) (reservations j) with
        | Crashed => bug
        | Returned r v rest => commit v rest ;; ret r
        | Swapped old new rest =>
            commit new rest ;;
            j <- get ;;
            when (negb (res_get_blocked_start j =? 0))
              (emit (bch2_time_stats_update blocked_time (res_get_blocked_start j))) ;;
            modify (set_res_get_blocked_start 0) ;;
            j <- get ;;
            emit (mod_delayed_work (write_delay_ms j)) ;;
            emit journal_wake ;;
            ret 1
        end.


(** *** Reservations *)

(** Modelled from the spec: [journal_res_get_fast] of journal.h is missing;
    the fast path succeeds if [cur_entry_offset + u64s_min <= cur_entry_u64s],
    the state is open and the word is neither CLOSED nor ERROR; it then
    takes one reservation and advances the offset by
    [min(u64s_max, cur_entry_u64s - cur_entry_offset)]. *)
Definition journal_res_get_fast_body (entry_u64s u64s_min u64s_max : Z)
    (old : journal_res_state) : cas_step unit :=
  if (cur_entry_offset old + u64s_min <=? entry_u64s) &&
     (cur_entry_offset old <? JOURNAL_ENTRY_CLOSED_VAL) &&
     negb (cur_entry_offset old =? JOURNAL_ENTRY_CLOSED_VAL) &&
     negb (cur_entry_offset old =? JOURNAL_ENTRY_ERROR_VAL)
  then Store (journal_state_inc
         (set_cur_entry_offset
            (wrap OFFSET_BITS (cur_entry_offset old +
                               Z.min u64s_max (entry_u64s - cur_entry_offset old))) old))
  else Leave tt.

(** Modelled from the spec: the ticket of a successful fast path carries
    the current sequence number, the offset before the advance, the u64s
    granted and the buffer index. *)
Definition journal_res_get_fast (u64s_min u64s_max : Z) : M (option journal_res) :=
  j <- get ;;
  match cmpxchg_loop (journal_res_get_fast_body (cur_entry_u64s j) u64s_min u64s_max)
          (racing j) (reservations j) with
  | Crashed => bug
  | Returned _ v rest => commit v rest ;; ret None
  | Swapped old new rest =>
      commit new rest ;;
      ret (Some {| res_ref := true;
                   res_idx := idx new;
                   res_u64s := Z.min u64s_max (cur_entry_u64s j - cur_entry_offset old);
                   res_offset := cur_entry_offset old;
                   res_seq := journal_cur_seq j |})
  end.

(** The label [blocked:] of [__journal_res_get]. *)
Definition res_get_blocked : M (Z * option journal_res) :=
  j <- get ;;
  when (res_get_blocked_start j =? 0)
    (modify (set_res_get_blocked_start
               (if local_clock j =? 0 then 1 else local_clock j))) ;;
  ret (0, None).

(** [__journal_res_get]; every jump to [retry:] spends one unit of [fuel].
    The result pairs the return value with the ticket written to [res]. *)
Fixpoint __journal_res_get (fuel : nat) (u64s_min u64s_max : Z) : M (Z * option journal_res) :=
  match fuel with
  | O => fun _ => Fuel
  | S fuel =>
      r <- journal_res_get_fast u64s_min u64s_max ;;
      match r with
      | Some t => ret (1, Some t)
      | None =>
          spin_lock ;;
          r <- journal_res_get_fast u64s_min u64s_max ;;
          match r with
          | Some t => spin_unlock ;; ret (1, Some t)
          | None =>
              j <- get ;;
              let buf := journal_cur_buf j in
              when (journal_entry_is_open j &&
                    (Z.shiftr (size buf) 9 <? disk_sectors buf) &&
                    (size buf <? JOURNAL_ENTRY_SIZE_MAX))
                (modify (set_buf_size_want
                           (Z.max (buf_size_want j) (u32 (Z.shiftl (size buf) 1))))) ;;
              sw <- journal_buf_switch false ;;
              match sw with
              | JOURNAL_ENTRY_ERROR =>
                  spin_unlock ;; ret (- EROFS, None)
              | JOURNAL_ENTRY_INUSE =>
                  spin_unlock ;; emit trace_journal_entry_full ;; res_get_blocked
              | JOURNAL_ENTRY_CLOSED =>
                  r <- journal_entry_open ;;
                  spin_unlock ;;
                  if r <? 0 then ret (r, None)
                  else if negb (r =? 0) then __journal_res_get fuel u64s_min u64s_max
                  else
                    modify bch2_journal_reclaim_work ;;
                    emit trace_journal_full ;;
                    res_get_blocked
              | JOURNAL_UNLOCKED => __journal_res_get fuel u64s_min u64s_max
              end
          end
      end
  end.

(** [wait_event(wq, cond)]: evaluate [cond]; while it is false, sleep until
    the next wake-up.  [ws] lists, for each sleep, what the other threads
    did to the journal before they woke this one; with no wake-up left the
    thread stays parked. *)
Fixpoint wait_event {A} (cond : M A) (truth : A -> bool)
    (ws : list (journal -> journal)) : M A :=
  fun j =>
    match cond j with
    | Done a j' =>
        if truth a then Done a j'
        else match ws with
             | [] => Parked j'
             | w :: ws' => wait_event cond truth ws' (w j')
             end
    | Bug => Bug
    | Fault => Fault
    | Parked j' => Parked j'
    | Fuel => Fuel
    end.

Definition bch2_journal_res_get_slowpath (fuel : nat) (u64s_min u64s_max : Z)
    (ws : list (journal -> journal)) : M (Z * option journal_res) :=
  r <- wait_event (__journal_res_get fuel u64s_min u64s_max)
         (fun r => negb (fst r =? 0)) ws ;;
  ret (if fst r <? 0 then fst r else 0, snd r).

(** Modelled from the spec: [bch2_journal_res_get] of journal.h is missing;
    the fast path first, the slow path when it fails; 0 with a ticket on
    success and a negative error otherwise. *)
Definition bch2_journal_res_get (fuel : nat) (u64s_min u64s_max : Z)
    (ws : list (journal -> journal)) : M (Z * option journal_res) :=
  r <- journal_res_get_fast u64s_min u64s_max ;;
  match r with
  | Some t => ret (0, Some t)
  | None => bch2_journal_res_get_slowpath fuel u64s_min u64s_max ws
  end.

Definition bch2_journal_open_seq_async (seq : Z) (parent : closure) : M Z :=
  spin_lock ;;
  j <- get ;;
  BUG_ON (journal_cur_seq j <? seq) ;;
  if (seq <? journal_cur_seq j) || journal_entry_is_open j then
    spin_unlock ;; ret 1
  else
    r <- journal_entry_open ;;
    when (r =? 0) (ok <- closure_wait_async parent ;; ret tt) ;;
    spin_unlock ;;
    when (r =? 0) (modify bch2_journal_reclaim_work) ;;
    ret r.

(** *** Inode lookup *)

Definition bch2_inode_journal_seq (inode : Z) : M Z :=
  j <- get ;;
  let h := hash_64 inode (Z.log2 (sizeof_has_inode * 8)) in
  if negb (test_bit h (has_inode (buf0 j))) &&
     negb (test_bit h (has_inode (buf1 j)))
  then ret 0
  else
    spin_lock ;;
    j <- get ;;
    let seq :=
      if test_bit h (has_inode (journal_cur_buf j)) then journal_cur_seq j
      else if test_bit h (has_inode (journal_prev_buf j)) then u64 (journal_cur_seq j - 1)
      else 0 in
    spin_unlock ;;
    ret seq.

(** *** Durability waiters *)

(** [test_and_set_bit(JOURNAL_NEED_WRITE, &j->flags)]. *)
Definition test_and_set_need_write : M bool :=
  j <- get ;;
  modify (set_need_write true) ;;
  ret (need_write j).

(** The lines before the [switch] of the flush functions: set NEED_WRITE
    and, if it was clear, remember when it was set. *)
Definition mark_need_write : M bool :=
  was <- test_and_set_need_write ;;
  j <- get ;;
  when (negb was) (modify (set_need_write_time (local_clock j))) ;;
  ret (negb was).

Definition bch2_journal_flush_seq_async (seq : Z) (parent : option closure) : M unit :=
  spin_lock ;;
  j <- get ;;
  BUG_ON (journal_cur_seq j <? seq) ;;
  if negb (bch2_journal_error j =? 0) then spin_unlock
  else if seq =? journal_cur_seq j then
    let b := idx (reservations j) in
    match parent with
    | Some cl => (ok <- closure_wait_buf b cl ;; BUG_ON (negb ok))
    | None => ret tt
    end ;;
    set_need_write <- mark_need_write ;;
    sw <- journal_buf_switch set_need_write ;;
    match sw with
    | JOURNAL_ENTRY_ERROR =>
        match parent with
        | Some _ => closure_wake_up_buf b
        | None => ret tt
        end ;;
        spin_unlock
    | JOURNAL_ENTRY_CLOSED => bug
    | JOURNAL_ENTRY_INUSE => spin_unlock
    | JOURNAL_UNLOCKED => ret tt
    end
  else
    match parent with
    | Some cl =>
        if (u64 (seq + 1) =? journal_cur_seq j) && prev_buf_unwritten (reservations j) then
          let b := negb (idx (reservations j)) in
          ok <- closure_wait_buf b cl ;;
          BUG_ON (negb ok) ;;
          j <- get ;;
          when (negb (prev_buf_unwritten (reservations j)) ||
                negb (bch2_journal_error j =? 0))
            (closure_wake_up_buf b) ;;
          spin_unlock
        else spin_unlock
    | None => spin_unlock
    end.

Definition journal_seq_flushed (seq : Z) : M Z :=
  spin_lock ;;
  j <- get ;;
  BUG_ON (journal_cur_seq j <? seq) ;;
  if seq =? journal_cur_seq j then
    set_need_write <- mark_need_write ;;
    sw <- journal_buf_switch set_need_write ;;
    match sw with
    | JOURNAL_ENTRY_ERROR => spin_unlock ;; ret (- EIO)
    | JOURNAL_ENTRY_CLOSED => bug
    | JOURNAL_ENTRY_INUSE => spin_unlock ;; ret 0
    | JOURNAL_UNLOCKED => ret 0
    end
  else if (u64 (seq + 1) =? journal_cur_seq j) && prev_buf_unwritten (reservations j) then
    spin_unlock ;; ret (bch2_journal_error j)
  else
    spin_unlock ;; ret 1.

(** What ends a killable sleep: a wake-up after the other threads changed
    the journal, or a fatal signal. *)
Inductive wakeup :=
| Woken (f : journal -> journal)
| Killed.

(** [wait_event_killable(wq, cond)]: as [wait_event], but a fatal signal
    ends the wait with [-ERESTARTSYS].  The result pairs the value of the
    macro with the last value of [cond]. *)
Fixpoint wait_event_killable {A} (cond : M A) (truth : A -> bool)
    (ws : list wakeup) : M (Z * A) :=
  fun j =>
    match cond j with
    | Done a j' =>
        if truth a then Done (0, a) j'
        else match ws with
             | [] => Parked j'
             | Woken f :: ws' => wait_event_killable cond truth ws' (f j')
             | Killed :: _ => Done (- ERESTARTSYS, a) j'
             end
    | Bug => Bug
    | Fault => Fault
    | Parked j' => Parked j'
    | Fuel => Fuel
    end.

Definition bch2_journal_flush_seq (seq : Z) (ws : list wakeup) : M Z :=
  j <- get ;;
  let start_time := local_clock j in
  r <- wait_event_killable (journal_seq_flushed seq) (fun r => negb (r =? 0)) ws ;;
  emit (bch2_time_stats_update flush_seq_time start_time) ;;
  ret (if negb (fst r =? 0) then fst r
       else if snd r <? 0 then snd r else 0).

Definition bch2_journal_flush_async (parent : option closure) : M unit :=
  spin_lock ;;
  j <- get ;;
  let journal_seq := journal_cur_seq j in
  if journal_entry_is_open j then
    spin_unlock ;; bch2_journal_flush_seq_async journal_seq parent
  else if negb (journal_seq =? 0) then
    spin_unlock ;; bch2_journal_flush_seq_async (u64 (journal_seq - 1)) parent
  else
    spin_unlock.

Definition bch2_journal_flush (ws : list wakeup) : M Z :=
  spin_lock ;;
  j <- get ;;
  let journal_seq := journal_cur_seq j in
  if journal_entry_is_open j then
    spin_unlock ;; bch2_journal_flush_seq journal_seq ws
  else if negb (journal_seq =? 0) then
    spin_unlock ;; bch2_journal_flush_seq (u64 (journal_seq - 1)) ws
  else
    spin_unlock ;; ret 0.

End Journal.

(** ** The per-device bucket ring *)

(** [struct journal_device]: [buckets] and [bucket_seq] are the two
    allocated arrays in full, of which the first [nr] entries are the ring. *)
Record journal_device := {
  buckets : list Z;
  bucket_seq : list Z;
  cur_idx : Z;
  last_idx : Z;
  nr : Z
}.

(** What [__bch2_set_nr_journal_buckets] reaches of [struct bch_dev]: the
    journal ring [ja], the bucket array of the superblock's journal field,
    the buckets handed to [bch2_mark_metadata_bucket] (newest first), and
    the number of superblock writes issued. *)
Record bch_dev := {
  ja : journal_device;
  sb_buckets : list Z;
  marked : list Z;
  super_writes : Z
}.

(** What the rest of the kernel answers during one call: whether the two
    [kzalloc]s and [bch2_sb_resize_journal] succeed, and, call after call,
    what the bucket allocator returns: the bucket from
    [bch2_bucket_alloc_new_fs], or the bucket of the open bucket from
    [bch2_bucket_alloc]; a negative value is a failure, and so is an
    allocator with nothing left to return. *)
Record alloc_env := {
  kzalloc_ok : bool;
  sb_resize_ok : bool;
  free_buckets : list Z
}.

(** [a[i] = v]. *)
Definition array_set (i : Z) (v : Z) (a : list Z) : list Z :=
  if (0 <=? i) && (i <? Z.of_nat (length a))
  then firstn (Z.to_nat i) a ++ v :: skipn (S (Z.to_nat i)) a
  else a.

(** Modelled from the spec: [__array_insert_item] of util.h is missing; it
    makes room at [pos] in an array holding [n] items by moving the items
    from [pos] on one slot up ([memmove(&a[pos + 1], &a[pos], (n - pos) * sizeof(a[0]))]). *)
Definition array_insert_item (a : list Z) (n pos : Z) : list Z :=
  firstn (S (Z.to_nat pos)) a ++
  firstn (Z.to_nat (n - pos)) (skipn (Z.to_nat pos) a) ++
  skipn (S (Z.to_nat n)) a.

(** [kzalloc(n * sizeof(u64))] followed by [memcpy] of the first [old_n]
    items of [old]. *)
Definition grown_array (n old_n : Z) (old : list Z) : list Z :=
  firstn (Z.to_nat old_n) old ++ repeat 0 (Z.to_nat n - Z.to_nat old_n).

(** The block of the loop of [__bch2_set_nr_journal_buckets] that runs
    under the journal lock: place [bucket] in the ring. *)
Definition journal_bucket_insert (bucket : Z) (ca : bch_dev) : bch_dev :=
  let d := ja ca in
  let inside := last_idx d <? nr d in
  {| ja := {| buckets := array_set (last_idx d) (u64 bucket)
                           (array_insert_item (buckets d) (nr d) (last_idx d));
              bucket_seq := array_set (last_idx d) 0
                           (array_insert_item (bucket_seq d) (nr d) (last_idx d));
              cur_idx := if inside && (last_idx d <=? cur_idx d)
                         then u32 (cur_idx d + 1) else cur_idx d;
              last_idx := if inside then u32 (last_idx d + 1) else last_idx d;
              nr := u32 (nr d + 1) |};
     sb_buckets := array_set (last_idx d) (u64 bucket)
                     (array_insert_item (sb_buckets ca) (nr d) (last_idx d));
     marked := marked ca;
     super_writes := super_writes ca |}.

Definition bch2_mark_metadata_bucket (bucket : Z) (ca : bch_dev) : bch_dev :=
  {| ja := ja ca; sb_buckets := sb_buckets ca;
     marked := bucket :: marked ca; super_writes := super_writes ca |}.

(** The [while (ja->nr < nr)] loop; it runs at most [fuel] times, and
    [__bch2_set_nr_journal_buckets] grants it the [nr - ja->nr] passes it
    can need. *)
Fixpoint alloc_journal_buckets (fuel : nat) (nr_want : Z) (new_fs cl : bool)
    (free : list Z) (ca : bch_dev) : Z * bch_dev :=
  match fuel with
  | O => (0, ca)
  | S fuel =>
      if nr (ja ca) <? nr_want then
        let err := if new_fs then - ENOSPC else if cl then - EAGAIN else - ENOSPC in
        match free with
        | [] => (err, ca)
        | bucket :: free =>
            if bucket <? 0 then (err, ca)
            else alloc_journal_buckets fuel nr_want new_fs cl free
                   (bch2_mark_metadata_bucket bucket (journal_bucket_insert bucket ca))
        end
      else (0, ca)
  end.

Definition __bch2_set_nr_journal_buckets (ca : bch_dev) (nr_want : Z)
    (new_fs cl : bool) (env : alloc_env) : Z * bch_dev :=
  let d := ja ca in
  if nr_want <=? nr d then (0, ca)
  else if negb (kzalloc_ok env) then (- ENOMEM, ca)
  else if negb (sb_resize_ok env) then (- ENOMEM, ca)
  else
    alloc_journal_buckets (Z.to_nat (nr_want - nr d)) nr_want new_fs cl (free_buckets env)
      {| ja := {| buckets := grown_array nr_want (nr d) (buckets d);
                  bucket_seq := grown_array nr_want (nr d) (bucket_seq d);
                  cur_idx := cur_idx d; last_idx := last_idx d; nr := nr d |};
         sb_buckets := grown_array nr_want (nr d) (sb_buckets ca);
         marked := marked ca;
         super_writes := super_writes ca |}.

(** [bch2_set_nr_journal_buckets]: each pass of its loop asks for a disk
    reservation and calls the function above; [attempts] gives, pass by
    pass, whether the reservation is granted and what the allocator
    answers.  [None]: the function is still waiting for the allocator. *)
Fixpoint bch2_set_nr_journal_buckets (attempts : list (bool * alloc_env))
    (ca : bch_dev) (nr_want : Z) : option (Z * bch_dev) :=
  match attempts with
  | [] => None
  | (granted, env) :: attempts =>
      let current_nr := nr (ja ca) in
      if negb granted then Some (- ENOSPC, ca)
      else
        let '(r, ca') := __bch2_set_nr_journal_buckets ca nr_want false true env in
        let ca' := if nr (ja ca') =? current_nr then ca'
                   else {| ja := ja ca'; sb_buckets := sb_buckets ca';
                           marked := marked ca'; super_writes := super_writes ca' + 1 |} in
        if r =? - EAGAIN then bch2_set_nr_journal_buckets attempts ca' nr_want
        else Some (r, ca')
  end.

(** [clamp_t(unsigned, val, lo, hi)]. *)
Definition clamp_unsigned (val lo hi : Z) : Z :=
  Z.min (Z.max (u32 val) (u32 lo)) (u32 hi).

(** [bch2_dev_journal_alloc], the first allocation for a device of
    [nbuckets] buckets of [bucket_size] sectors.  BCH_JOURNAL_BUCKETS_MIN,
    a constant of a header that is not among the sources, is an argument;
    [fault] is what [dynamic_fault] answers. *)
Definition bch2_dev_journal_alloc (BCH_JOURNAL_BUCKETS_MIN nbuckets bucket_size : Z)
    (fault : bool) (ca : bch_dev) (env : alloc_env) : Z * bch_dev :=
  if fault then (- ENOMEM, ca)
  else
    let nr_want := clamp_unsigned (Z.shiftr nbuckets 8) BCH_JOURNAL_BUCKETS_MIN
                     (Z.min (2 ^ 10) (Z.quot (2 ^ 20) bucket_size)) in
    __bch2_set_nr_journal_buckets ca nr_want true false env.

(** The ring proper: the first [nr] entries of the two arrays. *)
Definition ring_buckets (d : journal_device) : list Z :=
  firstn (Z.to_nat (nr d)) (buckets d).

Definition ring_bucket_seq (d : journal_device) : list Z :=
  firstn (Z.to_nat (nr d)) (bucket_seq d).

(** ** Runs of the operations that write the reservation word *)

Inductive atom_op :=
| op_buf_switch (need_write_just_set : bool)
| op_entry_open
| op_halt.

Section Runs.

Context {K : journal_consts} {X : journal_externs}.

Definition run_op (o : atom_op) : M unit :=
  match o with
  | op_buf_switch b => (_ <- journal_buf_switch b ;; ret tt)
  | op_entry_open => (_ <- journal_entry_open ;; ret tt)
  | op_halt => bch2_journal_halt
  end.

Fixpoint run_ops (ops : list atom_op) : M unit :=
  match ops with
  | [] => ret tt
  | o :: ops => (run_op o ;; run_ops ops)
  end.

(** A series of reservation requests, each with its own allowance of
    passes, sizes and wake-ups; the return values are collected in order. *)
Fixpoint res_get_calls (calls : list (nat * Z * Z * list (journal -> journal)))
    : M (list Z) :=
  match calls with
  | [] => ret []
  | (fuel, u64s_min, u64s_max, ws) :: calls =>
      (r <- bch2_journal_res_get (S fuel) u64s_min u64s_max ws ;;
       rs <- res_get_calls calls ;;
       ret (fst r :: rs))
  end.

End Runs.

(** ** The rest of journal.c *)

Section JournalRest.

Context {K : journal_consts} {X : journal_externs}.

(** [journal_flush_write]: true if there is nothing to flush and no
    journal write still in flight. *)
Definition journal_flush_write : M bool :=
  spin_lock ;;
  j <- get ;;
  let r := negb (prev_buf_unwritten (reservations j)) in
  if negb (journal_entry_is_open j) then
    spin_unlock ;; ret r
  else
    modify (set_need_write true) ;;
    sw <- journal_buf_switch false ;;
    match sw with
    | JOURNAL_UNLOCKED => ret false
    | _ => spin_unlock ;; ret r
    end.

Definition journal_write_work : M unit :=
  _ <- journal_flush_write ;; ret tt.

Definition bch2_journal_last_unwritten_seq : M Z :=
  spin_lock ;;
  j <- get ;;
  let seq := journal_cur_seq j in
  let seq := if prev_buf_unwritten (reservations j) then u64 (seq - 1) else seq in
  spin_unlock ;;
  ret seq.

Definition bch2_journal_wait_on_seq (seq : Z) (parent : closure) : M unit :=
  spin_lock ;;
  j <- get ;;
  BUG_ON (journal_cur_seq j <? seq) ;;
  if negb (bch2_journal_error j =? 0) then spin_unlock
  else if seq =? journal_cur_seq j then
    ok <- closure_wait_buf (idx (reservations j)) parent ;;
    BUG_ON (negb ok) ;;
    spin_unlock
  else if (u64 (seq + 1) =? journal_cur_seq j) && prev_buf_unwritten (reservations j) then
    let b := negb (idx (reservations j)) in
    ok <- closure_wait_buf b parent ;;
    BUG_ON (negb ok) ;;
    j <- get ;;
    when (negb (prev_buf_unwritten (reservations j)) ||
          negb (bch2_journal_error j =? 0))
      (closure_wake_up_buf b) ;;
    spin_unlock
  else spin_unlock.

End JournalRest.

(** ** Setting up a device's ring *)

(** The loop [for (i = 0; i < ja->nr; i++) ja->buckets[i] = le64_to_cpu(journal_buckets->buckets[i])],
    with [n] passes left and [i] the index of the next one. *)
Fixpoint copy_journal_buckets (n : nat) (i : Z) (sb : list Z) (a : list Z) : list Z :=
  match n with
  | O => a
  | S n => copy_journal_buckets n (i + 1) sb (array_set i (nth (Z.to_nat i) sb 0) a)
  end.

(** Modelled from the spec: [bch2_nr_journal_buckets] of super-io.h is
    missing; the number of buckets listed in the superblock's journal
    field. *)
Definition bch2_nr_journal_buckets (sb : list Z) : Z := Z.of_nat (length sb).

(** [bch2_dev_journal_init]; [sb] is the bucket list of the journal field
    of the superblock handed in, and the three booleans say whether the
    allocation of bucket_seq, of the bio and of buckets succeeds.  A failed
    [kcalloc] leaves a null array, here the empty list. *)
Definition bch2_dev_journal_init (bucket_seq_ok bio_ok buckets_ok : bool)
    (sb : list Z) (ca : bch_dev) : Z * bch_dev :=
  let d := ja ca in
  let n := u32 (bch2_nr_journal_buckets sb) in
  let with_ja (d' : journal_device) :=
    {| ja := d'; sb_buckets := sb_buckets ca; marked := marked ca;
       super_writes := super_writes ca |} in
  if negb bucket_seq_ok then
    (- ENOMEM, with_ja {| buckets := buckets d; bucket_seq := [];
                          cur_idx := cur_idx d; last_idx := last_idx d; nr := n |})
  else
    let seqs := repeat 0 (Z.to_nat n) in
    if negb bio_ok then
      (- ENOMEM, with_ja {| buckets := buckets d; bucket_seq := seqs;
                            cur_idx := cur_idx d; last_idx := last_idx d; nr := n |})
    else if negb buckets_ok then
      (- ENOMEM, with_ja {| buckets := []; bucket_seq := seqs;
                            cur_idx := cur_idx d; last_idx := last_idx d; nr := n |})
    else
      (0, with_ja {| buckets := copy_journal_buckets (Z.to_nat n) 0 sb
                                  (repeat 0 (Z.to_nat n));
                     bucket_seq := seqs;
                     cur_idx := cur_idx d; last_idx := last_idx d; nr := n |}).

(** [bch2_dev_journal_exit]: the two arrays are freed and their pointers
    cleared; [nr] is left alone. *)
Definition bch2_dev_journal_exit (ca : bch_dev) : bch_dev :=
  {| ja := {| buckets := []; bucket_seq := [];
              cur_idx := cur_idx (ja ca); last_idx := last_idx (ja ca);
              nr := nr (ja ca) |};
     sb_buckets := sb_buckets ca; marked := marked ca;
     super_writes := super_writes ca |}.

(** ** Frames *)

(** A computation that, when it returns, leaves the reservation word as
    it found it. *)
Definition keeps_word {A} (c : M A) : Prop :=
  forall j a j', c j = Done a j' -> reservations j' = reservations j.

(** ** Sample constants, environment and states *)

Definition sample_consts : journal_consts.
Proof.
  refine {| OFFSET_BITS := 20;
            COUNT_BITS := 21;
            JOURNAL_ENTRY_CLOSED_VAL := 2 ^ 20 - 2;
            JOURNAL_ENTRY_ERROR_VAL := 2 ^ 20 - 1;
            JOURNAL_ENTRY_SIZE_MAX := 4 * 2 ^ 20;
            BTREE_ID_NR := 6;
            JSET_KEYS_U64s := 1;
            BKEY_EXTENT_U64s_MAX := 13;
            sizeof_jset := 56;
            sizeof_has_inode := 128 |}; cbv; intuition discriminate.
Defined.

Definition sample_externs : journal_externs.
Proof.
  refine {| bch2_journal_entry_sectors := fun _ => 2048;
            bch2_journal_reclaim_fast := fun j => j;
            bch2_journal_reclaim_work := fun j => j;
            bch2_journal_write := fun j => j;
            journal_last_seq := fun j => j_seq j + 1 - Z.of_nat (length (fifo_data (pin j)));
            journal_seq_pin := fun j seq =>
              Z.to_nat (seq - (j_seq j + 1 - Z.of_nat (length (fifo_data (pin j)))));
            vstruct_blocks_plus := fun d bits extra =>
              Z.shiftr ((7 + jset_u64s d + extra) * 8 + 2 ^ (bits + 9) - 1) (bits + 9);
            local_clock := fun _ => 1000;
            hash_64 := fun v bits => Z.shiftr (u64 (v * 7046029254386353131)) (64 - bits) |};
  intros; cbv; intuition discriminate.
Defined.

Definition sample_buf (seq : Z) : journal_buf :=
  {| data := {| jset_seq := seq; jset_last_seq := 1; jset_u64s := 0 |};
     has_inode := 0; size := 65536; disk_sectors := 0; wait := [] |}.

Definition one_pin : journal_entry_pin_list :=
  {| pin_count := 1; pin_list := []; pin_flushed := []; pin_devs_nr := 0 |}.

(** A started journal: entry 1 is open with 40 u64s reserved by two
    writers, nothing in flight. *)
Definition sample_journal : journal :=
  {| reservations := {| cur_entry_offset := 40; idx := false;
                        prev_buf_unwritten := false;
                        buf0_count := 2; buf1_count := 0 |};
     racing := [];
     lock := false;
     need_write := false;
     cur_entry_u64s := 8000;
     prev_buf_sectors := 0;
     cur_buf_sectors := 128;
     buf_size_want := 65536;
     buf0 := sample_buf 1;
     buf1 := sample_buf 0;
     j_seq := 1;
     pin := {| fifo_size := 4; fifo_data := [one_pin] |};
     res_get_blocked_start := 0;
     need_write_time := 0;
     write_delay_ms := 1000;
     bucket_journal_seq := 0;
     block_bits := 0;
     block_size := 1;
     async_wait := [];
     log := [] |}.

(** The same journal with the ERROR sentinel in the word. *)
Definition halted_journal : journal :=
  set_reservations
    (set_cur_entry_offset (2 ^ 20 - 1) (reservations sample_journal))
    sample_journal.

(** A journal in the ERROR state whose pin fifo has no free slot, with
    the lock held as [journal_entry_open] expects. *)
Definition halted_full_journal : journal :=
  set_lock true (set_pin {| fifo_size := 1; fifo_data := [one_pin] |} halted_journal).

(** A journal between two entries: entry 1 is closed and written, entry 2
    is not open yet; the lock is held. *)
Definition closed_journal : journal :=
  set_lock true
    (set_reservations
       {| cur_entry_offset := 2 ^ 20 - 2; idx := true; prev_buf_unwritten := false;
          buf0_count := 0; buf1_count := 0 |}
       (set_j_seq 2 (set_buf1 (sample_buf 2) sample_journal))).

(** The same journal, not in the ERROR state, with a pin fifo that has no
    free slot. *)
Definition closed_full_journal : journal :=
  set_pin {| fifo_size := 1; fifo_data := [one_pin] |} closed_journal.

(** A journal that has not opened any entry. *)
Definition idle_journal : journal :=
  set_reservations
    {| cur_entry_offset := 2 ^ 20 - 2; idx := false; prev_buf_unwritten := false;
       buf0_count := 0; buf1_count := 0 |}
    (set_j_seq 0 (set_pin {| fifo_size := 4; fifo_data := [] |} sample_journal)).

(** The state in which a computation ends, [sample_journal] if it does
    not return. *)
Definition final_state {A} (c : M A) (j : journal) : journal :=
  match c j with
  | Done _ j' => j'
  | _ => sample_journal
  end.

(** [sample_journal] after a halt. *)
Definition after_halt : journal :=
  final_state (@bch2_journal_halt sample_consts) sample_journal.

(** Two reservation requests. *)
Definition two_calls : list (nat * Z * Z * list (journal -> journal)) :=
  [(0%nat, 10, 10, []); (3%nat, 1, 5, [fun j => j])].

(** A device with a ring of three buckets in arrays of four, and a
    device without journal buckets. *)
Definition sample_dev : bch_dev :=
  {| ja := {| buckets := [10; 11; 12; 0]; bucket_seq := [7; 5; 6; 0];
              cur_idx := 2; last_idx := 1; nr := 3 |};
     sb_buckets := [10; 11; 12; 0];
     marked := [];
     super_writes := 0 |}.

Definition fresh_dev : bch_dev :=
  {| ja := {| buckets := []; bucket_seq := []; cur_idx := 0; last_idx := 0; nr := 0 |};
     sb_buckets := [];
     marked := [];
     super_writes := 0 |}.

Definition sample_alloc : alloc_env :=
  {| kzalloc_ok := true; sb_resize_ok := true; free_buckets := [40; 41; 42] |}.

(** A journal with entry 2 open in buffer 1 while the write of entry 1,
    from buffer 0, is still in flight. *)
Definition writing_journal : journal :=
  set_reservations
    {| cur_entry_offset := 40; idx := true; prev_buf_unwritten := true;
       buf0_count := 1; buf1_count := 2 |}
    (set_j_seq 2 (set_buf1 (sample_buf 2) sample_journal)).

(** A closure that is not waiting on anything. *)
Definition sample_closure : closure := {| cl_id := 1; cl_waiting := false |}.

(** An environment in which [kzalloc] fails. *)
Definition failing_alloc : alloc_env :=
  {| kzalloc_ok := false; sb_resize_ok := true; free_buckets := [40; 41; 42] |}.

(** The device a computation on devices ends with. *)
Definition final_dev (o : option (Z * bch_dev)) : bch_dev :=
  match o with
  | Some (_, ca) => ca
  | None => sample_dev
  end.

(** ** Tactics *)

(** Reduce record projections applied to record updates, and nothing else. *)
Ltac rsimpl :=
  cbn [reservations racing lock need_write cur_entry_u64s prev_buf_sectors
    cur_buf_sectors buf_size_want buf0 buf1 j_seq pin
    res_get_blocked_start need_write_time write_delay_ms
    bucket_journal_seq block_bits block_size async_wait log
    cur_entry_offset idx prev_buf_unwritten buf0_count buf1_count data
    has_inode size disk_sectors wait jset_seq jset_last_seq jset_u64s
    set_reservations set_racing set_lock set_need_write set_cur_entry_u64s
    set_prev_buf_sectors set_cur_buf_sectors set_buf_size_want set_buf0
    set_buf1 set_j_seq set_pin set_res_get_blocked_start
    set_need_write_time set_write_delay_ms set_bucket_journal_seq
    set_block_bits set_block_size set_async_wait set_log
    set_cur_entry_offset set_idx set_prev_buf_unwritten set_buf0_count
    set_buf1_count set_data set_has_inode set_size set_disk_sectors
    set_wait set_jset_seq set_jset_last_seq set_jset_u64s buf_at upd_buf
    fst snd negb andb orb fifo_size fifo_data pin_count journal_cur_buf
    journal_prev_buf journal_cur_seq] in *.

(** Unfold the monad. *)
Ltac run :=
  unfold when, BUG_ON, emit, commit, spin_lock, spin_unlock in *;
  unfold bind, get, modify, ret, bug in *; rsimpl.

(** * Properties *)

(** ** Fixed-width arithmetic and records *)

Lemma wrap_small (w x : Z) : 0 <= x < 2 ^ w -> wrap w x = x.
Proof. intros H. unfold wrap. apply Z.mod_small. exact H. Qed.

Lemma swrap_small (w x : Z) :
  0 < w -> - 2 ^ (w - 1) <= x < 2 ^ (w - 1) -> swrap w x = x.
Proof.
  intros Hw H. unfold swrap.
  replace (2 ^ w) with (2 * 2 ^ (w - 1)).
  - rewrite Z.mod_small; lia.
  - rewrite <- Z.pow_succ_r by lia. f_equal. lia.
Qed.

Lemma res_state_eqb_eq (a b : journal_res_state) :
  res_state_eqb a b = true <-> a = b.
Proof.
  unfold res_state_eqb. destruct a, b; simpl.
  rewrite !andb_true_iff, !Z.eqb_eq, !Bool.eqb_true_iff.
  split.
  - intros [[[[-> ->] ->] ->] ->]. reflexivity.
  - intros E. injection E as -> -> -> -> ->. repeat split.
Qed.

Lemma journal_eta (j : journal) :
  set_racing (racing j) (set_reservations (reservations j) j) = j.
Proof. destruct j. reflexivity. Qed.

Lemma set_lock_same (j : journal) : lock j = false -> set_lock false j = j.
Proof. destruct j. simpl. intros ->. reflexivity. Qed.

(** ** Compare-and-exchange loops *)

Section CasLoop.

Context {R : Type} (body : journal_res_state -> cas_step R).

(** A loop whose body leaves on the value first read exchanges nothing. *)
Lemma cmpxchg_loop_leave (racing : list journal_res_state) (v : journal_res_state) (r : R) :
  body v = Leave r -> cmpxchg_loop body racing v = Returned r v racing.
Proof. intros H. destruct racing; simpl; rewrite H; reflexivity. Qed.

(** The exchange that goes through replaces a value the word really held
    by what the body computes from that very value. *)
Lemma cmpxchg_loop_swapped (racing : list journal_res_state) :
  forall v old new rest,
    cmpxchg_loop body racing v = Swapped old new rest ->
    body old = Store new /\ In old (v :: racing).
Proof.
  induction racing as [|cur racing IH]; intros v old new rest H; simpl in H.
  - destruct (body v) eqn:E; inversion H; subst. split; [exact E | left; reflexivity].
  - destruct (body v) eqn:E; try discriminate.
    destruct (res_state_eqb cur v) eqn:Q.
    + inversion H; subst. split; [exact E | left; reflexivity].
    + apply IH in H. destruct H as [H1 H2]. split; [exact H1 | right; exact H2].
Qed.

Lemma cmpxchg_loop_returned (racing : list journal_res_state) :
  forall v r v' rest,
    cmpxchg_loop body racing v = Returned r v' rest ->
    body v' = Leave r /\ In v' (v :: racing).
Proof.
  induction racing as [|cur racing IH]; intros v r v' rest H; simpl in H.
  - destruct (body v) eqn:E; inversion H; subst. split; [exact E | left; reflexivity].
  - destruct (body v) eqn:E; try discriminate.
    + inversion H; subst. split; [exact E | left; reflexivity].
    + destruct (res_state_eqb cur v) eqn:Q; try discriminate.
      apply IH in H. destruct H as [H1 H2]. split; [exact H1 | right; exact H2].
Qed.

End CasLoop.

Section Properties.

Context {K : journal_consts} {X : journal_externs}.

Lemma CLOSED_VAL_fits : wrap OFFSET_BITS JOURNAL_ENTRY_CLOSED_VAL = JOURNAL_ENTRY_CLOSED_VAL.
Proof. apply wrap_small, CLOSED_VAL_range. Qed.

Lemma ERROR_VAL_fits : wrap OFFSET_BITS JOURNAL_ENTRY_ERROR_VAL = JOURNAL_ENTRY_ERROR_VAL.
Proof. apply wrap_small, ERROR_VAL_range. Qed.

Lemma error_not_open (j : journal) :
  cur_entry_offset (reservations j) = JOURNAL_ENTRY_ERROR_VAL ->
  journal_entry_is_open j = false.
Proof.
  intros H. unfold journal_entry_is_open. rewrite H.
  apply Z.ltb_ge. pose proof CLOSED_lt_ERROR. lia.
Qed.

(** ** Halt *)

Lemma bch2_journal_halt_body_error (s : journal_res_state) :
  cur_entry_offset s = JOURNAL_ENTRY_ERROR_VAL -> bch2_journal_halt_body s = Leave tt.
Proof. intros H. unfold bch2_journal_halt_body. rewrite H, Z.eqb_refl. reflexivity. Qed.

Lemma bch2_journal_halt_on_error (j : journal) :
  cur_entry_offset (reservations j) = JOURNAL_ENTRY_ERROR_VAL ->
  bch2_journal_halt j = Done tt j.
Proof.
  intros H. unfold bch2_journal_halt, bind, get.
  rewrite (cmpxchg_loop_leave _ _ _ tt (bch2_journal_halt_body_error _ H)).
  unfold commit, modify. rewrite journal_eta. reflexivity.
Qed.

Lemma reservations_upd_buf (i : bool) (f : journal_buf -> journal_buf) (j : journal) :
  reservations (upd_buf i f j) = reservations j.
Proof. destruct i; reflexivity. Qed.

Lemma closure_wake_up_buf_done (i : bool) (j : journal) :
  exists j', closure_wake_up_buf i j = Done tt j' /\ reservations j' = reservations j.
Proof.
  unfold closure_wake_up_buf. run. eexists. split; [reflexivity|].
  rewrite reservations_upd_buf. reflexivity.
Qed.

(** Whatever the other CPUs do meanwhile, a halt that returns leaves
    ERROR in the word. *)
Lemma bch2_journal_halt_sets_error (j j' : journal) :
  bch2_journal_halt j = Done tt j' ->
  cur_entry_offset (reservations j') = JOURNAL_ENTRY_ERROR_VAL.
Proof.
  unfold bch2_journal_halt, bind, get.
  destruct (cmpxchg_loop bch2_journal_halt_body (racing j) (reservations j)) eqn:E.
  - apply cmpxchg_loop_returned in E. destruct E as [E _].
    unfold commit, modify. intros H. inversion H; subst; simpl.
    unfold bch2_journal_halt_body in E.
    destruct (cur_entry_offset v =? JOURNAL_ENTRY_ERROR_VAL) eqn:Q; try discriminate.
    apply Z.eqb_eq. exact Q.
  - apply cmpxchg_loop_swapped in E. destruct E as [E _].
    unfold bch2_journal_halt_body in E.
    destruct (cur_entry_offset old =? JOURNAL_ENTRY_ERROR_VAL); try discriminate.
    inversion E; subst; clear E.
    unfold commit, emit, modify.
    match goal with
    | |- context [closure_wake_up_buf ?i ?s] =>
        destruct (closure_wake_up_buf_done i s) as [j1 [-> R1]]
    end.
    destruct (closure_wake_up_buf_done (negb (idx (reservations j1))) j1) as [j2 [-> R2]].
    intros H. inversion H; subst.
    rewrite R2, R1. simpl. apply ERROR_VAL_fits.
  - discriminate.
Qed.

(** A halt always returns. *)
Lemma bch2_journal_halt_returns (j : journal) :
  exists j', bch2_journal_halt j = Done tt j'.
Proof.
  unfold bch2_journal_halt, bind, get.
  assert (N : forall rs v, cmpxchg_loop bch2_journal_halt_body rs v <> Crashed).
  { intros rs. induction rs as [|cur rs IH]; intros v; cbn [cmpxchg_loop];
      unfold bch2_journal_halt_body at 1;
      destruct (cur_entry_offset v =? JOURNAL_ENTRY_ERROR_VAL); try discriminate.
    destruct (res_state_eqb cur v); [discriminate | apply IH]. }
  destruct (cmpxchg_loop bch2_journal_halt_body (racing j) (reservations j))
    as [[] v rest|old new rest|] eqn:E.
  - eexists. reflexivity.
  - unfold commit, emit, modify.
    match goal with
    | |- context [closure_wake_up_buf ?i ?s] =>
        destruct (closure_wake_up_buf_done i s) as [j1 [-> _]]
    end.
    destruct (closure_wake_up_buf_done (negb (idx (reservations j1))) j1) as [j2 [-> _]].
    exists j2. reflexivity.
  - exfalso. exact (N _ _ E).
Qed.

(** The wake-ups of a halt belong to the transition into ERROR alone. *)
Lemma bch2_journal_halt_wakes_on_transition (j j' : journal) :
  bch2_journal_halt j = Done tt j' ->
  log j' <> log j ->
  cur_entry_offset (reservations j) <> JOURNAL_ENTRY_ERROR_VAL.
Proof.
  intros H Hlog Herr. rewrite (bch2_journal_halt_on_error j Herr) in H.
  inversion H; subst. apply Hlog. reflexivity.
Qed.

(** ** Closing an entry *)

Lemma journal_buf_switch_body_error (s : journal_res_state) :
  cur_entry_offset s = JOURNAL_ENTRY_ERROR_VAL ->
  journal_buf_switch_body s = Leave JOURNAL_ENTRY_ERROR.
Proof.
  intros H. unfold journal_buf_switch_body. rewrite H, Z.eqb_refl.
  pose proof CLOSED_lt_ERROR.
  destruct (JOURNAL_ENTRY_ERROR_VAL =? JOURNAL_ENTRY_CLOSED_VAL) eqn:Q; [|reflexivity].
  apply Z.eqb_eq in Q. lia.
Qed.

Lemma journal_buf_switch_on_error (need_write_just_set : bool) (j : journal) :
  cur_entry_offset (reservations j) = JOURNAL_ENTRY_ERROR_VAL ->
  journal_buf_switch need_write_just_set j = Done JOURNAL_ENTRY_ERROR j.
Proof.
  intros H. unfold journal_buf_switch, bind, get.
  rewrite (cmpxchg_loop_leave _ _ _ _ (journal_buf_switch_body_error _ H)).
  unfold commit, modify, ret. rewrite journal_eta. reflexivity.
Qed.

(** What one pass of the loop of [journal_buf_switch] stores. *)
Lemma journal_buf_switch_body_store (old new : journal_res_state) :
  journal_buf_switch_body old = Store new ->
  cur_entry_offset old <> JOURNAL_ENTRY_CLOSED_VAL /\
  cur_entry_offset old <> JOURNAL_ENTRY_ERROR_VAL /\
  prev_buf_unwritten old = false /\
  new = set_prev_buf_unwritten true
          (set_idx (negb (idx old))
             (set_cur_entry_offset JOURNAL_ENTRY_CLOSED_VAL (journal_state_inc old))).
Proof.
  unfold journal_buf_switch_body.
  destruct (cur_entry_offset old =? JOURNAL_ENTRY_CLOSED_VAL) eqn:Q1; try discriminate.
  destruct (cur_entry_offset old =? JOURNAL_ENTRY_ERROR_VAL) eqn:Q2; try discriminate.
  destruct (prev_buf_unwritten old) eqn:Q3; try discriminate.
  match goal with |- context [if ?c then Crash else _] => destruct c end; try discriminate.
  intros E. inversion E; subst; clear E.
  apply Z.eqb_neq in Q1, Q2. repeat split; try assumption.
  rewrite CLOSED_VAL_fits. unfold journal_state_inc.
  destruct (idx old) eqn:I; rsimpl; rewrite I; reflexivity.
Qed.

(** The exchange of [journal_buf_switch], whatever the other CPUs store
    meanwhile: the word it replaces is open with prev_buf_unwritten = 0,
    and the word it stores is that word closed. *)
Lemma journal_buf_switch_exchange (racing : list journal_res_state)
    (v old new : journal_res_state) (rest : list journal_res_state) :
  cmpxchg_loop journal_buf_switch_body racing v = Swapped old new rest ->
  0 <= journal_state_count old (idx old) < 2 ^ COUNT_BITS - 1 ->
  cur_entry_offset old <> JOURNAL_ENTRY_CLOSED_VAL /\
  cur_entry_offset old <> JOURNAL_ENTRY_ERROR_VAL /\
  prev_buf_unwritten old = false /\
  journal_state_count new (idx old) = journal_state_count old (idx old) + 1 /\
  journal_state_count new (negb (idx old)) = journal_state_count old (negb (idx old)) /\
  cur_entry_offset new = JOURNAL_ENTRY_CLOSED_VAL /\
  idx new = negb (idx old) /\
  prev_buf_unwritten new = true.
Proof.
  intros E Hc. apply cmpxchg_loop_swapped in E. destruct E as [E _].
  apply journal_buf_switch_body_store in E. destruct E as (N1 & N2 & P & ->).
  repeat split; try assumption; try reflexivity.
  - unfold journal_state_inc, journal_state_count in *.
    destruct (idx old); rsimpl; apply wrap_small; lia.
  - unfold journal_state_inc, journal_state_count.
    destruct (idx old); reflexivity.
Qed.

(** The loop of [journal_buf_switch] leaves only with one of the three
    codes that report that nothing was closed. *)
Lemma journal_buf_switch_body_leave (s : journal_res_state) (r : buf_switch_ret) :
  journal_buf_switch_body s = Leave r -> r <> JOURNAL_UNLOCKED.
Proof.
  unfold journal_buf_switch_body.
  destruct (cur_entry_offset s =? JOURNAL_ENTRY_CLOSED_VAL).
  { intros E. inversion E. discriminate. }
  destruct (cur_entry_offset s =? JOURNAL_ENTRY_ERROR_VAL).
  { intros E. inversion E. discriminate. }
  destruct (prev_buf_unwritten s).
  { intros E. inversion E. discriminate. }
  match goal with |- context [if ?c then Crash else _] => destruct c end; discriminate.
Qed.


(** A word with prev_buf_unwritten = 1 is never exchanged by
    [journal_buf_switch]. *)
Lemma journal_buf_switch_never_from_unwritten (racing : list journal_res_state)
    (v old new : journal_res_state) (rest : list journal_res_state) :
  cmpxchg_loop journal_buf_switch_body racing v = Swapped old new rest ->
  prev_buf_unwritten old <> true.
Proof.
  intros E. apply cmpxchg_loop_swapped in E. destruct E as [E _].
  apply journal_buf_switch_body_store in E. destruct E as (_ & _ & P & _).
  rewrite P. discriminate.
Qed.

(** ** Opening an entry *)

Lemma journal_entry_open_body_error (u64s : Z) (s : journal_res_state) :
  cur_entry_offset s = JOURNAL_ENTRY_ERROR_VAL ->
  journal_entry_open_body u64s s = Leave (- EIO).
Proof. intros H. unfold journal_entry_open_body. rewrite H, Z.eqb_refl. reflexivity. Qed.

(** With a full pin fifo [journal_entry_open] returns 0 before it looks at
    anything else, provided the entry is not open. *)
Lemma journal_entry_open_fifo_full (j : journal) :
  journal_entry_is_open j = false ->
  fifo_free (pin j) = 0 ->
  journal_entry_open j = Done 0 j.
Proof.
  intros Ho Hf. unfold journal_entry_open. run. rewrite Ho, Hf. reflexivity.
Qed.

(** In the ERROR state, once the checks on the pin fifo and on the space
    have passed, the loop meets the sentinel and returns [-EIO]. *)
Lemma journal_entry_open_error_EIO (j : journal) :
  cur_entry_offset (reservations j) = JOURNAL_ENTRY_ERROR_VAL ->
  fifo_free (pin j) <> 0 ->
  0 < bch2_journal_entry_sectors j ->
  entry_open_u64s (bch2_journal_entry_sectors j) (size (journal_cur_buf j))
    < JOURNAL_ENTRY_CLOSED_VAL ->
  jset_u64s (data (journal_cur_buf j))
    < entry_open_u64s (bch2_journal_entry_sectors j) (size (journal_cur_buf j)) ->
  exists j', journal_entry_open j = Done (- EIO) j' /\ reservations j' = reservations j.
Proof.
  intros H Hf Hs Hc Hu. unfold journal_entry_open. run.
  rewrite (error_not_open j H).
  apply Z.eqb_neq in Hf. rewrite Hf.
  destruct (bch2_journal_entry_sectors j <=? 0) eqn:Q; [apply Z.leb_le in Q; lia|].
  revert Hc Hu. unfold journal_cur_buf.
  destruct (idx (reservations j)) eqn:I; rsimpl; intros Hc Hu.
  - apply Z.leb_gt in Hc. rewrite Hc. apply Z.leb_gt in Hu. rewrite Hu.
    rewrite (cmpxchg_loop_leave _ _ _ (- EIO)).
    2:{ apply journal_entry_open_body_error. rsimpl. exact H. }
    eexists. split; reflexivity.
  - apply Z.leb_gt in Hc. rewrite Hc. apply Z.leb_gt in Hu. rewrite Hu.
    rewrite (cmpxchg_loop_leave _ _ _ (- EIO)).
    2:{ apply journal_entry_open_body_error. rsimpl. exact H. }
    eexists. split; reflexivity.
Qed.

(** However [journal_entry_open] returns from the ERROR state, the
    reservation word is as it was. *)
Lemma journal_entry_open_error_frame (j : journal) (r : Z) (j' : journal) :
  cur_entry_offset (reservations j) = JOURNAL_ENTRY_ERROR_VAL ->
  journal_entry_open j = Done r j' -> reservations j' = reservations j.
Proof.
  intros H. unfold journal_entry_open. run. rewrite (error_not_open j H).
  destruct (fifo_free (pin j) =? 0).
  { intros E. inversion E. reflexivity. }
  destruct (bch2_journal_entry_sectors j <=? 0).
  { intros E. inversion E. reflexivity. }
  destruct (idx (reservations j)) eqn:I; rsimpl.
  - destruct (JOURNAL_ENTRY_CLOSED_VAL <=? _); try discriminate.
    destruct (_ <=? jset_u64s _).
    { intros E. inversion E. reflexivity. }
    rewrite (cmpxchg_loop_leave _ _ _ (- EIO)).
    2:{ apply journal_entry_open_body_error. rsimpl. exact H. }
    intros E. inversion E. reflexivity.
  - destruct (JOURNAL_ENTRY_CLOSED_VAL <=? _); try discriminate.
    destruct (_ <=? jset_u64s _).
    { intros E. inversion E. reflexivity. }
    rewrite (cmpxchg_loop_leave _ _ _ (- EIO)).
    2:{ apply journal_entry_open_body_error. rsimpl. exact H. }
    intros E. inversion E. reflexivity.
Qed.

(** C4 (amended): [journal_entry_open] looks at the pin fifo and at the
    space before it looks at the sentinel.  Called with the entry closed,
    which the ERROR state is too, it returns 0 (Blocked) on a full pin
    fifo and leaves the journal as it was, whether or not the journal is
    in the ERROR state.  In the ERROR state [-EIO] is returned once the
    fifo has a free slot, the devices grant a positive number of sectors
    and the entry offers more u64s than the buffer already holds. *)
Theorem journal_entry_open_in_error (j : journal) :
  (cur_entry_offset (reservations j) = JOURNAL_ENTRY_ERROR_VAL ->
   journal_entry_is_open j = false) /\
  (journal_entry_is_open j = false ->
   fifo_free (pin j) = 0 ->
   journal_entry_open j = Done 0 j) /\
  (cur_entry_offset (reservations j) = JOURNAL_ENTRY_ERROR_VAL ->
   fifo_free (pin j) <> 0 ->
   0 < bch2_journal_entry_sectors j ->
   entry_open_u64s (bch2_journal_entry_sectors j) (size (journal_cur_buf j))
     < JOURNAL_ENTRY_CLOSED_VAL ->
   jset_u64s (data (journal_cur_buf j))
     < entry_open_u64s (bch2_journal_entry_sectors j) (size (journal_cur_buf j)) ->
   exists j', journal_entry_open j = Done (- EIO) j' /\
              reservations j' = reservations j).
Proof.
  split; [|split].
  - apply error_not_open.
  - apply journal_entry_open_fifo_full.
  - apply journal_entry_open_error_EIO.
Qed.

(** ** ERROR is absorbing *)

Lemma run_op_error (o : atom_op) (j j' : journal) :
  cur_entry_offset (reservations j) = JOURNAL_ENTRY_ERROR_VAL ->
  run_op o j = Done tt j' ->
  cur_entry_offset (reservations j') = JOURNAL_ENTRY_ERROR_VAL.
Proof.
  intros H. destruct o as [b| |]; unfold run_op.
  - unfold bind. rewrite (journal_buf_switch_on_error b j H).
    unfold ret. intros E. inversion E; subst. exact H.
  - unfold bind. destruct (journal_entry_open j) as [r j1| | | |] eqn:E; try discriminate.
    unfold ret. intros E'. inversion E'; subst.
    rewrite (journal_entry_open_error_frame _ _ _ H E). exact H.
  - rewrite (bch2_journal_halt_on_error j H). intros E. inversion E; subst. exact H.
Qed.

(** C2: if the word carries ERROR, it still does after [journal_buf_switch],
    after [journal_entry_open] and after [bch2_journal_halt], and hence
    after any sequence of them: no run of the operations that write the
    word clears ERROR. *)
Theorem error_is_absorbing (ops : list atom_op) :
  forall j j' : journal,
    cur_entry_offset (reservations j) = JOURNAL_ENTRY_ERROR_VAL ->
    run_ops ops j = Done tt j' ->
    cur_entry_offset (reservations j') = JOURNAL_ENTRY_ERROR_VAL.
Proof.
  induction ops as [|o ops IH]; intros j j' H; simpl.
  - unfold ret. intros E. inversion E; subst. exact H.
  - unfold bind. destruct (run_op o j) as [[] j1| | | |] eqn:E; try discriminate.
    apply IH. exact (run_op_error o j j1 H E).
Qed.

(** C10: a halt of a journal that already carries ERROR returns at once:
    the journal is left exactly as it was, so the reservation word is
    unchanged and neither the journal wait queue nor a buffer's closure
    list is woken (the log of events is the same). *)
Theorem bch2_journal_halt_idempotent (j : journal) :
  cur_entry_offset (reservations j) = JOURNAL_ENTRY_ERROR_VAL ->
  bch2_journal_halt j = Done tt j /\
  (forall j', bch2_journal_halt j = Done tt j' ->
     reservations j' = reservations j /\ log j' = log j).
Proof.
  intros H. pose proof (bch2_journal_halt_on_error j H) as E. split; [exact E|].
  intros j' E'. rewrite E in E'. inversion E'; subst. split; reflexivity.
Qed.

(** The only way [journal_entry_open] returns 1 is through the exchange
    at its end; by then it has published the u64s it computed. *)
Lemma journal_entry_open_success (j j' : journal) :
  journal_entry_open j = Done 1 j' ->
  0 < bch2_journal_entry_sectors j /\
  entry_open_u64s (bch2_journal_entry_sectors j) (size (journal_cur_buf j))
    < JOURNAL_ENTRY_CLOSED_VAL /\
  cur_entry_u64s j' =
    u32 (entry_open_u64s (bch2_journal_entry_sectors j) (size (journal_cur_buf j))).
Proof.
  unfold journal_entry_open. run.
  destruct (journal_entry_is_open j); try discriminate.
  destruct (fifo_free (pin j) =? 0); try discriminate.
  destruct (bch2_journal_entry_sectors j <=? 0) eqn:Q.
  { intros E. inversion E as [[E1 E2]]. apply Z.leb_le in Q. lia. }
  apply Z.leb_gt in Q. unfold journal_cur_buf.
  destruct (idx (reservations j)) eqn:I; rsimpl.
  - destruct (JOURNAL_ENTRY_CLOSED_VAL <=? _) eqn:Q1; try discriminate.
    destruct (_ <=? jset_u64s _); try discriminate.
    match goal with |- context [cmpxchg_loop ?b ?r ?v] =>
      destruct (cmpxchg_loop b r v) as [r0 v0 rest|old new rest|] eqn:E end;
      try discriminate.
    + apply cmpxchg_loop_returned in E. destruct E as [E _].
      unfold journal_entry_open_body in E.
      destruct (cur_entry_offset v0 =? JOURNAL_ENTRY_ERROR_VAL); try discriminate.
      inversion E; subst. discriminate.
    + destruct (negb _); intros E'; inversion E'; subst; rsimpl;
        (split; [exact Q | split; [apply Z.leb_gt; exact Q1 | reflexivity]]).
  - destruct (JOURNAL_ENTRY_CLOSED_VAL <=? _) eqn:Q1; try discriminate.
    destruct (_ <=? jset_u64s _); try discriminate.
    match goal with |- context [cmpxchg_loop ?b ?r ?v] =>
      destruct (cmpxchg_loop b r v) as [r0 v0 rest|old new rest|] eqn:E end;
      try discriminate.
    + apply cmpxchg_loop_returned in E. destruct E as [E _].
      unfold journal_entry_open_body in E.
      destruct (cur_entry_offset v0 =? JOURNAL_ENTRY_ERROR_VAL); try discriminate.
      inversion E; subst. discriminate.
    + destruct (negb _); intros E'; inversion E'; subst; rsimpl;
        (split; [exact Q | split; [apply Z.leb_gt; exact Q1 | reflexivity]]).
Qed.

Lemma journal_entry_u64s_reserve_range :
  0 <= journal_entry_u64s_reserve < 2 ^ 33.
Proof.
  unfold journal_entry_u64s_reserve.
  pose proof BTREE_ID_NR_range. pose proof JSET_KEYS_U64s_range.
  pose proof BKEY_EXTENT_U64s_MAX_range.
  change (2 ^ 16) with 65536 in *. change (2 ^ 33) with 8589934592. nia.
Qed.

(** The C arithmetic of [journal_entry_open] does not wrap for a buffer
    of less than 2 GiB: it computes the sectors that fit, in u64s, less
    the header and the reserve, floored at zero. *)
Lemma entry_open_u64s_exact (sectors buf_size : Z) :
  0 < sectors < 2 ^ 31 ->
  0 <= buf_size < 2 ^ 31 ->
  entry_open_u64s sectors buf_size =
    Z.max 0 (Z.shiftl (Z.min sectors (Z.shiftr buf_size 9)) 9 / 8
             - sizeof_jset / 8 - journal_entry_u64s_reserve).
Proof.
  intros Hs Hb. unfold entry_open_u64s, entry_open_sectors, u32, u64, s32, s64.
  pose proof journal_entry_u64s_reserve_range as Hr.
  pose proof sizeof_jset_range as Hj.
  remember journal_entry_u64s_reserve as rsv.
  assert (Hj8 : 0 <= sizeof_jset / 8 < 2 ^ 16).
  { split; [apply Z.div_pos; lia|]. apply Z.div_lt_upper_bound; lia. }
  remember (sizeof_jset / 8) as hdr.
  rewrite (wrap_small 32 sectors) by lia.
  assert (Hsh : 0 <= Z.shiftr buf_size 9 < 2 ^ 22).
  { rewrite Z.shiftr_div_pow2 by lia. split; [apply Z.div_pos; lia|].
    apply Z.div_lt_upper_bound; lia. }
  remember (Z.shiftr buf_size 9) as bs.
  assert (Hm : 0 <= Z.min sectors bs < 2 ^ 22) by lia.
  remember (Z.min sectors bs) as m.
  rewrite (swrap_small 32 m) by lia.
  rewrite Z.shiftl_mul_pow2 by lia.
  rewrite (swrap_small 32 (m * 2 ^ 9)) by lia.
  rewrite (wrap_small 64 (m * 2 ^ 9)) by lia.
  assert (Hd : 0 <= m * 2 ^ 9 / 8 < 2 ^ 28).
  { split; [apply Z.div_pos; lia|]. apply Z.div_lt_upper_bound; lia. }
  remember (m * 2 ^ 9 / 8) as q.
  rewrite (swrap_small 64 q) by lia.
  rewrite (swrap_small 64 (q - hdr)) by lia.
  rewrite (swrap_small 64 (q - hdr - rsv)) by lia.
  reflexivity.
Qed.

(** C6: when [journal_entry_open] succeeds, the [cur_entry_u64s] it has
    published is max(0, (min(sectors, size >> 9) << 9) / 8 - sizeof(jset) / 8
    - BTREE_ID_NR * (JSET_KEYS_U64s + BKEY_EXTENT_U64s_MAX)), where sectors
    is what the devices grant and size is the size of the current buffer
    (less than 2 GiB, so that the int arithmetic does not overflow). *)
Theorem journal_entry_open_publishes_u64s (j j' : journal) :
  journal_entry_open j = Done 1 j' ->
  0 <= size (journal_cur_buf j) < 2 ^ 31 ->
  cur_entry_u64s j' =
    Z.max 0
      (Z.shiftl (Z.min (bch2_journal_entry_sectors j)
                       (Z.shiftr (size (journal_cur_buf j)) 9)) 9 / 8
       - sizeof_jset / 8
       - BTREE_ID_NR * (JSET_KEYS_U64s + BKEY_EXTENT_U64s_MAX)).
Proof.
  intros E Hb. apply journal_entry_open_success in E. destruct E as (Hs & Hc & ->).
  pose proof (bch2_journal_entry_sectors_int j) as Hi.
  assert (Hs' : 0 < bch2_journal_entry_sectors j < 2 ^ 31) by (split; [exact Hs | apply Hi]).
  assert (Hx := entry_open_u64s_exact (bch2_journal_entry_sectors j)
                  (size (journal_cur_buf j)) Hs' Hb).
  fold journal_entry_u64s_reserve. rewrite <- Hx.
  unfold u32. apply wrap_small.
  pose proof CLOSED_VAL_range. pose proof OFFSET_BITS_range.
  assert (2 ^ OFFSET_BITS <= 2 ^ 32) by (apply Z.pow_le_mono_r; lia).
  split; [rewrite Hx; lia | lia].
Qed.

(** ** Reservations after a halt *)

Lemma journal_res_get_fast_on_error (u64s_min u64s_max : Z) (j : journal) :
  cur_entry_offset (reservations j) = JOURNAL_ENTRY_ERROR_VAL ->
  journal_res_get_fast u64s_min u64s_max j = Done None j.
Proof.
  intros H. unfold journal_res_get_fast, bind, get.
  rewrite (cmpxchg_loop_leave _ _ _ tt).
  - unfold commit, modify, ret. rewrite journal_eta. reflexivity.
  - unfold journal_res_get_fast_body. rewrite H, Z.eqb_refl.
    rewrite andb_false_r. reflexivity.
Qed.

Lemma set_lock_twice (a b : bool) (j : journal) :
  set_lock a (set_lock b j) = set_lock a j.
Proof. reflexivity. Qed.

(** In the ERROR state one pass of [__journal_res_get] ends in the
    [JOURNAL_ENTRY_ERROR] case of its switch. *)
Lemma journal_res_get_on_error (fuel : nat) (u64s_min u64s_max : Z) (j : journal) :
  cur_entry_offset (reservations j) = JOURNAL_ENTRY_ERROR_VAL ->
  __journal_res_get (S fuel) u64s_min u64s_max j = Done (- EROFS, None) (set_lock false j).
Proof.
  intros H. cbn [__journal_res_get]. unfold bind at 1.
  rewrite (journal_res_get_fast_on_error _ _ j H).
  unfold bind at 1, spin_lock at 1, modify at 1.
  assert (H' : cur_entry_offset (reservations (set_lock true j)) = JOURNAL_ENTRY_ERROR_VAL)
    by exact H.
  unfold bind at 1. rewrite (journal_res_get_fast_on_error _ _ _ H').
  unfold bind at 1, get at 1. unfold bind at 1.
  rewrite (error_not_open _ H'). cbn [andb]. unfold when at 1, ret at 1.
  unfold bind at 1. rewrite (journal_buf_switch_on_error false _ H').
  unfold bind, spin_unlock, modify, ret. rewrite set_lock_twice. reflexivity.
Qed.

Lemma bch2_journal_res_get_slowpath_on_error (fuel : nat) (u64s_min u64s_max : Z)
    (ws : list (journal -> journal)) (j : journal) :
  cur_entry_offset (reservations j) = JOURNAL_ENTRY_ERROR_VAL ->
  bch2_journal_res_get_slowpath (S fuel) u64s_min u64s_max ws j
    = Done (- EROFS, None) (set_lock false j).
Proof.
  intros H. unfold bch2_journal_res_get_slowpath, bind.
  assert (W : wait_event (__journal_res_get (S fuel) u64s_min u64s_max)
                (fun r => negb (fst r =? 0)) ws j
              = Done (- EROFS, None) (set_lock false j)).
  { destruct ws; cbn [wait_event]; rewrite (journal_res_get_on_error _ _ _ j H);
      reflexivity. }
  rewrite W. reflexivity.
Qed.

Lemma bch2_journal_res_get_on_error (fuel : nat) (u64s_min u64s_max : Z)
    (ws : list (journal -> journal)) (j : journal) :
  cur_entry_offset (reservations j) = JOURNAL_ENTRY_ERROR_VAL ->
  bch2_journal_res_get (S fuel) u64s_min u64s_max ws j
    = Done (- EROFS, None) (set_lock false j).
Proof.
  intros H. unfold bch2_journal_res_get, bind.
  rewrite (journal_res_get_fast_on_error _ _ j H).
  apply bch2_journal_res_get_slowpath_on_error. exact H.
Qed.

Lemma res_get_calls_on_error (calls : list (nat * Z * Z * list (journal -> journal))) :
  forall j : journal,
    cur_entry_offset (reservations j) = JOURNAL_ENTRY_ERROR_VAL ->
    exists j', res_get_calls calls j = Done (repeat (- EROFS) (length calls)) j' /\
               cur_entry_offset (reservations j') = JOURNAL_ENTRY_ERROR_VAL.
Proof.
  induction calls as [|[[[fuel u64s_min] u64s_max] ws] calls IH]; intros j H.
  - exists j. split; [reflexivity | exact H].
  - cbn [res_get_calls]. unfold bind at 1.
    rewrite (bch2_journal_res_get_on_error _ _ _ _ j H).
    destruct (IH (set_lock false j) H) as [j' [E H']].
    unfold bind. rewrite E. exists j'. split; [reflexivity | exact H'].
Qed.

(** C1 (amended): [bch2_journal_halt] returns, and every later
    [bch2_journal_res_get], however many follow and whatever they ask for,
    fails through the slow path with [-EROFS] (not [-EIO]); the word still
    carries ERROR afterwards. *)
Theorem res_get_after_halt (j : journal)
    (calls : list (nat * Z * Z * list (journal -> journal))) :
  exists j1 j2,
    bch2_journal_halt j = Done tt j1 /\
    res_get_calls calls j1 = Done (repeat (- EROFS) (length calls)) j2 /\
    cur_entry_offset (reservations j2) = JOURNAL_ENTRY_ERROR_VAL.
Proof.
  destruct (bch2_journal_halt_returns j) as [j1 E].
  destruct (res_get_calls_on_error calls j1 (bch2_journal_halt_sets_error j j1 E))
    as [j2 [R H]].
  exists j1, j2. repeat split; assumption.
Qed.

(** ** Inode lookup *)

(** C5: [bch2_inode_journal_seq] returns the sequence number of the
    current entry if the current buffer has the inode's bit set, else that
    of the previous entry ([cur_seq - 1]) if the previous buffer has it, and
    0 if neither has; it changes nothing but the lock it takes and drops. *)
Theorem bch2_inode_journal_seq_highest (inode : Z) (j : journal) :
  let h := hash_64 inode (Z.log2 (sizeof_has_inode * 8)) in
  exists j',
    bch2_inode_journal_seq inode j =
      Done (if test_bit h (has_inode (journal_cur_buf j)) then journal_cur_seq j
            else if test_bit h (has_inode (journal_prev_buf j))
                 then u64 (journal_cur_seq j - 1)
                 else 0) j' /\
    set_lock false j' = set_lock false j.
Proof.
  intros h. unfold bch2_inode_journal_seq. fold h. run.
  unfold journal_cur_buf, journal_prev_buf. rsimpl.
  destruct (test_bit h (has_inode (buf0 j))) eqn:T0,
           (test_bit h (has_inode (buf1 j))) eqn:T1; rsimpl;
    destruct (idx (reservations j)); rsimpl; rewrite ?T0, ?T1;
    eexists; split; reflexivity.
Qed.

(** ** Flushing an idle journal *)

(** C9: with [cur_seq] at 0 and no entry open, [bch2_journal_flush]
    returns 0 and [bch2_journal_flush_async] returns, both leaving the
    journal exactly as it was: no continuation is queued, NEED_WRITE is not
    set, no entry is closed and nothing is written. *)
Theorem bch2_journal_flush_idle (j : journal) (ws : list wakeup) (parent : option closure) :
  journal_cur_seq j = 0 ->
  journal_entry_is_open j = false ->
  lock j = false ->
  bch2_journal_flush ws j = Done 0 j /\
  bch2_journal_flush_async parent j = Done tt j.
Proof.
  intros Hs Ho Hl. unfold bch2_journal_flush, bch2_journal_flush_async.
  unfold journal_cur_seq in *.
  assert (Ho' : journal_entry_is_open (set_lock true j) = false) by exact Ho.
  unfold bind, spin_lock, spin_unlock, modify, get, ret.
  rewrite Ho'. rsimpl. rewrite Hs. cbn [Z.eqb negb].
  rewrite set_lock_twice, (set_lock_same j Hl). split; reflexivity.
Qed.

End Properties.

(** ** The per-device ring *)

Section Ring.

(** Making room at [pos] and writing [v] there, seen on the first [n + 1]
    entries of an array that holds [n] items and has room for one more. *)
Lemma array_insert_view (a : list Z) (n pos : nat) (v : Z) :
  (pos <= n)%nat -> (n < length a)%nat ->
  firstn (S n) (array_set (Z.of_nat pos) v
                  (array_insert_item a (Z.of_nat n) (Z.of_nat pos)))
  = firstn pos (firstn n a) ++ v :: skipn pos (firstn n a).
Proof.
  intros Hp Hn. unfold array_insert_item, array_set.
  rewrite !Nat2Z.id. replace (Z.to_nat (Z.of_nat n - Z.of_nat pos)) with (n - pos)%nat by lia.
  assert (Hlen : length (firstn (S pos) a) = S pos) by (apply firstn_length_le; lia).
  assert (Hy : length (firstn (n - pos) (skipn pos a)) = (n - pos)%nat).
  { apply firstn_length_le. rewrite length_skipn. lia. }
  match goal with |- context [if ?c then _ else _] => replace c with true end.
  2:{ symmetry. apply andb_true_iff. split; [apply Z.leb_le; lia|].
      apply Z.ltb_lt. rewrite !length_app, Hlen. lia. }
  set (Y := firstn (n - pos) (skipn pos a)) in *.
  set (T := skipn (S n) a).
  assert (E1 : firstn pos (firstn (S pos) a ++ Y ++ T) = firstn pos a).
  { rewrite firstn_app, Hlen, firstn_firstn.
    replace (Nat.min pos (S pos)) with pos by lia.
    replace (pos - S pos)%nat with 0%nat by lia.
    rewrite firstn_O, app_nil_r. reflexivity. }
  assert (E2 : skipn (S pos) (firstn (S pos) a ++ Y ++ T) = Y ++ T).
  { rewrite skipn_app, Hlen. rewrite (skipn_all2 (firstn (S pos) a)) by lia.
    replace (S pos - S pos)%nat with 0%nat by lia. reflexivity. }
  rewrite E1, E2.
  assert (Hx : length (firstn pos a) = pos) by (apply firstn_length_le; lia).
  assert (E3 : firstn (S n) (firstn pos a ++ v :: Y ++ T) = firstn pos a ++ v :: Y).
  { rewrite firstn_app, Hx.
    rewrite (firstn_all2 (n := S n) (firstn pos a)) by lia.
    f_equal. replace (S n - pos)%nat with (S (n - pos)) by lia.
    cbn [firstn]. f_equal.
    rewrite firstn_app, Hy.
    rewrite (firstn_all2 (n := (n - pos)%nat) Y) by lia.
    replace (n - pos - (n - pos))%nat with 0%nat by lia.
    rewrite firstn_O, app_nil_r. reflexivity. }
  rewrite E3, firstn_firstn. replace (Nat.min pos n) with pos by lia.
  rewrite skipn_firstn_comm. reflexivity.
Qed.


(** The exported [bch2_set_nr_journal_buckets] asked for no more buckets
    than the device has: the device is left as it was, and the result is 0
    if the disk reservation it asks for first is granted, [-ENOSPC] if not. *)
Lemma bch2_set_nr_journal_buckets_no_shrink (granted : bool) (env : alloc_env)
    (attempts : list (bool * alloc_env)) (ca : bch_dev) (nr_want : Z) :
  nr_want <= nr (ja ca) ->
  bch2_set_nr_journal_buckets ((granted, env) :: attempts) ca nr_want
  = Some (if granted then 0 else - ENOSPC, ca).
Proof.
  intros H. cbn [bch2_set_nr_journal_buckets].
  destruct granted; cbn [negb]; [|reflexivity].
  unfold __bch2_set_nr_journal_buckets.
  apply Z.leb_le in H. rewrite H. rewrite Z.eqb_refl. reflexivity.
Qed.

(** C8: a call of [__bch2_set_nr_journal_buckets] for no more buckets than
    the device has returns 0 and leaves the device, and with it buckets[],
    bucket_seq[], cur_idx, last_idx and nr, as they were. *)
Theorem set_nr_journal_buckets_no_shrink (ca : bch_dev) (nr_want : Z)
    (new_fs cl : bool) (env : alloc_env) :
  nr_want <= nr (ja ca) ->
  __bch2_set_nr_journal_buckets ca nr_want new_fs cl env = (0, ca).
Proof.
  intros H. unfold __bch2_set_nr_journal_buckets.
  apply Z.leb_le in H. rewrite H. reflexivity.
Qed.

Lemma u32_small (x : Z) : 0 <= x < 2 ^ 32 -> u32 x = x.
Proof. apply wrap_small. Qed.

Lemma u64_small (x : Z) : 0 <= x < 2 ^ 64 -> u64 x = x.
Proof. apply wrap_small. Qed.

(** The device after the insertion of one bucket, field by field. *)
Lemma journal_bucket_insert_fields (bucket : Z) (ca : bch_dev) :
  0 <= last_idx (ja ca) <= nr (ja ca) ->
  nr (ja ca) < Z.of_nat (length (buckets (ja ca))) ->
  nr (ja ca) < Z.of_nat (length (bucket_seq (ja ca))) ->
  nr (ja ca) + 1 < 2 ^ 32 ->
  0 <= cur_idx (ja ca) < 2 ^ 32 - 1 ->
  0 <= bucket < 2 ^ 64 ->
  let d := ja ca in
  let d' := ja (journal_bucket_insert bucket ca) in
  let pos := Z.to_nat (last_idx d) in
  nr d' = nr d + 1 /\
  cur_idx d' = (if (last_idx d <? nr d) && (last_idx d <=? cur_idx d)
                then cur_idx d + 1 else cur_idx d) /\
  last_idx d' = (if last_idx d <? nr d then last_idx d + 1 else last_idx d) /\
  ring_buckets d' =
    firstn pos (ring_buckets d) ++ bucket :: skipn pos (ring_buckets d) /\
  ring_bucket_seq d' =
    firstn pos (ring_bucket_seq d) ++ 0 :: skipn pos (ring_bucket_seq d).
Proof.
  intros HL Hb Hs Hn Hc Hv d d' pos. fold d in HL, Hb, Hs, Hn, Hc.
  assert (Enr : nr d' = nr d + 1).
  { unfold d', journal_bucket_insert. cbn [ja nr]. fold d. apply u32_small. lia. }
  assert (En : nr d = Z.of_nat (Z.to_nat (nr d))) by (rewrite Z2Nat.id; lia).
  assert (Ep : last_idx d = Z.of_nat pos) by (unfold pos; rewrite Z2Nat.id; lia).
  split; [exact Enr|]. split; [|split; [|split]].
  - unfold d', journal_bucket_insert. cbn [ja cur_idx]. fold d.
    destruct ((last_idx d <? nr d) && (last_idx d <=? cur_idx d)); [|reflexivity].
    apply u32_small. lia.
  - unfold d', journal_bucket_insert. cbn [ja last_idx]. fold d.
    destruct (last_idx d <? nr d); [|reflexivity].
    apply u32_small. lia.
  - unfold ring_buckets. rewrite Enr.
    unfold d', journal_bucket_insert. cbn [ja buckets]. fold d.
    replace (Z.to_nat (nr d + 1)) with (S (Z.to_nat (nr d))) by lia.
    rewrite (u64_small bucket Hv). rewrite Ep. rewrite En at 2.
    apply array_insert_view; lia.
  - unfold ring_bucket_seq. rewrite Enr.
    unfold d', journal_bucket_insert. cbn [ja bucket_seq]. fold d.
    replace (Z.to_nat (nr d + 1)) with (S (Z.to_nat (nr d))) by lia.
    rewrite Ep. rewrite En at 2.
    apply array_insert_view; lia.
Qed.


(** One pass of the loop with a bucket from the allocator is the
    insertion followed by the marking of the bucket. *)
Lemma alloc_journal_buckets_pass (fuel : nat) (nr_want : Z) (new_fs cl : bool)
    (bucket : Z) (free : list Z) (ca : bch_dev) :
  nr (ja ca) < nr_want ->
  0 <= bucket ->
  alloc_journal_buckets (S fuel) nr_want new_fs cl (bucket :: free) ca
  = alloc_journal_buckets fuel nr_want new_fs cl free
      (bch2_mark_metadata_bucket bucket (journal_bucket_insert bucket ca)).
Proof.
  intros Hn Hb. cbn [alloc_journal_buckets].
  apply Z.ltb_lt in Hn. rewrite Hn.
  destruct (bucket <? 0) eqn:Q; [apply Z.ltb_lt in Q; lia | reflexivity].
Qed.

Lemma length_array_set (i v : Z) (a : list Z) : length (array_set i v a) = length a.
Proof.
  unfold array_set.
  destruct ((0 <=? i) && (i <? Z.of_nat (length a))) eqn:Q; [|reflexivity].
  apply andb_true_iff in Q. destruct Q as [Q1 Q2].
  apply Z.leb_le in Q1. apply Z.ltb_lt in Q2.
  rewrite length_app. cbn [length]. rewrite length_firstn, length_skipn. lia.
Qed.

Lemma length_array_insert_item (a : list Z) (n pos : Z) :
  0 <= pos <= n -> n < Z.of_nat (length a) ->
  length (array_insert_item a n pos) = length a.
Proof.
  intros Hp Hn. unfold array_insert_item.
  rewrite !length_app, !length_firstn, !length_skipn. lia.
Qed.

(** The loop, when the allocator hands out the buckets [bs] one after the
    other, on a ring whose insert point lies inside it: the new buckets
    end up, in the order of their allocation, between the part of the ring
    before last_idx and the part from last_idx on. *)
Lemma alloc_journal_buckets_grows (new_fs cl : bool) (nr_want : Z) (bs : list Z) :
  forall (free : list Z) (ca : bch_dev),
    Forall (fun b => 0 <= b < 2 ^ 64) bs ->
    nr (ja ca) + Z.of_nat (length bs) = nr_want ->
    nr_want < 2 ^ 32 ->
    nr_want <= Z.of_nat (length (buckets (ja ca))) ->
    nr_want <= Z.of_nat (length (bucket_seq (ja ca))) ->
    0 <= last_idx (ja ca) < nr (ja ca) ->
    0 <= cur_idx (ja ca) < nr (ja ca) ->
    exists ca',
      alloc_journal_buckets (length bs) nr_want new_fs cl (bs ++ free) ca = (0, ca') /\
      nr (ja ca') = nr_want /\
      ring_buckets (ja ca') =
        firstn (Z.to_nat (last_idx (ja ca))) (ring_buckets (ja ca)) ++ bs ++
        skipn (Z.to_nat (last_idx (ja ca))) (ring_buckets (ja ca)) /\
      ring_bucket_seq (ja ca') =
        firstn (Z.to_nat (last_idx (ja ca))) (ring_bucket_seq (ja ca)) ++
        repeat 0 (length bs) ++
        skipn (Z.to_nat (last_idx (ja ca))) (ring_bucket_seq (ja ca)) /\
      last_idx (ja ca') = last_idx (ja ca) + Z.of_nat (length bs) /\
      cur_idx (ja ca') =
        (if last_idx (ja ca) <=? cur_idx (ja ca)
         then cur_idx (ja ca) + Z.of_nat (length bs) else cur_idx (ja ca)).
Proof.
  induction bs as [|b bs IH]; intros free ca Hbs Hn Hw Hb Hs HL Hc.
  - exists ca. cbn [length app alloc_journal_buckets repeat] in *.
    rewrite !firstn_skipn. repeat split; try lia.
    destruct (last_idx (ja ca) <=? cur_idx (ja ca)); lia.
  - inversion Hbs as [|b' bs' Hb0 Hbs']; subst b' bs'.
    cbn [length] in *. rewrite Nat2Z.inj_succ in *.
    cbn [app]. rewrite alloc_journal_buckets_pass by lia.
    pose proof (journal_bucket_insert_fields b ca) as St.
    cbv zeta in St.
    destruct St as (E1 & EC & EL & E2 & E3); try lia.
    set (ca1 := bch2_mark_metadata_bucket b (journal_bucket_insert b ca)) in *.
    assert (Eja : ja ca1 = ja (journal_bucket_insert b ca)) by reflexivity.
    rewrite <- Eja in EC, EL.
    assert (Hin : (last_idx (ja ca) <? nr (ja ca)) = true) by (apply Z.ltb_lt; lia).
    rewrite Hin in EC, EL. cbn [andb] in EC.
    assert (Elb : length (buckets (ja ca1)) = length (buckets (ja ca))).
    { rewrite Eja. unfold journal_bucket_insert. cbn [ja buckets].
      rewrite length_array_set, length_array_insert_item; lia. }
    assert (Els : length (bucket_seq (ja ca1)) = length (bucket_seq (ja ca))).
    { rewrite Eja. unfold journal_bucket_insert. cbn [ja bucket_seq].
      rewrite length_array_set, length_array_insert_item; lia. }
    rewrite <- Eja in E1, E2, E3.
    destruct (IH free ca1) as (ca' & R & N & B & Q & L & C); try lia; try assumption.
    { rewrite EC. destruct (last_idx (ja ca) <=? cur_idx (ja ca)); lia. }
    exists ca'. split; [exact R|]. split; [exact N|].
    set (pos := Z.to_nat (last_idx (ja ca))) in *.
    assert (Ep1 : Z.to_nat (last_idx (ja ca1)) = S pos) by (unfold pos; lia).
    assert (Hrb : (pos <= length (ring_buckets (ja ca)))%nat).
    { unfold ring_buckets. rewrite firstn_length_le; lia. }
    assert (Hrs : (pos <= length (ring_bucket_seq (ja ca)))%nat).
    { unfold ring_bucket_seq. rewrite firstn_length_le; lia. }
    assert (F : forall (l : list Z) (x : Z), (pos <= length l)%nat ->
              firstn (S pos) (firstn pos l ++ x :: skipn pos l) = firstn pos l ++ [x] /\
              skipn (S pos) (firstn pos l ++ x :: skipn pos l) = skipn pos l).
    { intros l x Hl.
      assert (Hx : length (firstn pos l) = pos) by (apply firstn_length_le; lia).
      split.
      - rewrite firstn_app, Hx. rewrite (firstn_all2 (n := S pos) (firstn pos l)) by lia.
        replace (S pos - pos)%nat with 1%nat by lia. reflexivity.
      - rewrite skipn_app, Hx. rewrite (skipn_all2 (n := S pos) (firstn pos l)) by lia.
        replace (S pos - pos)%nat with 1%nat by lia. reflexivity. }
    split; [|split; [|split]].
    + rewrite B, Ep1, E2. destruct (F (ring_buckets (ja ca)) b Hrb) as [-> ->].
      rewrite <- app_assoc. reflexivity.
    + rewrite Q, Ep1, E3. destruct (F (ring_bucket_seq (ja ca)) 0 Hrs) as [-> ->].
      rewrite <- app_assoc. reflexivity.
    + rewrite L, EL. lia.
    + rewrite C, EL, EC.
      destruct (last_idx (ja ca) <=? cur_idx (ja ca)) eqn:Q1.
      * apply Z.leb_le in Q1.
        destruct (last_idx (ja ca) + 1 <=? cur_idx (ja ca) + 1) eqn:Q2; [lia|].
        apply Z.leb_gt in Q2. lia.
      * apply Z.leb_gt in Q1.
        destruct (last_idx (ja ca) + 1 <=? cur_idx (ja ca)) eqn:Q2; [|reflexivity].
        apply Z.leb_le in Q2. lia.
Qed.

Lemma ring_of_grown_array (nr_want n : Z) (a : list Z) :
  0 <= n <= Z.of_nat (length a) -> n <= nr_want ->
  length (grown_array nr_want n a) = Z.to_nat nr_want /\
  firstn (Z.to_nat n) (grown_array nr_want n a) = firstn (Z.to_nat n) a.
Proof.
  intros Hn Hw. unfold grown_array.
  assert (Hx : length (firstn (Z.to_nat n) a) = Z.to_nat n) by (apply firstn_length_le; lia).
  split.
  - rewrite length_app, Hx, repeat_length. lia.
  - rewrite firstn_app, Hx, firstn_firstn.
    replace (Nat.min (Z.to_nat n) (Z.to_nat n)) with (Z.to_nat n) by lia.
    replace (Z.to_nat n - Z.to_nat n)%nat with 0%nat by lia.
    rewrite firstn_O, app_nil_r. reflexivity.
Qed.

(** [__bch2_set_nr_journal_buckets] as a whole, growing a ring whose
    insert point lies inside it by the buckets [bs] the allocator hands
    out: it returns 0, the ring has the wanted size, the new buckets sit
    at last_idx in the order of their allocation between the old ones,
    which keep their order, and cur_idx has moved with its bucket. *)
Lemma set_nr_journal_buckets_grows (ca : bch_dev) (nr_want : Z) (new_fs cl : bool)
    (env : alloc_env) (bs free : list Z) :
  kzalloc_ok env = true ->
  sb_resize_ok env = true ->
  free_buckets env = bs ++ free ->
  Forall (fun b => 0 <= b < 2 ^ 64) bs ->
  bs <> [] ->
  nr (ja ca) + Z.of_nat (length bs) = nr_want ->
  nr_want < 2 ^ 32 ->
  nr (ja ca) <= Z.of_nat (length (buckets (ja ca))) ->
  nr (ja ca) <= Z.of_nat (length (bucket_seq (ja ca))) ->
  0 <= last_idx (ja ca) < nr (ja ca) ->
  0 <= cur_idx (ja ca) < nr (ja ca) ->
  exists ca',
    __bch2_set_nr_journal_buckets ca nr_want new_fs cl env = (0, ca') /\
    nr (ja ca') = nr_want /\
    ring_buckets (ja ca') =
      firstn (Z.to_nat (last_idx (ja ca))) (ring_buckets (ja ca)) ++ bs ++
      skipn (Z.to_nat (last_idx (ja ca))) (ring_buckets (ja ca)) /\
    ring_bucket_seq (ja ca') =
      firstn (Z.to_nat (last_idx (ja ca))) (ring_bucket_seq (ja ca)) ++
      repeat 0 (length bs) ++
      skipn (Z.to_nat (last_idx (ja ca))) (ring_bucket_seq (ja ca)) /\
    last_idx (ja ca') = last_idx (ja ca) + Z.of_nat (length bs) /\
    cur_idx (ja ca') =
      (if last_idx (ja ca) <=? cur_idx (ja ca)
       then cur_idx (ja ca) + Z.of_nat (length bs) else cur_idx (ja ca)).
Proof.
  intros Hk Hr Hf Hbs Hne Hn Hw Hb Hs HL Hc.
  assert (Hlen : (0 < length bs)%nat) by (destruct bs; [congruence | cbn; lia]).
  unfold __bch2_set_nr_journal_buckets.
  destruct (nr_want <=? nr (ja ca)) eqn:Q; [apply Z.leb_le in Q; lia|].
  rewrite Hk, Hr, Hf. cbn [negb].
  replace (Z.to_nat (nr_want - nr (ja ca))) with (length bs) by lia.
  destruct (ring_of_grown_array nr_want (nr (ja ca)) (buckets (ja ca))) as [Lb Rb]; try lia.
  destruct (ring_of_grown_array nr_want (nr (ja ca)) (bucket_seq (ja ca))) as [Ls Rs]; try lia.
  match goal with |- context [alloc_journal_buckets _ _ _ _ _ ?c] => set (ca0 := c) end.
  destruct (alloc_journal_buckets_grows new_fs cl nr_want bs free ca0)
    as (ca' & R & N & B & S & L & C); try assumption;
    try (unfold ca0; cbn [ja nr buckets bucket_seq last_idx cur_idx]; lia).
  exists ca'. split; [exact R|]. split; [exact N|].
  assert (Eb : ring_buckets (ja ca0) = ring_buckets (ja ca)) by exact Rb.
  assert (Es : ring_bucket_seq (ja ca0) = ring_bucket_seq (ja ca)) by exact Rs.
  rewrite Eb in B. rewrite Es in S.
  split; [exact B|]. split; [exact S|]. split; [exact L | exact C].
Qed.

End Ring.

(** * Further properties of journal.c *)

(** ** Sequencing *)

Lemma bind_Done {A B : Type} (c : M A) (k : A -> M B) (j : journal) (b : B) (j' : journal) :
  bind c k j = Done b j' ->
  exists a j1, c j = Done a j1 /\ k a j1 = Done b j'.
Proof.
  unfold bind. destruct (c j) as [a j1| | | |]; try discriminate.
  intros H. exists a, j1. split; [reflexivity | exact H].
Qed.

(** Peel the binds off a hypothesis [H : (c1 ;; c2 ;; ...) j = Done r j']. *)
Ltac peel H :=
  repeat (let a := fresh "a" in let j1 := fresh "j" in let E := fresh "E" in
          apply bind_Done in H; destruct H as (a & j1 & E & H); cbv beta in H).

Section MoreProperties.

Context {K : journal_consts} {X : journal_externs}.

(** ** journal_buf_switch when it does not close *)

Lemma journal_buf_switch_body_leave_code (s : journal_res_state) (r : buf_switch_ret) :
  journal_buf_switch_body s = Leave r ->
  (r = JOURNAL_ENTRY_CLOSED <-> cur_entry_offset s = JOURNAL_ENTRY_CLOSED_VAL) /\
  (r = JOURNAL_ENTRY_ERROR <-> cur_entry_offset s = JOURNAL_ENTRY_ERROR_VAL) /\
  (r = JOURNAL_ENTRY_INUSE <->
     cur_entry_offset s <> JOURNAL_ENTRY_CLOSED_VAL /\
     cur_entry_offset s <> JOURNAL_ENTRY_ERROR_VAL /\
     prev_buf_unwritten s = true).
Proof.
  unfold journal_buf_switch_body. pose proof CLOSED_lt_ERROR as Hlt.
  destruct (cur_entry_offset s =? JOURNAL_ENTRY_CLOSED_VAL) eqn:Q1.
  { apply Z.eqb_eq in Q1. intros E. inversion E; subst.
    repeat split; intros; try discriminate; try tauto; try lia. }
  apply Z.eqb_neq in Q1.
  destruct (cur_entry_offset s =? JOURNAL_ENTRY_ERROR_VAL) eqn:Q2.
  { apply Z.eqb_eq in Q2. intros E. inversion E; subst.
    repeat split; intros; try discriminate; try tauto; try lia. }
  apply Z.eqb_neq in Q2.
  destruct (prev_buf_unwritten s) eqn:Q3.
  { intros E. inversion E; subst.
    repeat split; intros; try discriminate; try tauto. }
  match goal with |- context [if ?c then Crash else _] => destruct c end; discriminate.
Qed.

(** The tail of [journal_buf_switch], once the exchange went through, can
    only return JOURNAL_UNLOCKED. *)
Lemma journal_buf_switch_swapped_code (need_write_just_set : bool) (j : journal)
    (old new : journal_res_state) (rest : list journal_res_state)
    (r : buf_switch_ret) (j' : journal) :
  cmpxchg_loop journal_buf_switch_body (racing j) (reservations j) = Swapped old new rest ->
  journal_buf_switch need_write_just_set j = Done r j' ->
  r = JOURNAL_UNLOCKED.
Proof.
  intros E. unfold journal_buf_switch. unfold bind at 1, get. rewrite E.
  intros H. peel H. unfold ret in H. inversion H. reflexivity.
Qed.

Lemma journal_buf_switch_without_close (need_write_just_set : bool)
    (j : journal) (r : buf_switch_ret) (j' : journal) :
  journal_buf_switch need_write_just_set j = Done r j' ->
  r <> JOURNAL_UNLOCKED ->
  exists v rest,
    In v (reservations j :: racing j) /\
    j' = set_racing rest (set_reservations v j) /\
    (r = JOURNAL_ENTRY_CLOSED <-> cur_entry_offset v = JOURNAL_ENTRY_CLOSED_VAL) /\
    (r = JOURNAL_ENTRY_ERROR <-> cur_entry_offset v = JOURNAL_ENTRY_ERROR_VAL) /\
    (r = JOURNAL_ENTRY_INUSE <->
       cur_entry_offset v <> JOURNAL_ENTRY_CLOSED_VAL /\
       cur_entry_offset v <> JOURNAL_ENTRY_ERROR_VAL /\
       prev_buf_unwritten v = true).
Proof.
  intros H Hr.
  destruct (cmpxchg_loop journal_buf_switch_body (racing j) (reservations j))
    as [r0 v rest|old new rest|] eqn:E.
  - pose proof (cmpxchg_loop_returned _ _ _ _ _ _ E) as [Eb Hin].
    unfold journal_buf_switch in H. unfold bind at 1, get in H. rewrite E in H.
    unfold bind, commit, modify, ret in H. inversion H; subst.
    exists v, rest. split; [exact Hin|]. split; [reflexivity|].
    apply journal_buf_switch_body_leave_code. exact Eb.
  - exfalso. apply Hr. exact (journal_buf_switch_swapped_code _ _ _ _ _ _ _ E H).
  - unfold journal_buf_switch in H. unfold bind at 1, get in H. rewrite E in H.
    discriminate.
Qed.

(** Whenever [journal_buf_switch] returns a code other than
    JOURNAL_UNLOCKED it has changed nothing: the lock is still held,
    NEED_WRITE, the buffers, the sequence number and the pin fifo are as
    they were, and the journal differs from the one on entry at most by the
    word [v] last read from the reservation state.  The code tells what
    that word holds: CLOSED, ERROR, or an open entry whose predecessor is
    still being written. *)
Theorem journal_buf_switch_leaves_journal (need_write_just_set : bool)
    (j : journal) (r : buf_switch_ret) (j' : journal) :
  journal_buf_switch need_write_just_set j = Done r j' ->
  r <> JOURNAL_UNLOCKED ->
  exists v rest,
    In v (reservations j :: racing j) /\
    j' = set_racing rest (set_reservations v j) /\
    (r = JOURNAL_ENTRY_CLOSED <-> cur_entry_offset v = JOURNAL_ENTRY_CLOSED_VAL) /\
    (r = JOURNAL_ENTRY_ERROR <-> cur_entry_offset v = JOURNAL_ENTRY_ERROR_VAL) /\
    (r = JOURNAL_ENTRY_INUSE <->
       cur_entry_offset v <> JOURNAL_ENTRY_CLOSED_VAL /\
       cur_entry_offset v <> JOURNAL_ENTRY_ERROR_VAL /\
       prev_buf_unwritten v = true).
Proof. exact (journal_buf_switch_without_close need_write_just_set j r j'). Qed.

(** ** The transition into ERROR *)

(** A halt of a journal that is not yet in the ERROR state, with no other
    CPU writing the word meanwhile: only cur_entry_offset changes in the
    word (the counts, idx and prev_buf_unwritten stay), the journal wait
    queue is woken, then the closures of the current buffer and those of
    the previous buffer, each list exactly as it stood, and both lists end
    empty. *)
Theorem bch2_journal_halt_transition (j : journal) :
  cur_entry_offset (reservations j) <> JOURNAL_ENTRY_ERROR_VAL ->
  racing j = [] ->
  exists j',
    bch2_journal_halt j = Done tt j' /\
    reservations j' = set_cur_entry_offset JOURNAL_ENTRY_ERROR_VAL (reservations j) /\
    log j' = closure_wake_up (wait (journal_prev_buf j))
             :: closure_wake_up (wait (journal_cur_buf j))
             :: journal_wake :: log j /\
    wait (buf0 j') = [] /\ wait (buf1 j') = [] /\
    lock j' = lock j /\ need_write j' = need_write j /\ j_seq j' = j_seq j /\
    pin j' = pin j.
Proof.
  intros H Hr. unfold bch2_journal_halt, bind at 1, get. rewrite Hr.
  cbn [cmpxchg_loop]. unfold bch2_journal_halt_body.
  apply Z.eqb_neq in H. rewrite H. rewrite ERROR_VAL_fits.
  unfold closure_wake_up_buf, journal_cur_buf, journal_prev_buf. run.
  destruct (idx (reservations j)) eqn:I; repeat (rsimpl; rewrite I); rsimpl;
    eexists; repeat split; reflexivity.
Qed.

(** ** What journal_entry_open returns, and what it leaves when it succeeds *)

(** [journal_entry_open] returns 1, 0, [-EIO], or the non-positive answer
    of [bch2_journal_entry_sectors] (0, or an error such as [-EROFS]). *)
Theorem journal_entry_open_returns (j : journal) (r : Z) (j' : journal) :
  journal_entry_open j = Done r j' ->
  r = 1 \/ r = 0 \/ r = - EIO \/
  (r = bch2_journal_entry_sectors j /\ r <= 0).
Proof.
  unfold journal_entry_open. run.
  destruct (journal_entry_is_open j); try discriminate.
  destruct (fifo_free (pin j) =? 0).
  { intros E. inversion E. auto. }
  destruct (bch2_journal_entry_sectors j <=? 0) eqn:Q.
  { intros E. inversion E; subst. apply Z.leb_le in Q. auto. }
  destruct (idx (reservations j)) eqn:I; rsimpl.
  - destruct (JOURNAL_ENTRY_CLOSED_VAL <=? _) eqn:Q1; try discriminate.
    destruct (_ <=? jset_u64s _).
    { intros E. inversion E. auto. }
    match goal with |- context [cmpxchg_loop ?b ?r ?v] =>
      destruct (cmpxchg_loop b r v) as [r0 v0 rest|old new rest|] eqn:E end;
      try discriminate.
    + apply cmpxchg_loop_returned in E. destruct E as [E _].
      unfold journal_entry_open_body in E.
      destruct (cur_entry_offset v0 =? JOURNAL_ENTRY_ERROR_VAL); try discriminate.
      inversion E; subst. intros E'. inversion E'. auto.
    + destruct (negb _); intros E'; inversion E'; auto.
  - destruct (JOURNAL_ENTRY_CLOSED_VAL <=? _) eqn:Q1; try discriminate.
    destruct (_ <=? jset_u64s _).
    { intros E. inversion E. auto. }
    match goal with |- context [cmpxchg_loop ?b ?r ?v] =>
      destruct (cmpxchg_loop b r v) as [r0 v0 rest|old new rest|] eqn:E end;
      try discriminate.
    + apply cmpxchg_loop_returned in E. destruct E as [E _].
      unfold journal_entry_open_body in E.
      destruct (cur_entry_offset v0 =? JOURNAL_ENTRY_ERROR_VAL); try discriminate.
      inversion E; subst. intros E'. inversion E'. auto.
    + destruct (negb _); intros E'; inversion E'; auto.
Qed.

Lemma entry_open_u64s_nonneg (sectors buf_size : Z) :
  0 <= entry_open_u64s sectors buf_size.
Proof. unfold entry_open_u64s. apply Z.le_max_l. Qed.

(** When [journal_entry_open] returns 1 the entry is open: the offset in
    the word is the number of u64s already in the buffer, it lies below
    both CLOSED and the published [cur_entry_u64s], so that there is room
    for a reservation, and the blocked-since time stamp is reset. *)
Theorem journal_entry_open_opens (j j' : journal) :
  journal_entry_open j = Done 1 j' ->
  0 <= jset_u64s (data (journal_cur_buf j)) ->
  cur_entry_offset (reservations j') = jset_u64s (data (journal_cur_buf j)) /\
  journal_entry_is_open j' = true /\
  cur_entry_offset (reservations j') < cur_entry_u64s j' /\
  res_get_blocked_start j' = 0.
Proof.
  unfold journal_entry_open. run.
  destruct (journal_entry_is_open j); try discriminate.
  destruct (fifo_free (pin j) =? 0); try discriminate.
  destruct (bch2_journal_entry_sectors j <=? 0) eqn:Q.
  { intros E. inversion E as [[E1 E2]]. apply Z.leb_le in Q. lia. }
  unfold journal_cur_buf, journal_entry_is_open.
  pose proof CLOSED_VAL_range as HC. pose proof OFFSET_BITS_range as HO.
  assert (HP : 2 ^ OFFSET_BITS <= 2 ^ 32) by (apply Z.pow_le_mono_r; lia).
  destruct (idx (reservations j)) eqn:I; rsimpl.
  - set (u := entry_open_u64s (bch2_journal_entry_sectors j) (size (buf1 j))).
    assert (Hu : 0 <= u) by apply entry_open_u64s_nonneg. clearbody u.
    set (sx := entry_open_sectors (bch2_journal_entry_sectors j) (size (buf1 j))).
    clearbody sx.
    destruct (JOURNAL_ENTRY_CLOSED_VAL <=? u) eqn:Q1; try discriminate.
    destruct (u <=? jset_u64s (data (buf1 j))) eqn:Q2; try discriminate.
    apply Z.leb_gt in Q1, Q2.
    match goal with |- context [cmpxchg_loop ?b ?r ?v] =>
      destruct (cmpxchg_loop b r v) as [r0 v0 rest|old new rest|] eqn:E end;
      try discriminate.
    + apply cmpxchg_loop_returned in E. destruct E as [E _].
      unfold journal_entry_open_body in E.
      destruct (cur_entry_offset v0 =? JOURNAL_ENTRY_ERROR_VAL); try discriminate.
      inversion E; subst. discriminate.
    + apply cmpxchg_loop_swapped in E. destruct E as [E _].
      unfold journal_entry_open_body in E.
      destruct (cur_entry_offset old =? JOURNAL_ENTRY_ERROR_VAL); try discriminate.
      inversion E; subst; clear E.
      intros Hd Hn.
      assert (W : wrap OFFSET_BITS (jset_u64s (data (buf1 j))) = jset_u64s (data (buf1 j)))
        by (apply wrap_small; lia).
      assert (U : u32 u = u) by (apply wrap_small; lia).
      destruct (negb _); inversion Hd; subst; rsimpl; rewrite W, ?U;
        (split; [reflexivity | split; [apply Z.ltb_lt; lia | split; [lia | reflexivity]]]).
  - set (u := entry_open_u64s (bch2_journal_entry_sectors j) (size (buf0 j))).
    assert (Hu : 0 <= u) by apply entry_open_u64s_nonneg. clearbody u.
    set (sx := entry_open_sectors (bch2_journal_entry_sectors j) (size (buf0 j))).
    clearbody sx.
    destruct (JOURNAL_ENTRY_CLOSED_VAL <=? u) eqn:Q1; try discriminate.
    destruct (u <=? jset_u64s (data (buf0 j))) eqn:Q2; try discriminate.
    apply Z.leb_gt in Q1, Q2.
    match goal with |- context [cmpxchg_loop ?b ?r ?v] =>
      destruct (cmpxchg_loop b r v) as [r0 v0 rest|old new rest|] eqn:E end;
      try discriminate.
    + apply cmpxchg_loop_returned in E. destruct E as [E _].
      unfold journal_entry_open_body in E.
      destruct (cur_entry_offset v0 =? JOURNAL_ENTRY_ERROR_VAL); try discriminate.
      inversion E; subst. discriminate.
    + apply cmpxchg_loop_swapped in E. destruct E as [E _].
      unfold journal_entry_open_body in E.
      destruct (cur_entry_offset old =? JOURNAL_ENTRY_ERROR_VAL); try discriminate.
      inversion E; subst; clear E.
      intros Hd Hn.
      assert (W : wrap OFFSET_BITS (jset_u64s (data (buf0 j))) = jset_u64s (data (buf0 j)))
        by (apply wrap_small; lia).
      assert (U : u32 u = u) by (apply wrap_small; lia).
      destruct (negb _); inversion Hd; subst; rsimpl; rewrite W, ?U;
        (split; [reflexivity | split; [apply Z.ltb_lt; lia | split; [lia | reflexivity]]]).
Qed.

(** ** The pin fifo and the sequence number *)

(** [journal_pin_new_entry] moves the sequence number and the pin fifo
    together: when the fifo has a free slot it returns, having added one
    to [j->seq] and one entry, holding the given count and empty lists, at
    the back of the fifo, so that [seq - fifo_used], from which the last
    sequence number is computed, is as before; it touches nothing else. *)
Theorem journal_pin_new_entry_in_step (count : Z) (j : journal) :
  0 <= j_seq j < 2 ^ 64 - 1 ->
  0 < fifo_free (pin j) ->
  exists j',
    journal_pin_new_entry count j = Done tt j' /\
    j' = set_pin (pin j') (set_j_seq (j_seq j') j) /\
    j_seq j' = j_seq j + 1 /\
    fifo_size (pin j') = fifo_size (pin j) /\
    fifo_data (pin j') =
      fifo_data (pin j) ++ [{| pin_count := count; pin_list := [];
                               pin_flushed := []; pin_devs_nr := 0 |}] /\
    fifo_free (pin j') = fifo_free (pin j) - 1 /\
    j_seq j' - Z.of_nat (length (fifo_data (pin j')))
      = j_seq j - Z.of_nat (length (fifo_data (pin j))).
Proof.
  intros Hs Hf. unfold journal_pin_new_entry, fifo_push_ref. run.
  assert (U : u64 (j_seq j + 1) = j_seq j + 1) by (apply wrap_small; lia).
  destruct (fifo_free (pin j) <=? 0) eqn:Q; [apply Z.leb_le in Q; lia|].
  eexists. split; [reflexivity|]. rsimpl. unfold fifo_free in *. rsimpl.
  rewrite U, length_app. cbn [length].
  split; [reflexivity|]. repeat split; lia.
Qed.

(** ** What a reservation returns *)

Ltac step H :=
  let a := fresh "a" in let j1 := fresh "j" in let E := fresh "E" in
  apply bind_Done in H; destruct H as (a & j1 & E & H); cbv beta in H.

Lemma res_get_blocked_returns (j : journal) (r : Z) (t : option journal_res) (j' : journal) :
  res_get_blocked j = Done (r, t) j' -> r = 0 /\ t = None.
Proof.
  unfold res_get_blocked. intros H. step H. step H.
  unfold ret in H. inversion H. split; reflexivity.
Qed.

(** [__journal_res_get] returns 1 together with a ticket, or a value that
    is not positive and no ticket. *)
Lemma journal_res_get_returns (fuel : nat) (u64s_min u64s_max : Z) :
  forall (j : journal) (r : Z) (t : option journal_res) (j' : journal),
    __journal_res_get fuel u64s_min u64s_max j = Done (r, t) j' ->
    (r = 1 /\ exists tk, t = Some tk) \/ (r <= 0 /\ t = None).
Proof.
  induction fuel as [|fuel IH]; intros j r t j' H; [discriminate|].
  cbn [__journal_res_get] in H.
  step H. destruct a as [tk|].
  { unfold ret in H. inversion H. left. split; [reflexivity | exists tk; reflexivity]. }
  step H. step H. destruct a0 as [tk|].
  { step H. unfold ret in H. inversion H.
    left. split; [reflexivity | exists tk; reflexivity]. }
  step H. step H. step H. destruct a2.
  - step H. unfold ret in H. inversion H. right. split; [unfold EROFS; lia | reflexivity].
  - step H. step H. right. apply res_get_blocked_returns in H.
    destruct H as [-> ->]. split; [lia | reflexivity].
  - step H. step H.
    destruct (a2 <? 0) eqn:Q.
    { unfold ret in H. inversion H; subst. apply Z.ltb_lt in Q.
      right. split; [lia | reflexivity]. }
    destruct (negb (a2 =? 0)).
    { exact (IH _ _ _ _ H). }
    step H. step H. right. apply res_get_blocked_returns in H.
    destruct H as [-> ->]. split; [lia | reflexivity].
  - exact (IH _ _ _ _ H).
Qed.

Lemma wait_event_Done {A : Type} (cond : M A) (truth : A -> bool)
    (ws : list (journal -> journal)) :
  forall (j : journal) (a : A) (j' : journal),
    wait_event cond truth ws j = Done a j' ->
    truth a = true /\ exists j0, cond j0 = Done a j'.
Proof.
  induction ws as [|w ws IH]; intros j a j' H; cbn [wait_event] in H;
    destruct (cond j) as [a0 j0| | | |] eqn:E; try discriminate;
    destruct (truth a0) eqn:T; try discriminate.
  - inversion H; subst. split; [exact T | exists j; exact E].
  - inversion H; subst. split; [exact T | exists j; exact E].
  - exact (IH _ _ _ H).
Qed.

(** [bch2_journal_res_get_slowpath] returns 0 exactly when it hands out a
    ticket; every other return value is a negative error, and then there
    is no ticket.  It never returns the 1 of [__journal_res_get], nor a 0
    that stands for "blocked". *)
Theorem bch2_journal_res_get_slowpath_returns (fuel : nat) (u64s_min u64s_max : Z)
    (ws : list (journal -> journal)) (j : journal)
    (r : Z) (t : option journal_res) (j' : journal) :
  bch2_journal_res_get_slowpath fuel u64s_min u64s_max ws j = Done (r, t) j' ->
  (r = 0 /\ exists tk, t = Some tk) \/ (r < 0 /\ t = None).
Proof.
  unfold bch2_journal_res_get_slowpath. intros H. step H.
  destruct a as [r0 t0]. apply wait_event_Done in E. destruct E as [T [jw E]].
  cbn [fst snd] in *. unfold ret in H. inversion H; subst; clear H.
  apply journal_res_get_returns in E.
  destruct E as [[-> [tk ->]] | [Hr ->]].
  - left. split; [reflexivity | exists tk; reflexivity].
  - right. apply negb_true_iff, Z.eqb_neq in T.
    destruct (r0 <? 0) eqn:Q; [apply Z.ltb_lt in Q | apply Z.ltb_ge in Q; lia].
    split; [exact Q | reflexivity].
Qed.

(** ** A full entry whose predecessor is still being written *)

Lemma journal_res_get_fast_no_room (u64s_min u64s_max : Z) (j : journal) :
  cur_entry_u64s j < cur_entry_offset (reservations j) + u64s_min ->
  journal_res_get_fast u64s_min u64s_max j = Done None j.
Proof.
  intros H. unfold journal_res_get_fast, bind, get.
  rewrite (cmpxchg_loop_leave _ _ _ tt).
  - unfold commit, modify, ret. rewrite journal_eta. reflexivity.
  - unfold journal_res_get_fast_body.
    destruct (cur_entry_offset (reservations j) + u64s_min <=? cur_entry_u64s j) eqn:Q;
      [apply Z.leb_le in Q; lia | reflexivity].
Qed.

Lemma journal_buf_switch_inuse (need_write_just_set : bool) (j : journal) :
  cur_entry_offset (reservations j) < JOURNAL_ENTRY_CLOSED_VAL ->
  prev_buf_unwritten (reservations j) = true ->
  journal_buf_switch need_write_just_set j = Done JOURNAL_ENTRY_INUSE j.
Proof.
  intros Ho Hp. unfold journal_buf_switch, bind, get.
  rewrite (cmpxchg_loop_leave _ _ _ JOURNAL_ENTRY_INUSE).
  - unfold commit, modify, ret. rewrite journal_eta. reflexivity.
  - unfold journal_buf_switch_body. pose proof CLOSED_lt_ERROR.
    destruct (cur_entry_offset (reservations j) =? JOURNAL_ENTRY_CLOSED_VAL) eqn:Q1;
      [apply Z.eqb_eq in Q1; lia|].
    destruct (cur_entry_offset (reservations j) =? JOURNAL_ENTRY_ERROR_VAL) eqn:Q2;
      [apply Z.eqb_eq in Q2; lia|].
    rewrite Hp. reflexivity.
Qed.

(** A reservation that does not fit in the open entry while the previous
    buffer is still being written must wait: [__journal_res_get] returns 0
    with the lock released and the word untouched, traces the event, asks
    for a buffer no smaller than before, and records since when
    reservations are blocked: a time stamp already set is left alone,
    otherwise it is set to a non-zero time. *)
Theorem journal_res_get_blocked_by_write (fuel : nat) (u64s_min u64s_max : Z)
    (j : journal) :
  cur_entry_u64s j < cur_entry_offset (reservations j) + u64s_min ->
  cur_entry_offset (reservations j) < JOURNAL_ENTRY_CLOSED_VAL ->
  prev_buf_unwritten (reservations j) = true ->
  exists j',
    __journal_res_get (S fuel) u64s_min u64s_max j = Done (0, None) j' /\
    reservations j' = reservations j /\
    lock j' = false /\
    log j' = trace_journal_entry_full :: log j /\
    res_get_blocked_start j' <> 0 /\
    (res_get_blocked_start j <> 0 -> res_get_blocked_start j' = res_get_blocked_start j) /\
    buf_size_want j <= buf_size_want j'.
Proof.
  intros Hn Ho Hp. cbn [__journal_res_get]. unfold bind at 1.
  rewrite (journal_res_get_fast_no_room _ _ j Hn).
  unfold bind at 1, spin_lock at 1, modify at 1. unfold bind at 1.
  rewrite (journal_res_get_fast_no_room _ _ (set_lock true j) Hn).
  unfold bind at 1, get at 1. unfold bind at 1.
  set (g := journal_entry_is_open (set_lock true j) &&
            (Z.shiftr (size (journal_cur_buf (set_lock true j))) 9
               <? disk_sectors (journal_cur_buf (set_lock true j))) &&
            (size (journal_cur_buf (set_lock true j)) <? JOURNAL_ENTRY_SIZE_MAX)).
  set (w := Z.max (buf_size_want (set_lock true j))
              (u32 (Z.shiftl (size (journal_cur_buf (set_lock true j))) 1))).
  assert (Hw : buf_size_want j <= w) by (unfold w; rsimpl; lia).
  clearbody w.
  assert (G : exists j1,
             when g (modify (set_buf_size_want w)) (set_lock true j) = Done tt j1 /\
             reservations j1 = reservations j /\ log j1 = log j /\
             res_get_blocked_start j1 = res_get_blocked_start j /\
             buf_size_want j <= buf_size_want j1).
  { destruct g; unfold when, modify, ret; eexists; (split; [reflexivity|]); rsimpl;
      repeat split; try reflexivity; lia. }
  destruct G as (j1 & -> & R1 & L1 & B1 & W1).
  unfold bind at 1.
  rewrite (journal_buf_switch_inuse false j1) by (rewrite R1; assumption).
  unfold res_get_blocked. run.
  destruct (res_get_blocked_start j1 =? 0) eqn:Q; rsimpl;
    eexists; (split; [reflexivity|]); rsimpl; rewrite ?R1, ?L1;
    repeat split; try reflexivity; try lia.
  destruct (local_clock _ =? 0) eqn:Q'; [discriminate | apply Z.eqb_neq in Q'; exact Q'].
Qed.

(** ** Waiting for a sequence number *)

Lemma wait_event_killable_first {A : Type} (cond : M A) (truth : A -> bool)
    (ws : list wakeup) (j : journal) (a : A) (j' : journal) :
  cond j = Done a j' -> truth a = true ->
  wait_event_killable cond truth ws j = Done (0, a) j'.
Proof. intros E T. destruct ws; cbn [wait_event_killable]; rewrite E, T; reflexivity. Qed.

Lemma wait_event_killable_Bug {A : Type} (cond : M A) (truth : A -> bool)
    (ws : list wakeup) (j : journal) :
  cond j = Bug -> wait_event_killable cond truth ws j = Bug.
Proof. intros E. destruct ws; cbn [wait_event_killable]; rewrite E; reflexivity. Qed.

Lemma journal_seq_flushed_beyond (seq : Z) (j : journal) :
  journal_cur_seq j < seq -> journal_seq_flushed seq j = Bug.
Proof.
  intros H. unfold journal_seq_flushed. run.
  apply Z.ltb_lt in H. unfold journal_cur_seq in H. rewrite H. reflexivity.
Qed.

(** A sequence number beyond the current one is a programmer's error:
    every function that waits for, flushes or opens a given sequence
    number hits its [BUG_ON]. *)
Theorem seq_beyond_current_is_a_bug (seq : Z) (j : journal) (ws : list wakeup)
    (parent : option closure) (cl : closure) :
  journal_cur_seq j < seq ->
  bch2_journal_flush_seq seq ws j = Bug /\
  bch2_journal_flush_seq_async seq parent j = Bug /\
  bch2_journal_wait_on_seq seq cl j = Bug /\
  bch2_journal_open_seq_async seq cl j = Bug.
Proof.
  intros H. pose proof (journal_seq_flushed_beyond seq j H) as F.
  apply Z.ltb_lt in H. unfold journal_cur_seq in H.
  repeat split.
  - unfold bch2_journal_flush_seq, bind at 1, get.
    unfold bind. rewrite (wait_event_killable_Bug _ _ _ _ F). reflexivity.
  - unfold bch2_journal_flush_seq_async. run. rewrite H. reflexivity.
  - unfold bch2_journal_wait_on_seq. run. rewrite H. reflexivity.
  - unfold bch2_journal_open_seq_async. run. rewrite H. reflexivity.
Qed.

(** In the ERROR state [bch2_journal_wait_on_seq] and
    [bch2_journal_flush_seq_async] return at once: no closure is queued on
    a buffer, NEED_WRITE is not set and no entry is closed; apart from the
    lock, taken and released, the journal is as it was. *)
Theorem no_waiting_in_error (seq : Z) (j : journal)
    (parent : option closure) (cl : closure) :
  cur_entry_offset (reservations j) = JOURNAL_ENTRY_ERROR_VAL ->
  seq <= journal_cur_seq j ->
  bch2_journal_wait_on_seq seq cl j = Done tt (set_lock false j) /\
  bch2_journal_flush_seq_async seq parent j = Done tt (set_lock false j).
Proof.
  intros H Hs. unfold journal_cur_seq in Hs.
  assert (B : (j_seq j <? seq) = false) by (apply Z.ltb_ge; exact Hs).
  split.
  - unfold bch2_journal_wait_on_seq, bch2_journal_error. run. rewrite B, H, Z.eqb_refl.
    reflexivity.
  - unfold bch2_journal_flush_seq_async, bch2_journal_error. run. rewrite B, H, Z.eqb_refl.
    reflexivity.
Qed.

(** [bch2_journal_wait_on_seq] and [bch2_journal_last_unwritten_seq]
    agree on what is still to be written.  Outside the ERROR state, a
    closure that waits nowhere else is queued exactly when its sequence
    number is not below the last unwritten one: on the current buffer for
    the current sequence number, on the previous buffer for the one
    before; below that it is not queued at all.  Nothing else changes: the
    wait does not force a write. *)
Theorem wait_on_seq_queues_unwritten (seq : Z) (cl : closure) (j : journal) :
  cur_entry_offset (reservations j) <> JOURNAL_ENTRY_ERROR_VAL ->
  cl_waiting cl = false ->
  0 <= seq <= journal_cur_seq j ->
  0 < journal_cur_seq j < 2 ^ 64 ->
  let unwritten :=
    if prev_buf_unwritten (reservations j)
    then journal_cur_seq j - 1 else journal_cur_seq j in
  let queue (b : bool) :=
    upd_buf b (fun buf => set_wait (cl_id cl :: wait buf) buf) j in
  bch2_journal_last_unwritten_seq j = Done unwritten (set_lock false j) /\
  (seq < unwritten ->
   bch2_journal_wait_on_seq seq cl j = Done tt (set_lock false j)) /\
  (unwritten <= seq ->
   bch2_journal_wait_on_seq seq cl j =
     Done tt (set_lock false
                (queue (if seq =? journal_cur_seq j
                        then idx (reservations j)
                        else negb (idx (reservations j)))))).
Proof.
  intros He Hc Hs Hcur unwritten queue. unfold journal_cur_seq in *.
  assert (B : (j_seq j <? seq) = false) by (apply Z.ltb_ge; lia).
  apply Z.eqb_neq in He.
  assert (U1 : u64 (j_seq j - 1) = j_seq j - 1) by (apply wrap_small; lia).
  split; [|split].
  - unfold bch2_journal_last_unwritten_seq, unwritten. run.
    destruct (prev_buf_unwritten (reservations j)); rewrite ?U1; reflexivity.
  - intros Hlt.
    assert (Hlt' : seq < j_seq j)
      by (unfold unwritten in Hlt; destruct (prev_buf_unwritten (reservations j)); lia).
    assert (U2 : u64 (seq + 1) = seq + 1) by (apply wrap_small; lia).
    unfold bch2_journal_wait_on_seq, bch2_journal_error. run.
    rewrite B, He, U2. cbn [Z.eqb negb].
    destruct (seq =? j_seq j) eqn:Q1; [apply Z.eqb_eq in Q1; lia|].
    destruct (prev_buf_unwritten (reservations j)) eqn:P.
    + destruct (seq + 1 =? j_seq j) eqn:Q2;
        [apply Z.eqb_eq in Q2; unfold unwritten in Hlt; lia | reflexivity].
    + rewrite andb_false_r. reflexivity.
  - intros Hge. unfold bch2_journal_wait_on_seq, bch2_journal_error, closure_wait_buf,
      closure_wake_up_buf, queue. run.
    rewrite B, He, Hc. cbn [Z.eqb negb].
    destruct (seq =? j_seq j) eqn:Q1.
    { destruct (idx (reservations j)); reflexivity. }
    apply Z.eqb_neq in Q1.
    assert (U2 : u64 (seq + 1) = seq + 1) by (apply wrap_small; lia).
    rewrite U2.
    destruct (prev_buf_unwritten (reservations j)) eqn:P;
      unfold unwritten in Hge; [|lia].
    destruct (seq + 1 =? j_seq j) eqn:Q2; [|apply Z.eqb_neq in Q2; lia].
    cbn [andb]. rsimpl.
    destruct (idx (reservations j)) eqn:I; rsimpl; rewrite ?P, ?He; reflexivity.
Qed.

(** ** Flushing a sequence number *)

Lemma flush_seq_written (seq : Z) (ws : list wakeup) (j : journal) :
  seq < journal_cur_seq j ->
  (u64 (seq + 1) =? journal_cur_seq j) && prev_buf_unwritten (reservations j) = false ->
  bch2_journal_flush_seq seq ws j =
    Done 0 (set_log (bch2_time_stats_update flush_seq_time (local_clock j) :: log j)
              (set_lock false j)).
Proof.
  intros Hs Hp. unfold journal_cur_seq in *.
  assert (F : journal_seq_flushed seq j = Done 1 (set_lock false j)).
  { unfold journal_seq_flushed. run.
    destruct (j_seq j <? seq) eqn:B; [apply Z.ltb_lt in B; lia|].
    destruct (seq =? j_seq j) eqn:Q; [apply Z.eqb_eq in Q; lia|].
    rewrite Hp. reflexivity. }
  unfold bch2_journal_flush_seq, bind at 1, get. unfold bind at 1.
  rewrite (wait_event_killable_first _ _ ws _ _ _ F eq_refl).
  reflexivity.
Qed.

(** An entry that is neither the current one nor the one being written
    is on disk already: [bch2_journal_flush_seq] returns 0 at once, in the
    ERROR state too, having closed no entry and queued nothing; it records
    the time it took and leaves the lock released. *)
Theorem flush_seq_already_written (seq : Z) (ws : list wakeup) (j : journal) :
  seq < journal_cur_seq j ->
  (u64 (seq + 1) =? journal_cur_seq j) && prev_buf_unwritten (reservations j) = false ->
  bch2_journal_flush_seq seq ws j =
    Done 0 (set_log (bch2_time_stats_update flush_seq_time (local_clock j) :: log j)
              (set_lock false j)).
Proof. exact (flush_seq_written seq ws j). Qed.

Lemma flush_seq_error (seq : Z) (ws : list wakeup) (j : journal) :
  cur_entry_offset (reservations j) = JOURNAL_ENTRY_ERROR_VAL ->
  seq = journal_cur_seq j \/
  (seq < journal_cur_seq j /\ u64 (seq + 1) = journal_cur_seq j /\
   prev_buf_unwritten (reservations j) = true) ->
  exists j',
    bch2_journal_flush_seq seq ws j = Done (- EIO) j' /\
    reservations j' = reservations j /\
    lock j' = false.
Proof.
  intros H Hs. unfold journal_cur_seq in *.
  assert (F : exists j1, journal_seq_flushed seq j = Done (- EIO) j1 /\
                         reservations j1 = reservations j /\ lock j1 = false).
  { unfold journal_seq_flushed. unfold bind at 1, spin_lock at 1, modify at 1.
    unfold bind at 1, get at 1. unfold bind at 1. rsimpl.
    destruct Hs as [-> | (Hlt & Hn & Hp)].
    - rewrite Z.ltb_irrefl. unfold BUG_ON at 1, ret at 1. rewrite Z.eqb_refl.
      unfold bind at 1, mark_need_write, test_and_set_need_write.
      unfold bind at 1, get at 1. unfold bind at 1, modify at 1.
      unfold ret at 1. unfold bind at 1, get at 1. unfold bind at 1.
      rsimpl. destruct (need_write j); cbn [negb];
        unfold when, bind, modify, ret, spin_unlock;
        rewrite journal_buf_switch_on_error by exact H;
        (eexists; split; [reflexivity|]; rsimpl; split; reflexivity).
    - destruct (j_seq j <? seq) eqn:B; [apply Z.ltb_lt in B; lia|].
      unfold BUG_ON at 1, ret at 1.
      destruct (seq =? j_seq j) eqn:Q; [apply Z.eqb_eq in Q; lia|].
      rewrite Hn, Z.eqb_refl, Hp. cbn [andb].
      unfold bind, spin_unlock, modify, ret, bch2_journal_error. rsimpl.
      rewrite H, Z.eqb_refl.
      eexists. split; [reflexivity|]. rsimpl. split; reflexivity. }
  destruct F as (j1 & F & R1 & L1).
  unfold bch2_journal_flush_seq, bind at 1, get. unfold bind at 1.
  rewrite (wait_event_killable_first _ _ ws _ _ _ F eq_refl).
  unfold emit, modify, bind, ret. cbn [fst snd].
  eexists. split; [reflexivity|]. rsimpl. split; assumption.
Qed.

(** In the ERROR state a flush of the current sequence number, or of the
    one before while its buffer is still unwritten, fails with [-EIO]
    without sleeping, and the word still carries ERROR. *)
Theorem flush_seq_in_error (seq : Z) (ws : list wakeup) (j : journal) :
  cur_entry_offset (reservations j) = JOURNAL_ENTRY_ERROR_VAL ->
  seq = journal_cur_seq j \/
  (seq < journal_cur_seq j /\ u64 (seq + 1) = journal_cur_seq j /\
   prev_buf_unwritten (reservations j) = true) ->
  exists j',
    bch2_journal_flush_seq seq ws j = Done (- EIO) j' /\
    reservations j' = reservations j /\
    lock j' = false.
Proof. exact (flush_seq_error seq ws j). Qed.

(** ** Flushing when no entry is open *)

(** [bch2_journal_flush] on a journal that has opened entries before but
    has none open now flushes the last one.  If that one is written it
    returns 0 at once, even in the ERROR state; if its buffer is still
    unwritten it fails with [-EIO] in the ERROR state and otherwise goes
    to sleep until the write completes (with no wake-up it stays asleep). *)
Theorem bch2_journal_flush_not_open (ws : list wakeup) (j : journal) :
  journal_entry_is_open j = false ->
  0 < journal_cur_seq j < 2 ^ 64 ->
  (prev_buf_unwritten (reservations j) = false ->
   bch2_journal_flush ws j =
     Done 0 (set_log (bch2_time_stats_update flush_seq_time
                        (local_clock (set_lock false j)) :: log j)
               (set_lock false j))) /\
  (prev_buf_unwritten (reservations j) = true ->
   cur_entry_offset (reservations j) = JOURNAL_ENTRY_ERROR_VAL ->
   exists j', bch2_journal_flush ws j = Done (- EIO) j' /\
              reservations j' = reservations j) /\
  (prev_buf_unwritten (reservations j) = true ->
   cur_entry_offset (reservations j) <> JOURNAL_ENTRY_ERROR_VAL ->
   bch2_journal_flush [] j = Parked (set_lock false j)).
Proof.
  intros Ho Hs. unfold journal_cur_seq in *.
  assert (U : u64 (j_seq j - 1) = j_seq j - 1) by (apply wrap_small; lia).
  assert (U' : u64 (j_seq j - 1 + 1) = j_seq j)
    by (replace (j_seq j - 1 + 1) with (j_seq j) by lia; apply wrap_small; lia).
  assert (Ho' : journal_entry_is_open (set_lock true j) = false) by exact Ho.
  assert (N : negb (j_seq j =? 0) = true)
    by (apply negb_true_iff, Z.eqb_neq; lia).
  assert (F : forall ws', bch2_journal_flush ws' j =
                          bch2_journal_flush_seq (j_seq j - 1) ws' (set_lock false j)).
  { intros ws'. unfold bch2_journal_flush.
    unfold bind at 1, spin_lock at 1, modify at 1. unfold bind at 1, get at 1.
    rewrite Ho'. unfold journal_cur_seq. rsimpl. rewrite N, U.
    unfold bind at 1, spin_unlock at 1, modify at 1. reflexivity. }
  split; [|split].
  - intros Hp. rewrite F.
    rewrite (flush_seq_written (j_seq j - 1) ws (set_lock false j)).
    + reflexivity.
    + unfold journal_cur_seq. rsimpl. lia.
    + rsimpl. rewrite Hp. apply andb_false_r.
  - intros Hp He. rewrite F.
    destruct (flush_seq_error (j_seq j - 1) ws (set_lock false j)) as (j' & E & R & _).
    + exact He.
    + right. unfold journal_cur_seq. rsimpl. repeat split; [lia | exact U' | exact Hp].
    + exists j'. split; [exact E | exact R].
  - intros Hp He. rewrite F. apply Z.eqb_neq in He.
    unfold bch2_journal_flush_seq, bind at 1, get. unfold bind at 1.
    cbn [wait_event_killable].
    assert (C : journal_seq_flushed (j_seq j - 1) (set_lock false j)
                = Done 0 (set_lock false j)).
    { unfold journal_seq_flushed, bch2_journal_error. run.
      destruct (j_seq j <? j_seq j - 1) eqn:B; [apply Z.ltb_lt in B; lia|].
      destruct (j_seq j - 1 =? j_seq j) eqn:Q; [apply Z.eqb_eq in Q; lia|].
      rewrite U', Z.eqb_refl, Hp, He. reflexivity. }
    rewrite C. reflexivity.
Qed.

(** ** The write timer *)

(** [journal_flush_write], with no other CPU writing the word meanwhile,
    returns true only if no entry is open and no buffer is being written,
    and then it has changed nothing; with no entry open it returns whether
    the previous buffer is written.  With an entry open it never returns
    true: it has closed the entry, or the previous write is in flight. *)
Theorem journal_flush_write_idle (j : journal) :
  racing j = [] ->
  (journal_entry_is_open j = false ->
   journal_flush_write j =
     Done (negb (prev_buf_unwritten (reservations j))) (set_lock false j)) /\
  (forall j', journal_flush_write j = Done true j' ->
     journal_entry_is_open j = false /\
     prev_buf_unwritten (reservations j) = false /\
     j' = set_lock false j).
Proof.
  intros Hr.
  assert (A : journal_entry_is_open j = false ->
              journal_flush_write j =
                Done (negb (prev_buf_unwritten (reservations j))) (set_lock false j)).
  { intros Ho. unfold journal_flush_write.
    unfold bind at 1, spin_lock at 1, modify at 1. unfold bind at 1, get at 1.
    assert (Ho' : journal_entry_is_open (set_lock true j) = false) by exact Ho.
    rewrite Ho'. reflexivity. }
  split; [exact A|].
  intros j' H.
  destruct (journal_entry_is_open j) eqn:Ho.
  - exfalso. unfold journal_flush_write in H.
    unfold bind at 1, spin_lock at 1, modify at 1 in H. unfold bind at 1, get at 1 in H.
    assert (Ho' : journal_entry_is_open (set_lock true j) = true) by exact Ho.
    rewrite Ho' in H. cbn [negb] in H. rsimpl.
    step H. step H. unfold modify in E. inversion E; subst; clear E.
    destruct a0.
    + step H. unfold ret in H. inversion H as [[P Q]].
      apply negb_true_iff in P.
      destruct (journal_buf_switch_without_close _ _ _ _ E0 ltac:(discriminate))
        as (v & rest & Hin & _ & _ & C & _).
      rsimpl. rewrite Hr in Hin. destruct Hin as [<- | []].
      unfold journal_entry_is_open in Ho. apply Z.ltb_lt in Ho.
      pose proof CLOSED_lt_ERROR. apply proj1 in C. specialize (C eq_refl). lia.
    + step H. unfold ret in H. inversion H as [[P Q]].
      apply negb_true_iff in P.
      destruct (journal_buf_switch_without_close _ _ _ _ E0 ltac:(discriminate))
        as (v & rest & Hin & _ & _ & _ & C).
      rsimpl. rewrite Hr in Hin. destruct Hin as [<- | []].
      apply proj1 in C. specialize (C eq_refl). destruct C as (_ & _ & C).
      congruence.
    + step H. unfold ret in H. inversion H as [[P Q]].
      destruct (journal_buf_switch_without_close _ _ _ _ E0 ltac:(discriminate))
        as (v & rest & Hin & _ & C & _ & _).
      rsimpl. rewrite Hr in Hin. destruct Hin as [<- | []].
      unfold journal_entry_is_open in Ho. apply Z.ltb_lt in Ho.
      apply proj1 in C. specialize (C eq_refl). lia.
    + unfold ret in H. inversion H.
  - rewrite (A eq_refl) in H. inversion H as [[P Q]].
    apply negb_true_iff in P. repeat split; assumption.
Qed.

(** ** Forcing out an entry while the previous write is in flight *)

(** [bch2_journal_flush_seq_async] on the current, open entry while the
    previous buffer is still unwritten cannot close the entry yet: it
    queues the closure on the current buffer, sets NEED_WRITE (noting the
    time only if the flag was clear) and returns with the word and the
    sequence number as they were and the lock released. *)
Theorem flush_seq_async_write_in_flight (cl : closure) (j : journal) :
  cur_entry_offset (reservations j) < JOURNAL_ENTRY_CLOSED_VAL ->
  prev_buf_unwritten (reservations j) = true ->
  cl_waiting cl = false ->
  exists j',
    bch2_journal_flush_seq_async (journal_cur_seq j) (Some cl) j = Done tt j' /\
    wait (journal_cur_buf j') = cl_id cl :: wait (journal_cur_buf j) /\
    wait (journal_prev_buf j') = wait (journal_prev_buf j) /\
    need_write j' = true /\
    (need_write j = true -> need_write_time j' = need_write_time j) /\
    reservations j' = reservations j /\
    j_seq j' = j_seq j /\
    log j' = log j /\
    lock j' = false.
Proof.
  intros Ho Hp Hc. pose proof CLOSED_lt_ERROR as Hlt.
  assert (He : (cur_entry_offset (reservations j) =? JOURNAL_ENTRY_ERROR_VAL) = false)
    by (apply Z.eqb_neq; lia).
  unfold bch2_journal_flush_seq_async, bch2_journal_error, journal_cur_seq.
  unfold bind at 1, spin_lock at 1, modify at 1. unfold bind at 1, get at 1.
  rsimpl. rewrite Z.ltb_irrefl. unfold bind at 1, BUG_ON at 1, ret at 1.
  rewrite He, Z.eqb_refl. cbn [Z.eqb negb].
  unfold closure_wait_buf. rewrite Hc.
  unfold mark_need_write, test_and_set_need_write.
  unfold journal_cur_buf, journal_prev_buf.
  destruct (idx (reservations j)) eqn:I; destruct (need_write j) eqn:W;
    unfold when, BUG_ON, bind, get, modify, ret, spin_unlock; rsimpl;
    rewrite ?Z.eqb_refl; rsimpl; rewrite ?W; cbn [negb];
    rewrite journal_buf_switch_inuse by (rsimpl; assumption);
    (eexists; split; [reflexivity|]; rsimpl; rewrite ?I; rsimpl;
     repeat split; try reflexivity; try discriminate).
Qed.

(** ** What closing an entry does *)

Lemma modify_Done (f : journal -> journal) (j : journal) (u : unit) (j' : journal) :
  modify f j = Done u j' -> j' = f j.
Proof. unfold modify. intros H. inversion H. reflexivity. Qed.

Lemma BUG_ON_Done (c : bool) (j : journal) (u : unit) (j' : journal) :
  BUG_ON c j = Done u j' -> j' = j.
Proof.
  unfold BUG_ON, bug, ret. destruct c; [discriminate|].
  intros H. inversion H. reflexivity.
Qed.

Lemma journal_pin_new_entry_Done (count : Z) (j : journal) (u : unit) (j' : journal) :
  journal_pin_new_entry count j = Done u j' ->
  exists p, j' = set_pin p (set_j_seq (u64 (j_seq j + 1)) j).
Proof.
  unfold journal_pin_new_entry, fifo_push_ref. intros H. unfold bind, modify, get in H.
  cbv beta in H.
  destruct (fifo_free _ <=? 0); unfold ret, fault in H; [discriminate|].
  inversion H. eexists. reflexivity.
Qed.

Lemma bch2_journal_buf_init_Done (j : journal) (u : unit) (j' : journal) :
  bch2_journal_buf_init j = Done u j' ->
  j' = upd_buf (idx (reservations j))
         (fun buf =>
            set_data {| jset_seq := j_seq j; jset_last_seq := 0; jset_u64s := 0 |}
              (set_has_inode 0 buf)) j.
Proof.
  unfold bch2_journal_buf_init, journal_cur_seq. intros H. step H.
  unfold get in E. inversion E; subst; clear E.
  apply modify_Done in H. exact H.
Qed.

Ltac crunch :=
  repeat match goal with
         | H : Done _ _ = Done _ _ |- _ => inversion H; subst; clear H
         | H : get _ = Done _ _ |- _ => unfold get in H
         | H : ret _ _ = Done _ _ |- _ => unfold ret in H
         | H : modify _ _ = Done _ _ |- _ => apply modify_Done in H; subst
         | H : BUG_ON _ _ = Done _ _ |- _ => apply BUG_ON_Done in H; subst
         end.

Ltac rlazy :=
  lazy beta iota zeta delta
    [reservations racing lock need_write cur_entry_u64s prev_buf_sectors
     cur_buf_sectors buf_size_want buf0 buf1 j_seq pin
     res_get_blocked_start need_write_time write_delay_ms
     bucket_journal_seq block_bits block_size async_wait log
     cur_entry_offset idx prev_buf_unwritten buf0_count buf1_count data
     has_inode size disk_sectors wait jset_seq jset_last_seq jset_u64s
     set_reservations set_racing set_lock set_need_write set_cur_entry_u64s
     set_prev_buf_sectors set_cur_buf_sectors set_buf_size_want set_buf0
     set_buf1 set_j_seq set_pin set_res_get_blocked_start
     set_need_write_time set_write_delay_ms set_bucket_journal_seq
     set_block_bits set_block_size set_async_wait set_log
     set_cur_entry_offset set_idx set_prev_buf_unwritten set_buf0_count
     set_buf1_count set_data set_has_inode set_size set_disk_sectors
     set_wait set_jset_seq set_jset_last_seq set_jset_u64s buf_at upd_buf
     negb Bool.eqb] in *.

(** A close while writers still hold reservations on the entry, with no
    other CPU writing the word meanwhile and a [bch2_journal_reclaim_fast]
    that touches nothing but the pin fifo and, through journal_wake(), the
    waiters and the log.  When [journal_buf_switch]
    returns JOURNAL_UNLOCKED the sequence number has gone up by exactly
    one; the word is the one on entry with CLOSED, idx toggled and
    prev_buf_unwritten set, the count of the closed buffer being back at
    the writers' reservations; the closed buffer has its u64s sealed at the
    offset reached and keeps its sequence number; the other buffer is
    initialised for the new sequence number with an empty inode bitmap;
    NEED_WRITE is clear and the lock is released. *)
Theorem journal_buf_switch_closes (need_write_just_set : bool) (j j' : journal) :
  journal_buf_switch need_write_just_set j = Done JOURNAL_UNLOCKED j' ->
  racing j = [] ->
  (forall s, exists p aw lg,
      bch2_journal_reclaim_fast s = set_pin p (set_async_wait aw (set_log lg s))) ->
  0 < journal_state_count (reservations j) (idx (reservations j)) < 2 ^ COUNT_BITS - 1 ->
  0 <= j_seq j < 2 ^ 64 - 1 ->
  let i := idx (reservations j) in
  j_seq j' = j_seq j + 1 /\
  reservations j' =
    set_prev_buf_unwritten true
      (set_idx (negb i)
         (set_cur_entry_offset JOURNAL_ENTRY_CLOSED_VAL (reservations j))) /\
  jset_u64s (data (buf_at i j')) = u32 (cur_entry_offset (reservations j)) /\
  jset_seq (data (buf_at i j')) = jset_seq (data (buf_at i j)) /\
  data (buf_at (negb i) j') =
    {| jset_seq := j_seq j + 1; jset_last_seq := 0; jset_u64s := 0 |} /\
  has_inode (buf_at (negb i) j') = 0 /\
  need_write j' = false /\
  lock j' = false.
Proof.
  intros H Hr Hrf Hc Hs i.
  assert (U : u64 (j_seq j + 1) = j_seq j + 1) by (apply wrap_small; lia).
  destruct (cmpxchg_loop journal_buf_switch_body (racing j) (reservations j))
    as [r v rest|old new rest|] eqn:E.
  - exfalso. pose proof (cmpxchg_loop_returned _ _ _ _ _ _ E) as [Eb _].
    apply journal_buf_switch_body_leave in Eb.
    unfold journal_buf_switch in H. unfold bind at 1, get in H. rewrite E in H.
    unfold bind, commit, modify, ret in H. inversion H. congruence.
  - pose proof (cmpxchg_loop_swapped _ _ _ _ _ _ E) as [Eb Hin].
    rewrite Hr in Hin. destruct Hin as [<- | []].
    apply journal_buf_switch_body_store in Eb. destruct Eb as (N1 & N2 & P & ->).
    unfold journal_buf_switch in H. unfold bind at 1, get in H. rewrite E in H.
    clear E. peel H.
    match goal with
    | R : modify bch2_journal_reclaim_fast ?s = Done _ _ |- _ =>
        apply modify_Done in R; destruct (Hrf s) as (p & aw & lg0 & Rf);
        rewrite Rf in R; clear Rf
    end.
    match goal with
    | R : journal_pin_new_entry _ _ = Done _ _ |- _ =>
        apply journal_pin_new_entry_Done in R; destruct R as [p2 R]
    end.
    match goal with
    | R : bch2_journal_buf_init _ = Done _ _ |- _ =>
        apply bch2_journal_buf_init_Done in R
    end.
    match goal with
    | R : bch2_journal_buf_put _ _ _ = Done _ _ |- _ =>
        unfold bch2_journal_buf_put in R; peel R; rename R into Hput
    end.
    unfold commit, emit, spin_unlock in *.
    match goal with
    | R : when _ _ ?s = Done _ ?s' |- _ =>
        assert (D : exists bj lg, s' = set_log lg (set_bucket_journal_seq bj s));
        [ unfold when in R;
          match type of R with
          | (if ?c then _ else _) _ = _ => destruct c
          end;
          [ peel R; unfold emit in *; crunch; eexists; eexists; reflexivity
          | unfold ret in R; inversion R; subst;
            exists (bucket_journal_seq s'), (log s'); destruct s'; reflexivity ]
        | destruct D as (bj & lg & D); clear R ]
    end.
    unfold journal_state_inc, journal_state_count in *. subst i.
    destruct j as [s]. destruct s as [off b pbu c0 c1]. rlazy.
    destruct b; crunch; rlazy.
    + assert (W1 : wrap COUNT_BITS (c1 + 1) = c1 + 1) by (apply wrap_small; lia).
      assert (W2 : wrap COUNT_BITS (c1 + 1 - 1) = c1)
        by (replace (c1 + 1 - 1) with c1 by lia; apply wrap_small; lia).
      rewrite W1, W2 in *.
      destruct (c1 =? 0) eqn:Q; [apply Z.eqb_eq in Q; lia|].
      unfold when, ret in Hput. cbn [andb] in Hput. crunch. rlazy.
      rewrite U. repeat split; reflexivity.
    + assert (W1 : wrap COUNT_BITS (c0 + 1) = c0 + 1) by (apply wrap_small; lia).
      assert (W2 : wrap COUNT_BITS (c0 + 1 - 1) = c0)
        by (replace (c0 + 1 - 1) with c0 by lia; apply wrap_small; lia).
      rewrite W1, W2 in *.
      destruct (c0 =? 0) eqn:Q; [apply Z.eqb_eq in Q; lia|].
      unfold when, ret in Hput. cbn [andb] in Hput. crunch. rlazy.
      rewrite U. repeat split; reflexivity.
  - unfold journal_buf_switch in H. unfold bind at 1, get in H. rewrite E in H.
    discriminate.
Qed.

(** ** The word across a close *)

Lemma keeps_word_ret {A : Type} (a : A) : keeps_word (ret a).
Proof. intros j a' j' H. inversion H. reflexivity. Qed.

Lemma keeps_word_get : keeps_word get.
Proof. intros j a' j' H. inversion H. reflexivity. Qed.

Lemma keeps_word_modify (f : journal -> journal) :
  (forall s, reservations (f s) = reservations s) -> keeps_word (modify f).
Proof. intros F j a j' H. inversion H. apply F. Qed.

Lemma keeps_word_BUG_ON (c : bool) : keeps_word (BUG_ON c).
Proof. intros j a j' H. apply BUG_ON_Done in H. subst. reflexivity. Qed.

Lemma keeps_word_bind {A B : Type} (c : M A) (k : A -> M B) :
  keeps_word c -> (forall a, keeps_word (k a)) -> keeps_word (bind c k).
Proof.
  intros Hc Hk j b j' H. apply bind_Done in H. destruct H as (a & j1 & E & H).
  rewrite (Hk a _ _ _ H). exact (Hc _ _ _ E).
Qed.

Lemma keeps_word_when (c : bool) (m : M unit) : keeps_word m -> keeps_word (when c m).
Proof. intros Hm. unfold when. destruct c; [exact Hm | apply keeps_word_ret]. Qed.

Lemma keeps_word_emit (e : event) : keeps_word (emit e).
Proof. apply keeps_word_modify. intros s. reflexivity. Qed.

Lemma keeps_word_pin_new_entry (count : Z) : keeps_word (journal_pin_new_entry count).
Proof.
  intros j a j' H. apply journal_pin_new_entry_Done in H. destruct H as [p ->].
  reflexivity.
Qed.

Lemma keeps_word_buf_init : keeps_word bch2_journal_buf_init.
Proof.
  intros j a j' H. apply bch2_journal_buf_init_Done in H. subst.
  apply reservations_upd_buf.
Qed.

Lemma keeps_word_atomic_dec_bug (n : nat) : keeps_word (atomic_dec_bug n).
Proof.
  unfold atomic_dec_bug. apply keeps_word_bind; [apply keeps_word_get|].
  intros j. destruct (nth_error (fifo_data (pin j)) n).
  - apply keeps_word_bind; [|intros; apply keeps_word_BUG_ON].
    apply keeps_word_modify. intros s. reflexivity.
  - intros s a s' H. discriminate.
Qed.

Lemma keeps_word_buf_put_slowpath (need_write_just_set : bool) :
  (forall s, reservations (bch2_journal_write s) = reservations s) ->
  keeps_word (bch2_journal_buf_put_slowpath need_write_just_set).
Proof.
  intros Fw. unfold bch2_journal_buf_put_slowpath.
  apply keeps_word_bind; [apply keeps_word_get | intros j].
  apply keeps_word_bind; [apply keeps_word_atomic_dec_bug | intros _].
  apply keeps_word_bind; [apply keeps_word_get | intros j1].
  apply keeps_word_bind; [apply keeps_word_when, keeps_word_emit | intros _].
  apply keeps_word_modify. exact Fw.
Qed.

(** One step of a computation that keeps the word, in front of a
    computation that relates the word it finds to the word it leaves. *)
Lemma keeps_word_then {A B : Type} (R : journal_res_state -> journal_res_state -> Prop)
    (c : M A) (k : A -> M B) :
  keeps_word c ->
  (forall a j b j', k a j = Done b j' -> R (reservations j) (reservations j')) ->
  forall j b j', bind c k j = Done b j' -> R (reservations j) (reservations j').
Proof.
  intros Hc Hk j b j' H. apply bind_Done in H. destruct H as (a & j1 & E & H).
  rewrite <- (Hc _ _ _ E). exact (Hk _ _ _ _ H).
Qed.

(** What [bch2_journal_buf_put] does to the word. *)
Lemma bch2_journal_buf_put_word (i need_write_just_set : bool) (j : journal)
    (u : unit) (j' : journal) :
  (forall s, reservations (bch2_journal_write s) = reservations s) ->
  bch2_journal_buf_put i need_write_just_set j = Done u j' ->
  reservations j' =
    (if i then set_buf1_count (wrap COUNT_BITS (buf1_count (reservations j) - 1))
                (reservations j)
     else set_buf0_count (wrap COUNT_BITS (buf0_count (reservations j) - 1))
            (reservations j)).
Proof.
  intros Fw H. unfold bch2_journal_buf_put in H.
  apply bind_Done in H. destruct H as (a & j1 & E & H). cbv beta in H.
  apply modify_Done in E.
  apply bind_Done in H. destruct H as (a1 & j2 & E1 & H). cbv beta in H.
  unfold get in E1. inversion E1; subst a1 j2; clear E1.
  apply (keeps_word_when _ _ (keeps_word_buf_put_slowpath need_write_just_set Fw)) in H.
  rewrite H, E. reflexivity.
Qed.

(** The word [journal_buf_switch] leaves when it has closed an entry is
    the word it stored, less the reservation it had taken for itself. *)
Lemma journal_buf_switch_close_word (need_write_just_set : bool) (j j' : journal)
    (old new : journal_res_state) (rest : list journal_res_state) :
  (forall s, reservations (bch2_journal_reclaim_fast s) = reservations s) ->
  (forall s, reservations (bch2_journal_write s) = reservations s) ->
  cmpxchg_loop journal_buf_switch_body (racing j) (reservations j) = Swapped old new rest ->
  journal_buf_switch need_write_just_set j = Done JOURNAL_UNLOCKED j' ->
  reservations j' =
    (if idx old then set_buf1_count (wrap COUNT_BITS (buf1_count new - 1)) new
     else set_buf0_count (wrap COUNT_BITS (buf0_count new - 1)) new).
Proof.
  intros Frf Fw E H. unfold journal_buf_switch in H. unfold bind at 1, get in H.
  rewrite E in H.
  apply bind_Done in H. destruct H as (a & j0 & E0 & H). cbv beta in H.
  unfold commit in E0. apply modify_Done in E0.
  assert (W0 : reservations j0 = new) by (subst j0; reflexivity).
  rewrite <- W0. clear E0 W0 E.
  set (R := fun w w' : journal_res_state =>
              w' = (if idx old then set_buf1_count (wrap COUNT_BITS (buf1_count w - 1)) w
                    else set_buf0_count (wrap COUNT_BITS (buf0_count w - 1)) w)).
  match type of H with
  | ?C j0 = Done _ j' =>
      cut (forall s b s', C s = Done b s' -> R (reservations s) (reservations s'));
      [intros T; exact (T _ _ _ H)|]
  end.
  clear H j0 j'.
  unfold spin_unlock.
  apply (keeps_word_then R); [apply keeps_word_modify; intros; reflexivity | intros _].
  apply (keeps_word_then R); [apply keeps_word_modify; intros; apply reservations_upd_buf | intros _].
  apply (keeps_word_then R); [apply keeps_word_get | intros s1].
  apply (keeps_word_then R); [apply keeps_word_modify; intros; reflexivity | intros _].
  apply (keeps_word_then R); [apply keeps_word_get | intros s2].
  apply (keeps_word_then R); [apply keeps_word_BUG_ON | intros _].
  apply (keeps_word_then R); [apply keeps_word_modify; exact Frf | intros _].
  apply (keeps_word_then R); [apply keeps_word_get | intros s3].
  apply (keeps_word_then R); [apply keeps_word_modify; intros; apply reservations_upd_buf | intros _].
  apply (keeps_word_then R); [apply keeps_word_pin_new_entry | intros _].
  apply (keeps_word_then R); [apply keeps_word_buf_init | intros _].
  apply (keeps_word_then R); [apply keeps_word_emit | intros _].
  apply (keeps_word_then R); [apply keeps_word_modify; intros; reflexivity | intros _].
  apply (keeps_word_then R); [apply keeps_word_get | intros s4].
  apply (keeps_word_then R).
  { apply keeps_word_when. apply keeps_word_bind.
    - apply keeps_word_modify. intros; reflexivity.
    - intros _. apply keeps_word_emit. }
  intros _.
  apply (keeps_word_then R); [apply keeps_word_modify; intros; reflexivity | intros _].
  intros s b s' H.
  apply bind_Done in H. destruct H as (u & s5 & E & H). unfold ret in H.
  inversion H; subst. unfold R.
  exact (bch2_journal_buf_put_word _ _ _ _ _ Fw E).
Qed.

(** C3: when [journal_buf_switch] closes an entry (it returns
    JOURNAL_UNLOCKED), it has carried out one exchange on the reservation
    word.  The word [old] it replaced, the one the journal held on entry or
    one stored since by another CPU, was open (neither CLOSED nor ERROR)
    with prev_buf_unwritten = 0, never 1; the word [new] it stored has one
    more reservation, the writer's own, on the buffer being closed (the
    count is a COUNT_BITS-wide field: it is the old count plus one unless
    that count filled its field), the other count untouched,
    cur_entry_offset = CLOSED, idx toggled and prev_buf_unwritten = 1.
    The store is in the journal the function returns: provided that
    [bch2_journal_reclaim_fast] and [bch2_journal_write], which are not
    part of journal.c, leave the word alone, the word at return carries
    CLOSED, the toggled idx and prev_buf_unwritten = 1, and, the writer's
    reservation being dropped again at the end, the counts of [old]. *)
Theorem journal_buf_switch_close (need_write_just_set : bool) (j j' : journal) :
  journal_buf_switch need_write_just_set j = Done JOURNAL_UNLOCKED j' ->
  exists old new rest,
    cmpxchg_loop journal_buf_switch_body (racing j) (reservations j)
      = Swapped old new rest /\
    In old (reservations j :: racing j) /\
    cur_entry_offset old <> JOURNAL_ENTRY_CLOSED_VAL /\
    cur_entry_offset old <> JOURNAL_ENTRY_ERROR_VAL /\
    prev_buf_unwritten old = false /\
    journal_state_count new (idx old)
      = wrap COUNT_BITS (journal_state_count old (idx old) + 1) /\
    (0 <= journal_state_count old (idx old) < 2 ^ COUNT_BITS - 1 ->
     journal_state_count new (idx old) = journal_state_count old (idx old) + 1) /\
    journal_state_count new (negb (idx old)) = journal_state_count old (negb (idx old)) /\
    cur_entry_offset new = JOURNAL_ENTRY_CLOSED_VAL /\
    idx new = negb (idx old) /\
    prev_buf_unwritten new = true /\
    ((forall s, reservations (bch2_journal_reclaim_fast s) = reservations s) ->
     (forall s, reservations (bch2_journal_write s) = reservations s) ->
     cur_entry_offset (reservations j') = JOURNAL_ENTRY_CLOSED_VAL /\
     idx (reservations j') = negb (idx old) /\
     prev_buf_unwritten (reservations j') = true /\
     (0 <= journal_state_count old (idx old) < 2 ^ COUNT_BITS - 1 ->
      journal_state_count (reservations j') (idx old)
        = journal_state_count old (idx old) /\
      journal_state_count (reservations j') (negb (idx old))
        = journal_state_count old (negb (idx old)))).
Proof.
  intros H.
  destruct (cmpxchg_loop journal_buf_switch_body (racing j) (reservations j))
    as [r v rest|old new rest|] eqn:E.
  - exfalso. pose proof (cmpxchg_loop_returned _ _ _ _ _ _ E) as [Eb _].
    apply journal_buf_switch_body_leave in Eb.
    unfold journal_buf_switch in H. unfold bind at 1, get in H. rewrite E in H.
    unfold bind, commit, modify, ret in H. inversion H. congruence.
  - exists old, new, rest. split; [reflexivity|].
    pose proof (cmpxchg_loop_swapped _ _ _ _ _ _ E) as [Eb Hin].
    split; [exact Hin|].
    apply journal_buf_switch_body_store in Eb. destruct Eb as (N1 & N2 & P & En).
    split; [exact N1|]. split; [exact N2|]. split; [exact P|].
    assert (C1 : journal_state_count new (idx old)
                 = wrap COUNT_BITS (journal_state_count old (idx old) + 1)).
    { subst new. unfold journal_state_inc, journal_state_count.
      destruct (idx old); reflexivity. }
    assert (C2 : journal_state_count new (negb (idx old))
                 = journal_state_count old (negb (idx old))).
    { subst new. unfold journal_state_inc, journal_state_count.
      destruct (idx old); reflexivity. }
    split; [exact C1|].
    split; [intros Hc; rewrite C1; apply wrap_small; lia|].
    split; [exact C2|].
    split; [subst new; reflexivity|].
    split; [subst new; reflexivity|].
    split; [subst new; reflexivity|].
    intros Frf Fw.
    pose proof (journal_buf_switch_close_word need_write_just_set j j' old new rest
                  Frf Fw E H) as W.
    rewrite W. clear W H E Hin.
    split; [subst new; destruct (idx old); reflexivity|].
    split; [subst new; destruct (idx old); reflexivity|].
    split; [subst new; destruct (idx old); reflexivity|].
    intros Hc. revert C1 C2 Hc. unfold journal_state_count.
    destruct (idx old); cbn [negb]; intros C1 C2 Hc; rsimpl; rewrite C1.
    + split; [|exact C2].
      rewrite (wrap_small COUNT_BITS (buf1_count old + 1)) by lia.
      replace (buf1_count old + 1 - 1) with (buf1_count old) by lia.
      apply wrap_small. lia.
    + split; [|exact C2].
      rewrite (wrap_small COUNT_BITS (buf0_count old + 1)) by lia.
      replace (buf0_count old + 1 - 1) with (buf0_count old) by lia.
      apply wrap_small. lia.
  - unfold journal_buf_switch in H. unfold bind at 1, get in H. rewrite E in H.
    discriminate.
Qed.

End MoreProperties.

(** * Further properties of the device ring *)

Section MoreRing.

(** The error the loop of [__bch2_set_nr_journal_buckets] leaves with when
    the allocator fails. *)
Lemma alloc_journal_buckets_codes (new_fs cl : bool) (nr_want : Z) (fuel : nat) :
  forall (free : list Z) (ca : bch_dev),
    fst (alloc_journal_buckets fuel nr_want new_fs cl free ca) = 0 \/
    fst (alloc_journal_buckets fuel nr_want new_fs cl free ca)
    = (if new_fs then - ENOSPC else if cl then - EAGAIN else - ENOSPC).
Proof.
  induction fuel as [|fuel IH]; intros free ca; cbn [alloc_journal_buckets].
  - left. reflexivity.
  - destruct (nr (ja ca) <? nr_want); [|left; reflexivity].
    destruct free as [|b free]; [right; reflexivity|].
    destruct (b <? 0); [right; reflexivity|]. apply IH.
Qed.

(** What a run of the loop has done when it leaves, with or without an
    error: it has taken the buckets [used] from the allocator, all of them
    are in the ring and marked, nothing else has been marked. *)
Lemma alloc_journal_buckets_outcome (new_fs cl : bool) (nr_want : Z) (fuel : nat) :
  forall (free : list Z) (ca : bch_dev) (r : Z) (ca' : bch_dev),
    alloc_journal_buckets fuel nr_want new_fs cl free ca = (r, ca') ->
    0 <= nr (ja ca) ->
    nr (ja ca) + Z.of_nat fuel = nr_want ->
    nr_want < 2 ^ 32 ->
    exists used rest,
      free = used ++ rest /\
      Forall (fun b => 0 <= b) used /\
      marked ca' = rev used ++ marked ca /\
      nr (ja ca') = nr (ja ca) + Z.of_nat (length used) /\
      super_writes ca' = super_writes ca /\
      ((r = 0 /\ nr (ja ca') = nr_want) \/
       (r = (if new_fs then - ENOSPC else if cl then - EAGAIN else - ENOSPC) /\
        nr (ja ca') < nr_want /\
        (rest = [] \/ exists b rest', rest = b :: rest' /\ b < 0))).
Proof.
  induction fuel as [|fuel IH]; intros free ca r ca' H H0 Hn Hw;
    cbn [alloc_journal_buckets] in H.
  - inversion H; subst. exists [], free. cbn [app rev length].
    split; [reflexivity|]. split; [constructor|]. split; [reflexivity|].
    split; [lia|]. split; [reflexivity|]. left. split; [reflexivity | lia].
  - destruct (nr (ja ca) <? nr_want) eqn:Q; [|apply Z.ltb_ge in Q; lia].
    apply Z.ltb_lt in Q.
    destruct free as [|b free].
    { inversion H; subst. exists [], []. cbn [app rev length].
      split; [reflexivity|]. split; [constructor|]. split; [reflexivity|].
      split; [lia|]. split; [reflexivity|]. right.
      split; [reflexivity|]. split; [lia | left; reflexivity]. }
    destruct (b <? 0) eqn:Qb.
    { apply Z.ltb_lt in Qb. inversion H; subst. exists [], (b :: free).
      cbn [app rev length].
      split; [reflexivity|]. split; [constructor|]. split; [reflexivity|].
      split; [lia|]. split; [reflexivity|]. right.
      split; [reflexivity|]. split; [lia|]. right. exists b, free.
      split; [reflexivity | exact Qb]. }
    apply Z.ltb_ge in Qb.
    set (ca1 := bch2_mark_metadata_bucket b (journal_bucket_insert b ca)) in *.
    assert (N1 : nr (ja ca1) = nr (ja ca) + 1).
    { unfold ca1, bch2_mark_metadata_bucket, journal_bucket_insert. cbn [ja nr].
      apply u32_small. lia. }
    assert (M1 : marked ca1 = b :: marked ca) by reflexivity.
    assert (S1 : super_writes ca1 = super_writes ca) by reflexivity.
    destruct (IH free ca1 r ca' H) as (used & rest & F & P & M & N & S & O);
      try lia.
    exists (b :: used), rest. cbn [app rev length].
    split; [rewrite F; reflexivity|].
    split; [constructor; assumption|].
    split; [rewrite M, M1, <- app_assoc; reflexivity|].
    split; [lia|]. split; [congruence|].
    destruct O as [[-> O] | (-> & O & R)]; [left | right].
    + split; [reflexivity | exact O].
    + split; [reflexivity|]. split; [exact O | exact R].
Qed.

(** The loop does to the superblock's bucket list what it does to
    buckets[]. *)
Lemma alloc_journal_buckets_mirror (new_fs cl : bool) (nr_want : Z) (fuel : nat) :
  forall (free : list Z) (ca : bch_dev),
    sb_buckets ca = buckets (ja ca) ->
    sb_buckets (snd (alloc_journal_buckets fuel nr_want new_fs cl free ca))
    = buckets (ja (snd (alloc_journal_buckets fuel nr_want new_fs cl free ca))).
Proof.
  induction fuel as [|fuel IH]; intros free ca H; cbn [alloc_journal_buckets].
  - exact H.
  - destruct (nr (ja ca) <? nr_want); [|exact H].
    destruct free as [|b free]; [exact H|].
    destruct (b <? 0); [exact H|]. apply IH.
    unfold bch2_mark_metadata_bucket, journal_bucket_insert.
    cbn [sb_buckets ja buckets]. rewrite H. reflexivity.
Qed.

(** The loop keeps the arrays at their allocated size and last_idx within
    the ring. *)
Lemma alloc_journal_buckets_shape (new_fs cl : bool) (nr_want : Z) (fuel : nat) :
  forall (free : list Z) (ca : bch_dev) (len : nat),
    0 <= last_idx (ja ca) <= nr (ja ca) ->
    nr (ja ca) + Z.of_nat fuel <= Z.of_nat len ->
    nr (ja ca) + Z.of_nat fuel < 2 ^ 32 ->
    length (buckets (ja ca)) = len ->
    length (bucket_seq (ja ca)) = len ->
    length (sb_buckets ca) = len ->
    let ca' := snd (alloc_journal_buckets fuel nr_want new_fs cl free ca) in
    length (buckets (ja ca')) = len /\
    length (bucket_seq (ja ca')) = len /\
    length (sb_buckets ca') = len /\
    0 <= last_idx (ja ca') <= nr (ja ca').
Proof.
  induction fuel as [|fuel IH]; intros free ca len HL Hn Hw Lb Ls Lsb;
    cbn [alloc_journal_buckets].
  - cbn [snd]. repeat split; try assumption; lia.
  - destruct (nr (ja ca) <? nr_want); [|cbn [snd]; repeat split; try assumption; lia].
    destruct free as [|b free]; [cbn [snd]; repeat split; try assumption; lia|].
    destruct (b <? 0); [cbn [snd]; repeat split; try assumption; lia|].
    apply IH; unfold bch2_mark_metadata_bucket, journal_bucket_insert;
      cbn [ja nr last_idx buckets bucket_seq sb_buckets];
      try (rewrite length_array_set, length_array_insert_item; lia).
    + rewrite (u32_small (nr (ja ca) + 1)) by lia.
      destruct (last_idx (ja ca) <? nr (ja ca)) eqn:Q.
      * apply Z.ltb_lt in Q. rewrite u32_small by lia. lia.
      * lia.
    + rewrite u32_small by lia. lia.
    + rewrite u32_small by lia. lia.
Qed.

(** The first allocation on a device that has no journal buckets yet:
    with buckets [b :: bs] from the allocator, in this order, the call
    returns 0 and the ring is [bs ++ [b]]: the first bucket allocated is
    the last of the ring, and cur_idx and last_idx both denote it. *)
Theorem set_nr_journal_buckets_first_alloc (ca : bch_dev) (nr_want : Z)
    (new_fs cl : bool) (env : alloc_env) (b : Z) (bs free : list Z) :
  nr (ja ca) = 0 -> last_idx (ja ca) = 0 -> cur_idx (ja ca) = 0 ->
  kzalloc_ok env = true ->
  sb_resize_ok env = true ->
  free_buckets env = b :: bs ++ free ->
  Forall (fun b => 0 <= b < 2 ^ 64) (b :: bs) ->
  nr_want = 1 + Z.of_nat (length bs) ->
  nr_want < 2 ^ 32 ->
  exists ca',
    __bch2_set_nr_journal_buckets ca nr_want new_fs cl env = (0, ca') /\
    nr (ja ca') = nr_want /\
    ring_buckets (ja ca') = bs ++ [b] /\
    ring_bucket_seq (ja ca') = repeat 0 (S (length bs)) /\
    last_idx (ja ca') = nr_want - 1 /\
    cur_idx (ja ca') = nr_want - 1.
Proof.
  intros N0 L0 C0 Hk Hr Hf Hbs Hn Hw.
  inversion Hbs as [|b' bs' Hb Hbs']; subst b' bs'.
  unfold __bch2_set_nr_journal_buckets.
  destruct (nr_want <=? nr (ja ca)) eqn:Q; [apply Z.leb_le in Q; lia|].
  rewrite Hk, Hr, Hf. cbn [negb].
  replace (Z.to_nat (nr_want - nr (ja ca))) with (S (length bs)) by lia.
  match goal with |- context [alloc_journal_buckets _ _ _ _ _ ?c] => set (ca0 := c) end.
  assert (Lb0 : length (buckets (ja ca0)) = Z.to_nat nr_want).
  { unfold ca0. cbn [ja buckets]. unfold grown_array.
    rewrite N0. cbn [Z.to_nat firstn app]. rewrite repeat_length. lia. }
  assert (Ls0 : length (bucket_seq (ja ca0)) = Z.to_nat nr_want).
  { unfold ca0. cbn [ja bucket_seq]. unfold grown_array.
    rewrite N0. cbn [Z.to_nat firstn app]. rewrite repeat_length. lia. }
  assert (Nc0 : nr (ja ca0) = 0) by exact N0.
  assert (Lc0 : last_idx (ja ca0) = 0) by exact L0.
  assert (Cc0 : cur_idx (ja ca0) = 0) by exact C0.
  change (b :: bs ++ free) with (b :: (bs ++ free)).
  rewrite alloc_journal_buckets_pass by lia.
  pose proof (journal_bucket_insert_fields b ca0) as St. cbv zeta in St.
  destruct St as (E1 & EC & EL & E2 & E3); try lia.
  set (ca1 := bch2_mark_metadata_bucket b (journal_bucket_insert b ca0)) in *.
  assert (Eja : ja ca1 = ja (journal_bucket_insert b ca0)) by reflexivity.
  rewrite <- Eja in E1, EC, EL, E2, E3.
  rewrite Nc0, Lc0, Cc0 in *. cbn [Z.ltb Z.compare andb Z.to_nat firstn skipn app] in *.
  assert (R0 : ring_buckets (ja ca0) = []).
  { unfold ring_buckets. rewrite Nc0. reflexivity. }
  assert (Q0 : ring_bucket_seq (ja ca0) = []).
  { unfold ring_bucket_seq. rewrite Nc0. reflexivity. }
  rewrite R0 in E2. rewrite Q0 in E3.
  assert (Elb : length (buckets (ja ca1)) = length (buckets (ja ca0))).
  { rewrite Eja. unfold journal_bucket_insert. cbn [ja buckets].
    rewrite length_array_set, length_array_insert_item; lia. }
  assert (Els : length (bucket_seq (ja ca1)) = length (bucket_seq (ja ca0))).
  { rewrite Eja. unfold journal_bucket_insert. cbn [ja bucket_seq].
    rewrite length_array_set, length_array_insert_item; lia. }
  destruct (alloc_journal_buckets_grows new_fs cl nr_want bs free ca1)
    as (ca' & R & N & B & S & L & C); try assumption; try lia.
  exists ca'. split; [exact R|]. split; [exact N|].
  rewrite EL in B, S, L, C. rewrite EC in C. rewrite E2 in B. rewrite E3 in S.
  cbn [Z.to_nat firstn skipn app Z.leb Z.compare] in *.
  split; [exact B|]. split; [rewrite S; symmetry; apply repeat_cons|].
  split; lia.
Qed.


(** [-ENOMEM] from [__bch2_set_nr_journal_buckets] means exactly that one
    of the allocations of the arrays or of the superblock field failed,
    and then the device is as it was. *)
Theorem set_nr_journal_buckets_enomem (ca : bch_dev) (nr_want : Z)
    (new_fs cl : bool) (env : alloc_env) :
  nr (ja ca) < nr_want ->
  (fst (__bch2_set_nr_journal_buckets ca nr_want new_fs cl env) = - ENOMEM
   <-> kzalloc_ok env = false \/ sb_resize_ok env = false) /\
  (fst (__bch2_set_nr_journal_buckets ca nr_want new_fs cl env) = - ENOMEM ->
   snd (__bch2_set_nr_journal_buckets ca nr_want new_fs cl env) = ca).
Proof.
  intros Hn. unfold __bch2_set_nr_journal_buckets.
  destruct (nr_want <=? nr (ja ca)) eqn:Q; [apply Z.leb_le in Q; lia|].
  destruct (kzalloc_ok env); cbn [negb fst snd].
  2:{ split; [split; auto | reflexivity]. }
  destruct (sb_resize_ok env); cbn [negb fst snd].
  2:{ split; [split; auto | reflexivity]. }
  match goal with
  | |- context [alloc_journal_buckets ?f ?n ?a ?b ?l ?c] =>
      pose proof (alloc_journal_buckets_codes a b n f l c) as Hc
  end.
  assert (Hne : fst (alloc_journal_buckets (Z.to_nat (nr_want - nr (ja ca))) nr_want
                       new_fs cl (free_buckets env)
                       {| ja := {| buckets := grown_array nr_want (nr (ja ca)) (buckets (ja ca));
                                   bucket_seq := grown_array nr_want (nr (ja ca)) (bucket_seq (ja ca));
                                   cur_idx := cur_idx (ja ca); last_idx := last_idx (ja ca);
                                   nr := nr (ja ca) |};
                          sb_buckets := grown_array nr_want (nr (ja ca)) (sb_buckets ca);
                          marked := marked ca;
                          super_writes := super_writes ca |}) <> - ENOMEM).
  { destruct Hc as [-> | ->]; [discriminate|].
    destruct new_fs; [discriminate|]. destruct cl; discriminate. }
  split; [split|].
  - intros E. contradiction.
  - intros [E | E]; discriminate.
  - intros E. contradiction.
Qed.

(** The bucket list of the superblock's journal field follows the ring:
    if it lists the ring's buckets before a call of
    [__bch2_set_nr_journal_buckets], it lists them after it, however the
    call ends. *)
Theorem set_nr_journal_buckets_mirrors_sb (ca : bch_dev) (nr_want : Z)
    (new_fs cl : bool) (env : alloc_env) :
  firstn (Z.to_nat (nr (ja ca))) (sb_buckets ca) = ring_buckets (ja ca) ->
  let ca' := snd (__bch2_set_nr_journal_buckets ca nr_want new_fs cl env) in
  firstn (Z.to_nat (nr (ja ca'))) (sb_buckets ca') = ring_buckets (ja ca').
Proof.
  intros H. unfold __bch2_set_nr_journal_buckets.
  destruct (nr_want <=? nr (ja ca)); [exact H|].
  destruct (negb (kzalloc_ok env)); [exact H|].
  destruct (negb (sb_resize_ok env)); [exact H|].
  cbv zeta. unfold ring_buckets. f_equal.
  apply alloc_journal_buckets_mirror. cbn [sb_buckets ja buckets].
  unfold grown_array. unfold ring_buckets in H. rewrite H. reflexivity.
Qed.

(** [bch2_dev_journal_alloc] on a device without journal buckets never
    makes a journal of more than 1024 buckets or of more than 2^20 sectors
    (512MB), whatever BCH_JOURNAL_BUCKETS_MIN and the size of the device
    are. *)
Theorem bch2_dev_journal_alloc_bounded (BCH_JOURNAL_BUCKETS_MIN nbuckets bucket_size : Z)
    (fault : bool) (ca : bch_dev) (env : alloc_env) :
  nr (ja ca) = 0 ->
  0 < bucket_size ->
  let ca' := snd (bch2_dev_journal_alloc BCH_JOURNAL_BUCKETS_MIN nbuckets bucket_size
                    fault ca env) in
  0 <= nr (ja ca') <= 2 ^ 10 /\ nr (ja ca') * bucket_size <= 2 ^ 20.
Proof.
  intros N0 Hbs. unfold bch2_dev_journal_alloc.
  assert (Hq : 0 <= Z.quot (2 ^ 20) bucket_size /\
               Z.quot (2 ^ 20) bucket_size * bucket_size <= 2 ^ 20).
  { rewrite Z.quot_div_nonneg by lia.
    split; [apply Z.div_pos; lia|]. rewrite Z.mul_comm. apply Z.mul_div_le. lia. }
  destruct fault; cbn [snd]; [rewrite N0; lia|].
  set (hi := Z.min (2 ^ 10) (Z.quot (2 ^ 20) bucket_size)).
  assert (Hhi : 0 <= hi <= 2 ^ 10 /\ hi * bucket_size <= 2 ^ 20).
  { unfold hi. split; [lia|]. destruct Hq as [Hq0 Hq1].
    apply Z.le_trans with (2 := Hq1). apply Z.mul_le_mono_nonneg_r; lia. }
  set (nr_want := clamp_unsigned (Z.shiftr nbuckets 8) BCH_JOURNAL_BUCKETS_MIN hi).
  assert (Hw : nr_want <= hi).
  { unfold nr_want, clamp_unsigned. rewrite (u32_small hi) by lia. lia. }
  assert (Hfin : forall n, 0 <= n <= nr_want ->
                           0 <= n <= 2 ^ 10 /\ n * bucket_size <= 2 ^ 20).
  { intros n Hn. split; [lia|]. destruct Hhi as [_ Hhi].
    apply Z.le_trans with (2 := Hhi). apply Z.mul_le_mono_nonneg_r; lia. }
  destruct (__bch2_set_nr_journal_buckets ca nr_want true false env) as [r ca1] eqn:E.
  cbn [snd]. unfold __bch2_set_nr_journal_buckets in E.
  destruct (nr_want <=? nr (ja ca)) eqn:Q.
  { inversion E; subst. rewrite N0. lia. }
  apply Z.leb_gt in Q.
  destruct (negb (kzalloc_ok env)); [inversion E; subst; rewrite N0; lia|].
  destruct (negb (sb_resize_ok env)); [inversion E; subst; rewrite N0; lia|].
  apply alloc_journal_buckets_outcome in E; cbn [ja nr] in *; try lia.
  destruct E as (used & rest & _ & _ & _ & N & _ & O).
  apply Hfin. destruct O as [[_ O] | (_ & O & _)]; lia.
Qed.

Lemma skipn_nth_cons (l : list Z) :
  forall i, (i < length l)%nat -> skipn i l = nth i l 0 :: skipn (S i) l.
Proof.
  induction l as [|x l IH]; intros i Hi; cbn [length] in Hi; [lia|].
  destruct i as [|i]; [reflexivity|]. cbn [skipn nth]. rewrite IH by lia. reflexivity.
Qed.

(** The copy loop of [bch2_dev_journal_init], from pass [i] on. *)
Lemma copy_journal_buckets_from (sb : list Z) (n : nat) :
  forall (i : Z) (a : list Z),
    0 <= i ->
    (Z.to_nat i + n = length a)%nat ->
    length sb = length a ->
    copy_journal_buckets n i sb a = firstn (Z.to_nat i) a ++ skipn (Z.to_nat i) sb.
Proof.
  induction n as [|n IH]; intros i a Hi Hn Hl; cbn [copy_journal_buckets].
  - rewrite firstn_all2 by lia. rewrite skipn_all2 by lia. rewrite app_nil_r. reflexivity.
  - assert (Es : array_set i (nth (Z.to_nat i) sb 0) a
                 = firstn (Z.to_nat i) a ++ nth (Z.to_nat i) sb 0 :: skipn (S (Z.to_nat i)) a).
    { unfold array_set.
      replace ((0 <=? i) && (i <? Z.of_nat (length a))) with true; [reflexivity|].
      symmetry. apply andb_true_iff. split; [apply Z.leb_le; lia | apply Z.ltb_lt; lia]. }
    assert (Hx : length (firstn (Z.to_nat i) a) = Z.to_nat i)
      by (apply firstn_length_le; lia).
    rewrite IH; try lia.
    2:{ rewrite Es, length_app. cbn [length]. rewrite Hx, length_skipn. lia. }
    2:{ rewrite Es, length_app. cbn [length]. rewrite Hx, length_skipn. lia. }
    replace (Z.to_nat (i + 1)) with (S (Z.to_nat i)) by lia.
    rewrite Es. rewrite firstn_app, Hx.
    rewrite (firstn_all2 (n := S (Z.to_nat i)) (firstn (Z.to_nat i) a)) by lia.
    replace (S (Z.to_nat i) - Z.to_nat i)%nat with 1%nat by lia.
    cbn [firstn]. rewrite (skipn_nth_cons sb (Z.to_nat i)) by lia.
    rewrite <- app_assoc. reflexivity.
Qed.

Lemma bch2_dev_journal_init_ok (sb : list Z) (ca : bch_dev) :
  Z.of_nat (length sb) < 2 ^ 32 ->
  bch2_dev_journal_init true true true sb ca
  = (0, {| ja := {| buckets := sb;
                    bucket_seq := repeat 0 (length sb);
                    cur_idx := cur_idx (ja ca);
                    last_idx := last_idx (ja ca);
                    nr := Z.of_nat (length sb) |};
           sb_buckets := sb_buckets ca;
           marked := marked ca;
           super_writes := super_writes ca |}).
Proof.
  intros H. unfold bch2_dev_journal_init, bch2_nr_journal_buckets. cbn [negb].
  rewrite u32_small by lia. rewrite Nat2Z.id.
  rewrite copy_journal_buckets_from; try lia.
  - reflexivity.
  - rewrite repeat_length. reflexivity.
  - rewrite repeat_length. reflexivity.
Qed.

(** [bch2_dev_journal_init], when its three allocations succeed, makes
    the ring the bucket list of the superblock handed in, entry by entry
    and in its order, with every bucket_seq at 0; cur_idx and last_idx are
    not touched. *)
Theorem bch2_dev_journal_init_reads_sb (sb : list Z) (ca : bch_dev) :
  Z.of_nat (length sb) < 2 ^ 32 ->
  let ca' := snd (bch2_dev_journal_init true true true sb ca) in
  fst (bch2_dev_journal_init true true true sb ca) = 0 /\
  nr (ja ca') = Z.of_nat (length sb) /\
  ring_buckets (ja ca') = sb /\
  ring_bucket_seq (ja ca') = repeat 0 (length sb) /\
  cur_idx (ja ca') = cur_idx (ja ca) /\
  last_idx (ja ca') = last_idx (ja ca).
Proof.
  intros H. cbv zeta. rewrite bch2_dev_journal_init_ok by exact H.
  cbn [fst snd ja nr cur_idx last_idx]. unfold ring_buckets, ring_bucket_seq.
  cbn [ja nr buckets bucket_seq]. rewrite Nat2Z.id.
  repeat split; try reflexivity.
  - apply firstn_all.
  - apply firstn_all2. rewrite repeat_length. lia.
Qed.

(** A ring grown by [__bch2_set_nr_journal_buckets] and read back from
    the superblock field it filled: [bch2_dev_journal_init] gets the
    ring's buckets in the ring's order and its size, with every
    bucket_seq at 0. *)
Theorem dev_journal_init_after_growth (ca ca' ca0 : bch_dev) (nr_want : Z)
    (new_fs cl : bool) (env : alloc_env) :
  __bch2_set_nr_journal_buckets ca nr_want new_fs cl env = (0, ca') ->
  0 <= nr (ja ca) < nr_want ->
  nr_want < 2 ^ 32 ->
  0 <= last_idx (ja ca) <= nr (ja ca) ->
  nr (ja ca) <= Z.of_nat (length (buckets (ja ca))) ->
  nr (ja ca) <= Z.of_nat (length (bucket_seq (ja ca))) ->
  nr (ja ca) <= Z.of_nat (length (sb_buckets ca)) ->
  firstn (Z.to_nat (nr (ja ca))) (sb_buckets ca) = ring_buckets (ja ca) ->
  let ca1 := snd (bch2_dev_journal_init true true true (sb_buckets ca') ca0) in
  fst (bch2_dev_journal_init true true true (sb_buckets ca') ca0) = 0 /\
  nr (ja ca1) = nr (ja ca') /\
  ring_buckets (ja ca1) = ring_buckets (ja ca') /\
  ring_bucket_seq (ja ca1) = repeat 0 (Z.to_nat (nr (ja ca'))).
Proof.
  intros H Hn Hw HL Lb Ls Lsb Hm.
  unfold __bch2_set_nr_journal_buckets in H.
  destruct (nr_want <=? nr (ja ca)) eqn:Q; [apply Z.leb_le in Q; lia|].
  destruct (negb (kzalloc_ok env)); [inversion H|].
  destruct (negb (sb_resize_ok env)); [inversion H|].
  match type of H with
  | alloc_journal_buckets ?f _ _ _ ?l ?c = _ => set (c0 := c) in H; set (fuel := f) in H
  end.
  assert (G : forall a, nr (ja ca) <= Z.of_nat (length a) ->
                        length (grown_array nr_want (nr (ja ca)) a) = Z.to_nat nr_want).
  { intros a Ha. apply ring_of_grown_array; lia. }
  pose proof (alloc_journal_buckets_shape new_fs cl nr_want fuel (free_buckets env) c0
                (Z.to_nat nr_want)) as Sh.
  pose proof (alloc_journal_buckets_mirror new_fs cl nr_want fuel (free_buckets env) c0) as Mi.
  pose proof (alloc_journal_buckets_outcome new_fs cl nr_want fuel (free_buckets env) c0 0 ca' H)
    as Ou.
  rewrite H in Sh, Mi. cbn [snd] in Sh, Mi. cbv zeta in Sh.
  destruct Sh as (Sb & _ & Ssb & _);
    try (unfold c0, fuel; cbn [ja nr last_idx buckets bucket_seq sb_buckets]; lia);
    try (unfold c0; cbn [ja buckets bucket_seq sb_buckets]; apply G; assumption).
  destruct Ou as (used & rest & _ & _ & _ & N & _ & O);
    try (unfold c0, fuel; cbn [ja nr]; lia).
  assert (Nw : nr (ja ca') = nr_want).
  { destruct O as [[_ O] | (O & _)]; [exact O|].
    exfalso. destruct new_fs; [discriminate|]. destruct cl; discriminate. }
  assert (Em : sb_buckets ca' = buckets (ja ca')).
  { apply Mi. unfold c0. cbn [sb_buckets ja buckets]. unfold grown_array.
    unfold ring_buckets in Hm. rewrite Hm. reflexivity. }
  assert (Er : ring_buckets (ja ca') = sb_buckets ca').
  { unfold ring_buckets. rewrite Em. apply firstn_all2. lia. }
  cbv zeta. rewrite bch2_dev_journal_init_ok by lia.
  cbn [fst snd ja nr]. unfold ring_buckets at 1, ring_bucket_seq.
  cbn [ja nr buckets bucket_seq]. rewrite Nat2Z.id.
  split; [reflexivity|]. split; [lia|].
  split; [rewrite firstn_all; symmetry; exact Er|].
  rewrite firstn_all2 by (rewrite repeat_length; lia).
  f_equal. lia.
Qed.

(** The exported [bch2_set_nr_journal_buckets] never hands [-EAGAIN] to
    its caller: it returns 0, [-ENOSPC] or [-ENOMEM], and 0 only with a
    ring of at least the size asked for. *)
Theorem bch2_set_nr_journal_buckets_codes (attempts : list (bool * alloc_env)) :
  forall (ca : bch_dev) (nr_want r : Z) (ca' : bch_dev),
    bch2_set_nr_journal_buckets attempts ca nr_want = Some (r, ca') ->
    0 <= nr (ja ca) ->
    nr_want < 2 ^ 32 ->
    (r = 0 \/ r = - ENOSPC \/ r = - ENOMEM) /\
    (r = 0 -> nr_want <= nr (ja ca')).
Proof.
  induction attempts as [|[granted env] attempts IH]; intros ca nr_want r ca' H H0 Hw;
    cbn [bch2_set_nr_journal_buckets] in H; [discriminate|].
  destruct granted; cbn [negb] in H.
  2:{ inversion H; subst. split; [right; left; reflexivity | discriminate]. }
  destruct (__bch2_set_nr_journal_buckets ca nr_want false true env) as [r0 ca0] eqn:E.
  assert (P : (r0 = 0 /\ nr_want <= nr (ja ca0)) \/
              ((r0 = - EAGAIN \/ r0 = - ENOMEM) /\ 0 <= nr (ja ca0))).
  { unfold __bch2_set_nr_journal_buckets in E.
    destruct (nr_want <=? nr (ja ca)) eqn:Q.
    { apply Z.leb_le in Q. inversion E; subst. left. split; [reflexivity | exact Q]. }
    apply Z.leb_gt in Q.
    destruct (negb (kzalloc_ok env)); [inversion E; subst; right; split; [right; reflexivity | exact H0]|].
    destruct (negb (sb_resize_ok env)); [inversion E; subst; right; split; [right; reflexivity | exact H0]|].
    apply alloc_journal_buckets_outcome in E; cbn [ja nr] in *; try lia.
    destruct E as (used & rest & _ & _ & _ & N & _ & O).
    destruct O as [[-> O] | (-> & O & _)]; [left | right].
    - split; [reflexivity | lia].
    - split; [left; reflexivity | lia]. }
  set (ca1 := if nr (ja ca0) =? nr (ja ca) then ca0
              else {| ja := ja ca0; sb_buckets := sb_buckets ca0;
                      marked := marked ca0; super_writes := super_writes ca0 + 1 |}) in *.
  assert (N1 : nr (ja ca1) = nr (ja ca0)).
  { unfold ca1. destruct (nr (ja ca0) =? nr (ja ca)); reflexivity. }
  destruct (r0 =? - EAGAIN) eqn:Qr.
  - apply IH in H; [exact H | | exact Hw].
    rewrite N1. destruct P as [[-> _] | [_ P]]; [cbv in Qr; discriminate | lia].
  - apply Z.eqb_neq in Qr. inversion H; subst r ca'. rewrite N1.
    destruct P as [[-> P] | [[-> | ->] P]].
    + split; [left; reflexivity | intros _; exact P].
    + contradiction.
    + split; [right; right; reflexivity | discriminate].
Qed.

End MoreRing.

(** * The theorems at work on the sample journal and devices *)

Section Samples.

#[local] Existing Instance sample_consts.
#[local] Existing Instance sample_externs.

(** C1 as stated fails: after a halt of [sample_journal] a reservation,
    through [bch2_journal_res_get] or through the slow path alone, returns
    [-EROFS], which is not [-EIO]. *)
Lemma res_get_after_halt_not_EIO :
  bch2_journal_halt sample_journal = Done tt after_halt /\
  bch2_journal_res_get 1 10 10 [] after_halt = Done (- EROFS, None) after_halt /\
  bch2_journal_res_get_slowpath 1 10 10 [] after_halt = Done (- EROFS, None) after_halt /\
  - EROFS <> - EIO.
Proof. repeat split; try (vm_compute; reflexivity). discriminate. Qed.

Lemma res_get_after_halt_witness :
  exists j1 j2,
    bch2_journal_halt sample_journal = Done tt j1 /\
    res_get_calls two_calls j1 = Done [- EROFS; - EROFS] j2 /\
    cur_entry_offset (reservations j2) = JOURNAL_ENTRY_ERROR_VAL.
Proof. exact (res_get_after_halt sample_journal two_calls). Defined.

Lemma error_is_absorbing_witness :
  cur_entry_offset
    (reservations
       (final_state (run_ops [op_halt; op_buf_switch false; op_entry_open]) halted_journal))
  = JOURNAL_ENTRY_ERROR_VAL.
Proof.
  apply (error_is_absorbing [op_halt; op_buf_switch false; op_entry_open] halted_journal).
  - vm_compute. reflexivity.
  - vm_compute. reflexivity.
Defined.

Lemma journal_buf_switch_close_witness :
  let j := set_lock true sample_journal in
  let j' := final_state (journal_buf_switch false) j in
  (exists old new rest,
    cmpxchg_loop journal_buf_switch_body (racing j) (reservations j)
      = Swapped old new rest /\
    In old (reservations j :: racing j) /\
    cur_entry_offset old <> JOURNAL_ENTRY_CLOSED_VAL /\
    cur_entry_offset old <> JOURNAL_ENTRY_ERROR_VAL /\
    prev_buf_unwritten old = false /\
    journal_state_count new (idx old)
      = wrap COUNT_BITS (journal_state_count old (idx old) + 1) /\
    (0 <= journal_state_count old (idx old) < 2 ^ COUNT_BITS - 1 ->
     journal_state_count new (idx old) = journal_state_count old (idx old) + 1) /\
    journal_state_count new (negb (idx old)) = journal_state_count old (negb (idx old)) /\
    cur_entry_offset new = JOURNAL_ENTRY_CLOSED_VAL /\
    idx new = negb (idx old) /\
    prev_buf_unwritten new = true /\
    ((forall s, reservations (bch2_journal_reclaim_fast s) = reservations s) ->
     (forall s, reservations (bch2_journal_write s) = reservations s) ->
     cur_entry_offset (reservations j') = JOURNAL_ENTRY_CLOSED_VAL /\
     idx (reservations j') = negb (idx old) /\
     prev_buf_unwritten (reservations j') = true /\
     (0 <= journal_state_count old (idx old) < 2 ^ COUNT_BITS - 1 ->
      journal_state_count (reservations j') (idx old)
        = journal_state_count old (idx old) /\
      journal_state_count (reservations j') (negb (idx old))
        = journal_state_count old (negb (idx old))))) /\
  (forall s, reservations (bch2_journal_reclaim_fast s) = reservations s) /\
  (forall s, reservations (bch2_journal_write s) = reservations s) /\
  0 <= journal_state_count (reservations j) (idx (reservations j)) < 2 ^ COUNT_BITS - 1 /\
  reservations j' =
    {| cur_entry_offset := JOURNAL_ENTRY_CLOSED_VAL; idx := true;
       prev_buf_unwritten := true; buf0_count := 2; buf1_count := 0 |}.
Proof.
  split; [|split; [|split; [|split]]].
  - apply (journal_buf_switch_close false (set_lock true sample_journal)
             (final_state (journal_buf_switch false) (set_lock true sample_journal))).
    vm_compute. reflexivity.
  - intros s. reflexivity.
  - intros s. reflexivity.
  - vm_compute. split; [discriminate | reflexivity].
  - vm_compute. reflexivity.
Defined.

(** C4 as stated fails: in the ERROR state, with the lock held, a full
    pin fifo makes [journal_entry_open] return 0 and not [-EIO]. *)
Lemma journal_entry_open_error_blocked :
  cur_entry_offset (reservations halted_full_journal) = JOURNAL_ENTRY_ERROR_VAL /\
  lock halted_full_journal = true /\
  journal_entry_is_open halted_full_journal = false /\
  fifo_free (pin halted_full_journal) = 0 /\
  journal_entry_open halted_full_journal = Done 0 halted_full_journal /\
  0 <> - EIO.
Proof. repeat split; try (vm_compute; reflexivity). discriminate. Qed.

(** The exported [bch2_journal_open_seq_async] leads there. *)
Example open_seq_async_error_blocked :
  exists j', bch2_journal_open_seq_async 1 {| cl_id := 1; cl_waiting := false |}
               (set_lock false halted_full_journal) = Done 0 j' /\
             async_wait j' = [1%nat].
Proof. eexists. vm_compute. split; reflexivity. Qed.

Lemma journal_entry_open_in_error_witness :
  journal_entry_open halted_full_journal = Done 0 halted_full_journal /\
  journal_entry_open closed_full_journal = Done 0 closed_full_journal /\
  cur_entry_offset (reservations closed_full_journal) <> JOURNAL_ENTRY_ERROR_VAL /\
  exists j', journal_entry_open halted_journal = Done (- EIO) j' /\
             reservations j' = reservations halted_journal.
Proof.
  assert (H1 : cur_entry_offset (reservations halted_full_journal) = JOURNAL_ENTRY_ERROR_VAL)
    by (vm_compute; reflexivity).
  assert (H2 : cur_entry_offset (reservations halted_journal) = JOURNAL_ENTRY_ERROR_VAL)
    by (vm_compute; reflexivity).
  destruct (journal_entry_open_in_error halted_full_journal) as (A1 & B1 & _).
  destruct (journal_entry_open_in_error closed_full_journal) as (_ & B2 & _).
  destruct (journal_entry_open_in_error halted_journal) as (_ & _ & C3).
  split; [|split; [|split]].
  - apply B1; [exact (A1 H1) | vm_compute; reflexivity].
  - apply B2; vm_compute; reflexivity.
  - vm_compute. discriminate.
  - apply C3.
    + exact H2.
    + vm_compute. discriminate.
    + vm_compute. reflexivity.
    + vm_compute. reflexivity.
    + vm_compute. reflexivity.
Defined.

Lemma journal_entry_open_publishes_u64s_witness :
  cur_entry_u64s (final_state journal_entry_open closed_journal) = 8101.
Proof.
  rewrite (journal_entry_open_publishes_u64s closed_journal
             (final_state journal_entry_open closed_journal)).
  - vm_compute. reflexivity.
  - vm_compute. reflexivity.
  - vm_compute. split; [discriminate | reflexivity].
Defined.

Lemma bch2_journal_flush_idle_witness :
  bch2_journal_flush [Killed] idle_journal = Done 0 idle_journal /\
  bch2_journal_flush_async (Some {| cl_id := 1; cl_waiting := false |}) idle_journal
    = Done tt idle_journal.
Proof.
  apply (bch2_journal_flush_idle idle_journal); vm_compute; reflexivity.
Defined.

Lemma bch2_journal_halt_idempotent_witness :
  bch2_journal_halt after_halt = Done tt after_halt /\
  (forall j', bch2_journal_halt after_halt = Done tt j' ->
     reservations j' = reservations after_halt /\ log j' = log after_halt).
Proof.
  apply (bch2_journal_halt_idempotent after_halt). vm_compute. reflexivity.
Defined.



Lemma set_nr_journal_buckets_no_shrink_witness :
  __bch2_set_nr_journal_buckets sample_dev 2 false true sample_alloc = (0, sample_dev).
Proof.
  apply (set_nr_journal_buckets_no_shrink sample_dev 2 false true sample_alloc).
  vm_compute. discriminate.
Defined.

(** The first allocation for a device goes through the empty ring: the
    first bucket handed out stays where cur_idx points and ends up last. *)
Example fresh_dev_journal_alloc :
  exists ca', bch2_dev_journal_alloc 3 768 256 false fresh_dev sample_alloc = (0, ca') /\
              ring_buckets (ja ca') = [41; 42; 40] /\
              cur_idx (ja ca') = 2 /\ last_idx (ja ca') = 2.
Proof. eexists. vm_compute. repeat split; reflexivity. Qed.

(** Growing the sample ring by two: the new buckets sit at last_idx, the
    old ones keep their order and cur_idx follows bucket 12. *)
Example sample_ring_grows :
  exists ca', __bch2_set_nr_journal_buckets sample_dev 5 true false sample_alloc = (0, ca') /\
              ring_buckets (ja ca') = [10; 40; 41; 11; 12] /\
              ring_bucket_seq (ja ca') = [7; 0; 0; 5; 6] /\
              cur_idx (ja ca') = 4 /\ last_idx (ja ca') = 3.
Proof. eexists. vm_compute. repeat split; reflexivity. Qed.

(** ** The further properties at work *)

Ltac calc := vm_compute; repeat split; (discriminate || reflexivity).

Lemma journal_buf_switch_leaves_journal_witness :
  exists v rest,
    In v (reservations closed_journal :: racing closed_journal) /\
    final_state (journal_buf_switch false) closed_journal
      = set_racing rest (set_reservations v closed_journal) /\
    (JOURNAL_ENTRY_CLOSED = JOURNAL_ENTRY_CLOSED
       <-> cur_entry_offset v = JOURNAL_ENTRY_CLOSED_VAL) /\
    (JOURNAL_ENTRY_CLOSED = JOURNAL_ENTRY_ERROR
       <-> cur_entry_offset v = JOURNAL_ENTRY_ERROR_VAL) /\
    (JOURNAL_ENTRY_CLOSED = JOURNAL_ENTRY_INUSE <->
       cur_entry_offset v <> JOURNAL_ENTRY_CLOSED_VAL /\
       cur_entry_offset v <> JOURNAL_ENTRY_ERROR_VAL /\
       prev_buf_unwritten v = true).
Proof.
  apply (journal_buf_switch_leaves_journal false closed_journal JOURNAL_ENTRY_CLOSED
           (final_state (journal_buf_switch false) closed_journal)).
  - vm_compute. reflexivity.
  - discriminate.
Defined.

Lemma bch2_journal_halt_transition_witness :
  exists j',
    bch2_journal_halt sample_journal = Done tt j' /\
    reservations j'
      = set_cur_entry_offset JOURNAL_ENTRY_ERROR_VAL (reservations sample_journal) /\
    log j' = closure_wake_up (wait (journal_prev_buf sample_journal))
             :: closure_wake_up (wait (journal_cur_buf sample_journal))
             :: journal_wake :: log sample_journal /\
    wait (buf0 j') = [] /\ wait (buf1 j') = [] /\
    lock j' = lock sample_journal /\ need_write j' = need_write sample_journal /\
    j_seq j' = j_seq sample_journal /\
    pin j' = pin sample_journal.
Proof.
  apply (bch2_journal_halt_transition sample_journal).
  - vm_compute. discriminate.
  - reflexivity.
Defined.

Lemma journal_entry_open_returns_witness :
  1 = 1 \/ 1 = 0 \/ 1 = - EIO \/
  (1 = bch2_journal_entry_sectors closed_journal /\ 1 <= 0).
Proof.
  apply (journal_entry_open_returns closed_journal 1
           (final_state journal_entry_open closed_journal)).
  vm_compute. reflexivity.
Defined.

Lemma journal_entry_open_opens_witness :
  let j' := final_state journal_entry_open closed_journal in
  cur_entry_offset (reservations j') = jset_u64s (data (journal_cur_buf closed_journal)) /\
  journal_entry_is_open j' = true /\
  cur_entry_offset (reservations j') < cur_entry_u64s j' /\
  res_get_blocked_start j' = 0.
Proof.
  apply (journal_entry_open_opens closed_journal
           (final_state journal_entry_open closed_journal)).
  - vm_compute. reflexivity.
  - vm_compute. discriminate.
Defined.

Lemma journal_pin_new_entry_in_step_witness :
  exists j',
    journal_pin_new_entry 1 sample_journal = Done tt j' /\
    j' = set_pin (pin j') (set_j_seq (j_seq j') sample_journal) /\
    j_seq j' = j_seq sample_journal + 1 /\
    fifo_size (pin j') = fifo_size (pin sample_journal) /\
    fifo_data (pin j') =
      fifo_data (pin sample_journal) ++ [{| pin_count := 1; pin_list := [];
                                            pin_flushed := []; pin_devs_nr := 0 |}] /\
    fifo_free (pin j') = fifo_free (pin sample_journal) - 1 /\
    j_seq j' - Z.of_nat (length (fifo_data (pin j')))
      = j_seq sample_journal - Z.of_nat (length (fifo_data (pin sample_journal))).
Proof.
  apply (journal_pin_new_entry_in_step 1 sample_journal).
  - calc.
  - vm_compute. reflexivity.
Defined.

Lemma bch2_journal_res_get_slowpath_returns_witness :
  (- EROFS = 0 /\ exists tk, @None journal_res = Some tk) \/
  (- EROFS < 0 /\ @None journal_res = None).
Proof.
  apply (bch2_journal_res_get_slowpath_returns 1 10 10 [] after_halt
           (- EROFS) None after_halt).
  vm_compute. reflexivity.
Defined.

Lemma journal_res_get_blocked_by_write_witness :
  exists j',
    __journal_res_get 1 8000 8000 writing_journal = Done (0, None) j' /\
    reservations j' = reservations writing_journal /\
    lock j' = false /\
    log j' = trace_journal_entry_full :: log writing_journal /\
    res_get_blocked_start j' <> 0 /\
    (res_get_blocked_start writing_journal <> 0 ->
     res_get_blocked_start j' = res_get_blocked_start writing_journal) /\
    buf_size_want writing_journal <= buf_size_want j'.
Proof.
  apply (journal_res_get_blocked_by_write 0 8000 8000 writing_journal);
    vm_compute; reflexivity.
Defined.

Lemma seq_beyond_current_is_a_bug_witness :
  bch2_journal_flush_seq 5 [] sample_journal = Bug /\
  bch2_journal_flush_seq_async 5 None sample_journal = Bug /\
  bch2_journal_wait_on_seq 5 sample_closure sample_journal = Bug /\
  bch2_journal_open_seq_async 5 sample_closure sample_journal = Bug.
Proof.
  apply (seq_beyond_current_is_a_bug 5 sample_journal [] None sample_closure).
  vm_compute. reflexivity.
Defined.

Lemma no_waiting_in_error_witness :
  bch2_journal_wait_on_seq 1 sample_closure halted_journal
    = Done tt (set_lock false halted_journal) /\
  bch2_journal_flush_seq_async 1 (Some sample_closure) halted_journal
    = Done tt (set_lock false halted_journal).
Proof.
  apply (no_waiting_in_error 1 halted_journal (Some sample_closure) sample_closure).
  - vm_compute. reflexivity.
  - vm_compute. discriminate.
Defined.

Lemma wait_on_seq_queues_unwritten_witness :
  let j := writing_journal in
  let unwritten :=
    if prev_buf_unwritten (reservations j)
    then journal_cur_seq j - 1 else journal_cur_seq j in
  let queue (b : bool) :=
    upd_buf b (fun buf => set_wait (cl_id sample_closure :: wait buf) buf) j in
  bch2_journal_last_unwritten_seq j = Done unwritten (set_lock false j) /\
  (1 < unwritten ->
   bch2_journal_wait_on_seq 1 sample_closure j = Done tt (set_lock false j)) /\
  (unwritten <= 1 ->
   bch2_journal_wait_on_seq 1 sample_closure j =
     Done tt (set_lock false
                (queue (if 1 =? journal_cur_seq j
                        then idx (reservations j)
                        else negb (idx (reservations j)))))).
Proof.
  apply (wait_on_seq_queues_unwritten 1 sample_closure writing_journal).
  - vm_compute. discriminate.
  - reflexivity.
  - calc.
  - calc.
Defined.

Lemma flush_seq_already_written_witness :
  bch2_journal_flush_seq 1 [] closed_journal =
    Done 0 (set_log (bch2_time_stats_update flush_seq_time (local_clock closed_journal)
                       :: log closed_journal)
              (set_lock false closed_journal)).
Proof.
  apply (flush_seq_already_written 1 [] closed_journal); vm_compute; reflexivity.
Defined.

Lemma flush_seq_in_error_witness :
  exists j',
    bch2_journal_flush_seq 1 [] halted_journal = Done (- EIO) j' /\
    reservations j' = reservations halted_journal /\
    lock j' = false.
Proof.
  apply (flush_seq_in_error 1 [] halted_journal).
  - vm_compute. reflexivity.
  - left. vm_compute. reflexivity.
Defined.

Lemma bch2_journal_flush_not_open_witness :
  let j := closed_journal in
  (prev_buf_unwritten (reservations j) = false ->
   bch2_journal_flush [Killed] j =
     Done 0 (set_log (bch2_time_stats_update flush_seq_time
                        (local_clock (set_lock false j)) :: log j)
               (set_lock false j))) /\
  (prev_buf_unwritten (reservations j) = true ->
   cur_entry_offset (reservations j) = JOURNAL_ENTRY_ERROR_VAL ->
   exists j', bch2_journal_flush [Killed] j = Done (- EIO) j' /\
              reservations j' = reservations j) /\
  (prev_buf_unwritten (reservations j) = true ->
   cur_entry_offset (reservations j) <> JOURNAL_ENTRY_ERROR_VAL ->
   bch2_journal_flush [] j = Parked (set_lock false j)).
Proof.
  apply (bch2_journal_flush_not_open [Killed] closed_journal).
  - vm_compute. reflexivity.
  - calc.
Defined.

Lemma journal_flush_write_idle_witness :
  (journal_entry_is_open closed_journal = false ->
   journal_flush_write closed_journal =
     Done (negb (prev_buf_unwritten (reservations closed_journal)))
       (set_lock false closed_journal)) /\
  (forall j', journal_flush_write closed_journal = Done true j' ->
     journal_entry_is_open closed_journal = false /\
     prev_buf_unwritten (reservations closed_journal) = false /\
     j' = set_lock false closed_journal).
Proof.
  apply (journal_flush_write_idle closed_journal). reflexivity.
Defined.

Lemma flush_seq_async_write_in_flight_witness :
  let j := writing_journal in
  exists j',
    bch2_journal_flush_seq_async (journal_cur_seq j) (Some sample_closure) j = Done tt j' /\
    wait (journal_cur_buf j') = cl_id sample_closure :: wait (journal_cur_buf j) /\
    wait (journal_prev_buf j') = wait (journal_prev_buf j) /\
    need_write j' = true /\
    (need_write j = true -> need_write_time j' = need_write_time j) /\
    reservations j' = reservations j /\
    j_seq j' = j_seq j /\
    log j' = log j /\
    lock j' = false.
Proof.
  apply (flush_seq_async_write_in_flight sample_closure writing_journal);
    vm_compute; reflexivity.
Defined.

Lemma journal_buf_switch_closes_witness :
  let j := set_lock true sample_journal in
  let j' := final_state (journal_buf_switch false) j in
  let i := idx (reservations j) in
  j_seq j' = j_seq j + 1 /\
  reservations j' =
    set_prev_buf_unwritten true
      (set_idx (negb i)
         (set_cur_entry_offset JOURNAL_ENTRY_CLOSED_VAL (reservations j))) /\
  jset_u64s (data (buf_at i j')) = u32 (cur_entry_offset (reservations j)) /\
  jset_seq (data (buf_at i j')) = jset_seq (data (buf_at i j)) /\
  data (buf_at (negb i) j') =
    {| jset_seq := j_seq j + 1; jset_last_seq := 0; jset_u64s := 0 |} /\
  has_inode (buf_at (negb i) j') = 0 /\
  need_write j' = false /\
  lock j' = false.
Proof.
  apply (journal_buf_switch_closes false (set_lock true sample_journal)
           (final_state (journal_buf_switch false) (set_lock true sample_journal))).
  - vm_compute. reflexivity.
  - reflexivity.
  - intros s. exists (pin s), (async_wait s), (log s). destruct s. reflexivity.
  - calc.
  - calc.
Defined.

Lemma set_nr_journal_buckets_grows_witness :
  exists ca',
    __bch2_set_nr_journal_buckets sample_dev 5 true false sample_alloc = (0, ca') /\
    nr (ja ca') = 5 /\
    ring_buckets (ja ca') =
      firstn (Z.to_nat (last_idx (ja sample_dev))) (ring_buckets (ja sample_dev))
      ++ [40; 41] ++
      skipn (Z.to_nat (last_idx (ja sample_dev))) (ring_buckets (ja sample_dev)) /\
    ring_bucket_seq (ja ca') =
      firstn (Z.to_nat (last_idx (ja sample_dev))) (ring_bucket_seq (ja sample_dev)) ++
      repeat 0 (length [40; 41]) ++
      skipn (Z.to_nat (last_idx (ja sample_dev))) (ring_bucket_seq (ja sample_dev)) /\
    last_idx (ja ca') = last_idx (ja sample_dev) + Z.of_nat (length [40; 41]) /\
    cur_idx (ja ca') =
      (if last_idx (ja sample_dev) <=? cur_idx (ja sample_dev)
       then cur_idx (ja sample_dev) + Z.of_nat (length [40; 41])
       else cur_idx (ja sample_dev)).
Proof.
  apply (set_nr_journal_buckets_grows sample_dev 5 true false sample_alloc [40; 41] [42]).
  - reflexivity.
  - reflexivity.
  - reflexivity.
  - repeat constructor; vm_compute; discriminate || reflexivity.
  - discriminate.
  - reflexivity.
  - reflexivity.
  - vm_compute. discriminate.
  - vm_compute. discriminate.
  - calc.
  - calc.
Defined.

Lemma bch2_set_nr_journal_buckets_no_shrink_witness :
  bch2_set_nr_journal_buckets [(true, sample_alloc)] sample_dev 2 = Some (0, sample_dev).
Proof.
  apply (bch2_set_nr_journal_buckets_no_shrink true sample_alloc [] sample_dev 2).
  vm_compute. discriminate.
Defined.

Lemma set_nr_journal_buckets_first_alloc_witness :
  exists ca',
    __bch2_set_nr_journal_buckets fresh_dev 3 true false sample_alloc = (0, ca') /\
    nr (ja ca') = 3 /\
    ring_buckets (ja ca') = [41; 42] ++ [40] /\
    ring_bucket_seq (ja ca') = repeat 0 (S (length [41; 42])) /\
    last_idx (ja ca') = 3 - 1 /\
    cur_idx (ja ca') = 3 - 1.
Proof.
  apply (set_nr_journal_buckets_first_alloc fresh_dev 3 true false sample_alloc
           40 [41; 42] []).
  - reflexivity.
  - reflexivity.
  - reflexivity.
  - reflexivity.
  - reflexivity.
  - reflexivity.
  - repeat constructor; vm_compute; discriminate || reflexivity.
  - reflexivity.
  - reflexivity.
Defined.


Lemma set_nr_journal_buckets_enomem_witness :
  (fst (__bch2_set_nr_journal_buckets fresh_dev 3 true false failing_alloc) = - ENOMEM
   <-> kzalloc_ok failing_alloc = false \/ sb_resize_ok failing_alloc = false) /\
  (fst (__bch2_set_nr_journal_buckets fresh_dev 3 true false failing_alloc) = - ENOMEM ->
   snd (__bch2_set_nr_journal_buckets fresh_dev 3 true false failing_alloc) = fresh_dev).
Proof.
  apply (set_nr_journal_buckets_enomem fresh_dev 3 true false failing_alloc).
  reflexivity.
Defined.

Lemma set_nr_journal_buckets_mirrors_sb_witness :
  let ca' := snd (__bch2_set_nr_journal_buckets sample_dev 5 true false sample_alloc) in
  firstn (Z.to_nat (nr (ja ca'))) (sb_buckets ca') = ring_buckets (ja ca').
Proof.
  apply (set_nr_journal_buckets_mirrors_sb sample_dev 5 true false sample_alloc).
  reflexivity.
Defined.

Lemma bch2_dev_journal_alloc_bounded_witness :
  let ca' := snd (bch2_dev_journal_alloc 8 1024 512 false fresh_dev sample_alloc) in
  0 <= nr (ja ca') <= 2 ^ 10 /\ nr (ja ca') * 512 <= 2 ^ 20.
Proof.
  apply (bch2_dev_journal_alloc_bounded 8 1024 512 false fresh_dev sample_alloc).
  - reflexivity.
  - reflexivity.
Defined.

Lemma bch2_dev_journal_init_reads_sb_witness :
  let ca' := snd (bch2_dev_journal_init true true true [40; 41; 42] fresh_dev) in
  fst (bch2_dev_journal_init true true true [40; 41; 42] fresh_dev) = 0 /\
  nr (ja ca') = Z.of_nat (length [40; 41; 42]) /\
  ring_buckets (ja ca') = [40; 41; 42] /\
  ring_bucket_seq (ja ca') = repeat 0 (length [40; 41; 42]) /\
  cur_idx (ja ca') = cur_idx (ja fresh_dev) /\
  last_idx (ja ca') = last_idx (ja fresh_dev).
Proof.
  apply (bch2_dev_journal_init_reads_sb [40; 41; 42] fresh_dev). reflexivity.
Defined.

Lemma dev_journal_init_after_growth_witness :
  let ca' := snd (__bch2_set_nr_journal_buckets sample_dev 5 true false sample_alloc) in
  let ca1 := snd (bch2_dev_journal_init true true true (sb_buckets ca') fresh_dev) in
  fst (bch2_dev_journal_init true true true (sb_buckets ca') fresh_dev) = 0 /\
  nr (ja ca1) = nr (ja ca') /\
  ring_buckets (ja ca1) = ring_buckets (ja ca') /\
  ring_bucket_seq (ja ca1) = repeat 0 (Z.to_nat (nr (ja ca'))).
Proof.
  apply (dev_journal_init_after_growth sample_dev
           (snd (__bch2_set_nr_journal_buckets sample_dev 5 true false sample_alloc))
           fresh_dev 5 true false sample_alloc).
  - vm_compute. reflexivity.
  - calc.
  - reflexivity.
  - calc.
  - vm_compute. discriminate.
  - vm_compute. discriminate.
  - vm_compute. discriminate.
  - vm_compute. reflexivity.
Defined.

Lemma bch2_set_nr_journal_buckets_codes_witness :
  let ca' := final_dev (bch2_set_nr_journal_buckets [(true, sample_alloc)] sample_dev 5) in
  (0 = 0 \/ 0 = - ENOSPC \/ 0 = - ENOMEM) /\
  (0 = 0 -> 5 <= nr (ja ca')).
Proof.
  apply (bch2_set_nr_journal_buckets_codes [(true, sample_alloc)] sample_dev 5 0
           (final_dev (bch2_set_nr_journal_buckets [(true, sample_alloc)] sample_dev 5))).
  - vm_compute. reflexivity.
  - calc.
  - calc.
Defined.

End Samples.
